(** * Diet optimizer: a shallow embedding of [dietOptimizer.ts] and
      [dietOptimizerLPSimple.ts], with the properties of the design document.

    Numbers.  The TypeScript code computes on JavaScript numbers.  They are
    modelled by [Num.num]: a rational, or one of the three special values
    [+Infinity], [-Infinity] and [NaN], with the IEEE 754 rules for the special
    values (division by zero, [Infinity - Infinity], comparisons with [NaN], ...)
    and exact arithmetic on the finite values.  Two things are abstracted:
    the rounding of binary64 (finite results are exact, and do not overflow),
    and the sign of zero (every zero is [+0]).  The energy model, on which a
    numeric scenario is stated, is also given on binary64 itself ([F64]).
    The results on order, bounds and structure do not depend on the
    rounding.  Those that state the value of a computation, or that rest on
    a running sum growing with every addition (the termination of the
    selection loop), are results of exact arithmetic and say so: on
    binary64 a value is rounded at every step, and an addition can leave a
    sum unchanged.

    Mutation.  Arrays of records that the code updates in place
    ([nutrientTracking], [selectedIngredients], the remaining amounts during
    meal distribution) are lists threaded through the functions; an update of
    the record returned by [Array.prototype.find] is an update of the first
    matching element.

    Loops.  [for] loops over arrays are structural recursions.  The [while]
    loop of [selectOptimalIngredients] takes a number of iterations it may
    run ([fuel]) and returns [None] when it has not left the loop by then.

    Exceptions.  The only operation of the code that throws is
    [Array.prototype.reduce] on an empty array without initial value; the
    functions that reach it return a [result]. *)

From Stdlib Require Import QArith Qround Qabs ZArith List String Ascii Bool.
From Stdlib Require Import Lia Lqa DecimalString Permutation.
From Stdlib Require Floats.PrimFloat DecimalNat.
Import ListNotations.

Set Implicit Arguments.

(* ------------------------------------------------------------------ *)
(** ** JavaScript numbers *)

Module Num.

Inductive num : Type :=
| Fin (q : Q)
| PInf
| NInf
| NaN.

(** Finite results are kept in lowest terms, so that equal values are
    equal terms. *)
Definition fin (q : Q) : num := Fin (Qred q).

Definition neg (x : num) : num :=
  match x with
  | Fin a => fin (- a)
  | PInf => NInf
  | NInf => PInf
  | NaN => NaN
  end.

Definition add (x y : num) : num :=
  match x, y with
  | NaN, _ | _, NaN => NaN
  | Fin a, Fin b => fin (a + b)
  | PInf, NInf | NInf, PInf => NaN
  | PInf, _ | _, PInf => PInf
  | NInf, _ | _, NInf => NInf
  end.

Definition sub (x y : num) : num := add x (neg y).

(** The sign of [a] chooses between [pos], [neg] and (for zero) [zero]. *)
Definition by_sign (a : Q) (pos zero neg : num) : num :=
  match a ?= 0 with
  | Gt => pos
  | Eq => zero
  | Lt => neg
  end.

Definition mul (x y : num) : num :=
  match x, y with
  | NaN, _ | _, NaN => NaN
  | Fin a, Fin b => fin (a * b)
  | Fin a, PInf | PInf, Fin a => by_sign a PInf NaN NInf
  | Fin a, NInf | NInf, Fin a => by_sign a NInf NaN PInf
  | PInf, PInf | NInf, NInf => PInf
  | PInf, NInf | NInf, PInf => NInf
  end.

Definition div (x y : num) : num :=
  match x, y with
  | NaN, _ | _, NaN => NaN
  | Fin a, Fin b =>
      if Qeq_bool b 0 then by_sign a PInf NaN NInf else fin (a / b)
  | Fin _, PInf | Fin _, NInf => Fin 0
  | PInf, Fin b => by_sign b PInf PInf NInf
  | NInf, Fin b => by_sign b NInf NInf PInf
  | PInf, PInf | PInf, NInf | NInf, PInf | NInf, NInf => NaN
  end.

(** [x < y], [x <= y]: false as soon as one side is [NaN]. *)
Definition ltb (x y : num) : bool :=
  match x, y with
  | NaN, _ | _, NaN => false
  | Fin a, Fin b => negb (Qle_bool b a)
  | _, NInf => false
  | NInf, _ => true
  | PInf, _ => false
  | Fin _, PInf => true
  end.

Definition leb (x y : num) : bool :=
  match x, y with
  | NaN, _ | _, NaN => false
  | Fin a, Fin b => Qle_bool a b
  | NInf, _ => true
  | _, PInf => true
  | PInf, _ => false
  | Fin _, NInf => false
  end.

Definition gtb (x y : num) : bool := ltb y x.
Definition geb (x y : num) : bool := leb y x.

(** [x === y] on numbers. *)
Definition eqb (x y : num) : bool :=
  match x, y with
  | Fin a, Fin b => Qeq_bool a b
  | PInf, PInf | NInf, NInf => true
  | _, _ => false
  end.

Definition is_nan (x : num) : bool :=
  match x with NaN => true | _ => false end.

(** [Math.min(x, y)] and [Math.max(x, y)]: [NaN] as soon as one is. *)
Definition min (x y : num) : num :=
  if is_nan x || is_nan y then NaN else if ltb y x then y else x.

Definition max (x y : num) : num :=
  if is_nan x || is_nan y then NaN else if ltb x y then y else x.

(** [Math.round]: to the nearest integer, halves towards [+Infinity]. *)
Definition round (x : num) : num :=
  match x with
  | Fin a => Fin (inject_Z (Qfloor (a + (1 # 2))))
  | _ => x
  end.

Definition ceil (x : num) : num :=
  match x with
  | Fin a => Fin (inject_Z (Qceiling a))
  | _ => x
  end.

Definition abs (x : num) : num :=
  match x with
  | Fin a => fin (Qabs a)
  | PInf | NInf => PInf
  | NaN => NaN
  end.

(** [x || 0] on a number: [0] and [NaN] are falsy. *)
Definition or_zero (x : num) : num :=
  match x with
  | NaN => Fin 0
  | _ => x
  end.

(** The order on numbers as a proposition: [le x y] is [x <= y] being true. *)
Definition le (x y : num) : Prop := leb x y = true.
Definition lt (x y : num) : Prop := ltb x y = true.

End Num.

Import Num.

Declare Scope num_scope.
Delimit Scope num_scope with num.
Bind Scope num_scope with num.
Coercion Fin : Q >-> num.

Infix "+" := add : num_scope.
Infix "-" := sub : num_scope.
Infix "*" := mul : num_scope.
Infix "/" := div : num_scope.
Infix "<?" := ltb : num_scope.
Infix "<=?" := leb : num_scope.
Infix ">?" := gtb : num_scope.
Infix ">=?" := geb : num_scope.
Infix "===" := eqb (at level 70, no associativity) : num_scope.
Infix "<=" := le : num_scope.
Infix "<" := lt : num_scope.

Open Scope string_scope.
Open Scope list_scope.
Open Scope Q_scope.
Open Scope num_scope.

(* ------------------------------------------------------------------ *)
(** ** Strings *)

(** [hay.includes(needle)]. *)
Fixpoint includes (needle hay : string) : bool :=
  String.prefix needle hay ||
  match hay with
  | EmptyString => false
  | String _ rest => includes needle rest
  end.

Definition lower_ascii (c : ascii) : ascii :=
  let n := nat_of_ascii c in
  if (65 <=? n)%nat && (n <=? 90)%nat then ascii_of_nat (n + 32) else c.

(** [s.toLowerCase()], on the ASCII letters. *)
Fixpoint toLowerCase (s : string) : string :=
  match s with
  | EmptyString => EmptyString
  | String c rest => String (lower_ascii c) (toLowerCase rest)
  end.

(* ------------------------------------------------------------------ *)
(** ** The data model *)

Record Nutrient := mkNutrient {
  nutrient_name : string;
  nrv : num;
  unit : string
}.

Record IngredientNutrient := mkIngredientNutrient {
  in_amount : num;
  in_nutrient : Nutrient
}.

Record Macros := mkMacros {
  protein : num;
  carbs : num;
  fat : num
}.

Record Ingredient := mkIngredient {
  nutrients : list IngredientNutrient;
  macros : Macros;
  name : string
}.

Inductive Sex := Male | Female.

Inductive ActivityLevel := Sedentary | Light | Moderate | Very.

(** A [Date] is the number its [getTime()] returns. *)
Inductive Goal :=
| BuildMuscle
| LoseFat (targetBodyFatPercentage : num) (targetDate : num)
| Maintain.

Record TargetMacros := mkTargetMacros {
  proteinPercentage : num;
  carbsPercentage : num;
  fatPercentage : num
}.

Record Meal := mkMeal {
  meal_name : string;
  kcalPercentage : num
}.

Record DietMealIngredient := mkDietMealIngredient {
  dmi_ingredient : Ingredient;
  dmi_amount : num
}.

Record DietMeal := mkDietMeal {
  meal : Meal;
  ingredients : list DietMealIngredient
}.

Record Diet := mkDiet {
  meals : list DietMeal
}.

Record GetDietInput := mkGetDietInput {
  input_sex : Sex;
  input_age : num;
  input_bodyWeight : num;
  input_bodyFatPercentage : num;
  input_activityLevel : ActivityLevel;
  input_goal : Goal;
  input_targetMacros : TargetMacros;
  input_ingredients : list Ingredient;
  input_nutrients : list Nutrient;
  input_meals : list Meal
}.

Record NutrientTracking := mkNutrientTracking {
  nt_nutrient : Nutrient;
  consumed : num;
  percentage : num
}.

(** [MacroTracking] has the fields of [Macros]. *)
Definition MacroTracking := Macros.

Record IngredientSelection := mkSelection {
  sel_ingredient : Ingredient;
  sel_amount : num
}.

Definition isSupplement (i : Ingredient) : bool :=
  includes "Supplement" (name i).

(* ------------------------------------------------------------------ *)
(** ** Energy model *)

Definition activityMultipliers (a : ActivityLevel) : num :=
  match a with
  | Sedentary => 1.2
  | Light => 1.375
  | Moderate => 1.55
  | Very => 1.725
  end.

Definition leanBodyMass (bodyWeight bodyFatPercentage : num) : num :=
  bodyWeight * (1 - bodyFatPercentage / 100).

Definition bmr (bodyWeight bodyFatPercentage : num) : num :=
  370 + 21.6 * leanBodyMass bodyWeight bodyFatPercentage.

Definition calculateTDEE (sex : Sex) (age bodyWeight bodyFatPercentage : num)
    (activityLevel : ActivityLevel) : num :=
  bmr bodyWeight bodyFatPercentage * activityMultipliers activityLevel.

(** [now] is what [new Date().getTime()] returns when the function runs. *)
Definition adjustCaloriesForGoal (now : num) (tdee : num) (goal : Goal)
    (bodyWeight : num) : num :=
  match goal with
  | BuildMuscle => tdee * 1.15
  | LoseFat _ targetDate =>
      let daysToTarget := ceil ((targetDate - now) / (1000 * 60 * 60 * 24)) in
      let maxDeficit := tdee * 0.75 in
      let minIntake : num := if bodyWeight <? 70 then 1200 else 1500 in
      max (tdee * 0.8) minIntake
  | Maintain => tdee
  end.

Definition calculateTargetMacros (calories : num) (targetMacros : TargetMacros)
    : MacroTracking :=
  let proteinCalories := (calories * proteinPercentage targetMacros) / 100 in
  let carbsCalories := (calories * carbsPercentage targetMacros) / 100 in
  let fatCalories := (calories * fatPercentage targetMacros) / 100 in
  {| protein := proteinCalories / 4;
     carbs := carbsCalories / 4;
     fat := fatCalories / 9 |}.

(** The same formula on binary64 numbers. *)
Module F64.
Import Floats.PrimFloat.
Local Open Scope float_scope.

(* The literals below are the binary64 numbers nearest to the decimals of
   the source, as a JavaScript engine reads them. *)
#[local] Set Warnings "-inexact-float".

Definition activityMultipliers (a : ActivityLevel) : float :=
  match a with
  | Sedentary => 1.2
  | Light => 1.375
  | Moderate => 1.55
  | Very => 1.725
  end.

Definition leanBodyMass (bodyWeight bodyFatPercentage : float) : float :=
  bodyWeight * (1 - bodyFatPercentage / 100).

Definition bmr (bodyWeight bodyFatPercentage : float) : float :=
  370 + 21.6 * leanBodyMass bodyWeight bodyFatPercentage.

Definition calculateTDEE (sex : Sex) (age bodyWeight bodyFatPercentage : float)
    (activityLevel : ActivityLevel) : float :=
  bmr bodyWeight bodyFatPercentage * activityMultipliers activityLevel.

(** One running macro after [updateTracking]:
    [currentMacros.m += ingredient.macros.m * factor], with
    [factor = amount / 100]; and [calculateTotalCalories]. *)
Definition addMacro (current perHundred amount : float) : float :=
  current + perHundred * (amount / 100).

Definition calculateTotalCalories (protein0 carbs0 fat0 : float) : float :=
  protein0 * 4 + carbs0 * 4 + fat0 * 9.

(** The amount per 100 g that [loadDataFromJson] computes from a
    percentage of the NRV, and the percentage that [updateTracking] tracks
    after an amount of the ingredient, from a fresh entry. *)
Definition loadedAmount (percentage0 nrv0 : float) : float :=
  (percentage0 / 100) * nrv0.

Definition trackedPercentage (percentage0 nrv0 amount : float) : float :=
  let consumed0 := 0 + loadedAmount percentage0 nrv0 * (amount / 100) in
  (consumed0 / nrv0) * 100.
End F64.


(* ------------------------------------------------------------------ *)
(** ** Greedy selector *)

Definition calculateCaloriesFromMacros (m : Macros) : num :=
  protein m * 4 + carbs m * 4 + fat m * 9.

Definition calculateTotalCalories (m : MacroTracking) : num :=
  protein m * 4 + carbs m * 4 + fat m * 9.

Definition initializeNutrientTracking (nutrients : list Nutrient)
    : list NutrientTracking :=
  map (fun nutrient =>
         {| nt_nutrient := nutrient; consumed := 0; percentage := 0 |})
      nutrients.

Definition areAllNRVsMet (tracking : list NutrientTracking) : bool :=
  forallb (fun t => percentage t >=? 100) tracking.

(** The predicate of [nutrientTracking.find((t) => t.nutrient.name === n)]. *)
Definition tracks (n : string) (t : NutrientTracking) : bool :=
  String.eqb (nutrient_name (nt_nutrient t)) n.

Definition calculateMacroScore (ingredientMacros : Macros)
    (currentMacros targetMacros : MacroTracking) : num :=
  let currentTotal :=
    protein currentMacros + carbs currentMacros + fat currentMacros in
  let targetTotal :=
    protein targetMacros + carbs targetMacros + fat targetMacros in
  if currentTotal === 0 then 1 else
  let currentRatios :=
    {| protein := protein currentMacros / currentTotal;
       carbs := carbs currentMacros / currentTotal;
       fat := fat currentMacros / currentTotal |} in
  let targetRatios :=
    {| protein := protein targetMacros / targetTotal;
       carbs := carbs targetMacros / targetTotal;
       fat := fat targetMacros / targetTotal |} in
  let ingredientTotal :=
    protein ingredientMacros + carbs ingredientMacros + fat ingredientMacros in
  let ingredientRatios :=
    {| protein := protein ingredientMacros / ingredientTotal;
       carbs := carbs ingredientMacros / ingredientTotal;
       fat := fat ingredientMacros / ingredientTotal |} in
  let score : num := 0 in
  let score :=
    if (protein currentRatios <? protein targetRatios)
       && (protein ingredientRatios >? protein currentRatios)
    then score + (protein ingredientRatios - protein currentRatios) * 2
    else score in
  let score :=
    if (carbs currentRatios <? carbs targetRatios)
       && (carbs ingredientRatios >? carbs currentRatios)
    then score + (carbs ingredientRatios - carbs currentRatios) * 2
    else score in
  let score :=
    if (fat currentRatios <? fat targetRatios)
       && (fat ingredientRatios >? fat currentRatios)
    then score + (fat ingredientRatios - fat currentRatios) * 2
    else score in
  score.

Definition calculateIngredientScore (ingredient : Ingredient)
    (nutrientTracking : list NutrientTracking)
    (currentMacros targetMacros : MacroTracking) (remainingCalories : num)
    : num :=
  let caloriesPer100g := calculateCaloriesFromMacros (macros ingredient) in
  if caloriesPer100g >? remainingCalories then Fin (-1000) else
  let score :=
    fold_left
      (fun (score : num) ingredientNutrient =>
         match find (tracks (nutrient_name (in_nutrient ingredientNutrient)))
                    nutrientTracking with
         | Some tracking =>
             if percentage tracking <? 100 then
               let deficiency := 100 - percentage tracking in
               let nutrientDensity :=
                 in_amount ingredientNutrient / caloriesPer100g in
               score + nutrientDensity * deficiency * 10
             else score
         | None => score
         end)
      (nutrients ingredient) (Fin 0) in
  let macroScore :=
    calculateMacroScore (macros ingredient) currentMacros targetMacros in
  score + macroScore * 5.

(** The loop of [findBestIngredient]: the best ingredient so far and its
    score, [null] and [-Infinity] at the start. *)
Definition findBestIngredient (ingredients : list Ingredient)
    (nutrientTracking : list NutrientTracking)
    (currentMacros targetMacros : MacroTracking) (remainingCalories : num)
    : option (Ingredient * num) :=
  let '(bestIngredient, bestScore) :=
    fold_left
      (fun (best : option Ingredient * num) ingredient =>
         let score :=
           calculateIngredientScore ingredient nutrientTracking currentMacros
             targetMacros remainingCalories in
         if score >? snd best then (Some ingredient, score) else best)
      ingredients (None, NInf) in
  match bestIngredient with
  | Some i => Some (i, bestScore)
  | None => None
  end.

(** [Math.min(...limits)]; it is [Infinity] on no argument. *)
Definition min_list (limits : list num) : num :=
  fold_right Num.min PInf limits.

(** The block the function repeats for each macro:
    [if (m > 0) { const limit = ((target - current) / m) * 100;
                  if (limit > 0) limits.push(limit); }]. *)
Definition pushLimit (m target current : num) (limits : list num) : list num :=
  if m >? 0 then
    let limit := ((target - current) / m) * 100 in
    if limit >? 0 then limits ++ [limit] else limits
  else limits.

Definition calculateMacroLimitedAmount (ingredientMacros : Macros)
    (currentMacros targetMacros : MacroTracking) : num :=
  let limits : list num := [] in
  let limits :=
    pushLimit (protein ingredientMacros) (protein targetMacros)
      (protein currentMacros) limits in
  let limits :=
    pushLimit (carbs ingredientMacros) (carbs targetMacros)
      (carbs currentMacros) limits in
  let limits :=
    pushLimit (fat ingredientMacros) (fat targetMacros) (fat currentMacros)
      limits in
  if (0 <? List.length limits)%nat then min_list limits * 1.1 else 500.

Definition calculateOptimalAmount (ingredient : Ingredient)
    (nutrientTracking : list NutrientTracking)
    (currentMacros targetMacros : MacroTracking) (remainingCalories : num)
    : num :=
  let caloriesPer100g := calculateCaloriesFromMacros (macros ingredient) in
  let optimalAmount := (remainingCalories * 0.15) / (caloriesPer100g / 100) in
  let optimalAmount :=
    fold_left
      (fun (optimalAmount : num) ingredientNutrient =>
         match find (tracks (nutrient_name (in_nutrient ingredientNutrient)))
                    nutrientTracking with
         | Some tracking =>
             if percentage tracking <? 100 then
               let neededAmount :=
                 nrv (nt_nutrient tracking) - consumed tracking in
               let amountToMeetNeed :=
                 (neededAmount / in_amount ingredientNutrient) * 100 in
               Num.min optimalAmount (amountToMeetNeed * 1.2)
             else optimalAmount
         | None => optimalAmount
         end)
      (nutrients ingredient) optimalAmount in
  let macroLimitedAmount :=
    calculateMacroLimitedAmount (macros ingredient) currentMacros targetMacros in
  let optimalAmount := Num.min optimalAmount macroLimitedAmount in
  let maxAmount : num := if isSupplement ingredient then 10 else 500 in
  let minAmount : num := if isSupplement ingredient then 1 else 5 in
  Num.max minAmount (Num.min maxAmount (round optimalAmount)).

(** An update in place of the element [Array.prototype.find] returns: the
    first one that satisfies [p]. *)
Fixpoint update_first {A : Type} (p : A -> bool) (f : A -> A) (l : list A)
    : list A :=
  match l with
  | [] => []
  | x :: rest => if p x then f x :: rest else x :: update_first p f rest
  end.

Definition addConsumed (delta : num) (tracking : NutrientTracking)
    : NutrientTracking :=
  let consumed' := consumed tracking + delta in
  {| nt_nutrient := nt_nutrient tracking;
     consumed := consumed';
     percentage := (consumed' / nrv (nt_nutrient tracking)) * 100 |}.

(** [updateTracking] returns the two structures it mutates. *)
Definition updateTracking (ingredient : Ingredient) (amount : num)
    (nutrientTracking : list NutrientTracking) (macros0 : MacroTracking)
    : list NutrientTracking * MacroTracking :=
  let factor := amount / 100 in
  let nutrientTracking' :=
    fold_left
      (fun tr ingredientNutrient =>
         update_first
           (tracks (nutrient_name (in_nutrient ingredientNutrient)))
           (addConsumed (in_amount ingredientNutrient * factor)) tr)
      (nutrients ingredient) nutrientTracking in
  (nutrientTracking',
   {| protein := protein macros0 + protein (macros ingredient) * factor;
      carbs := carbs macros0 + carbs (macros ingredient) * factor;
      fat := fat macros0 + fat (macros ingredient) * factor |}).

(** The state of the selection loop: the four things it mutates. *)
Record SelectionState := mkSelectionState {
  st_selected : list IngredientSelection;
  st_tracking : list NutrientTracking;
  st_macros : MacroTracking;
  st_calories : num
}.

Definition namedLike (i : Ingredient) (s : IngredientSelection) : bool :=
  String.eqb (name (sel_ingredient s)) (name i).

(** [existing.amount += optimalAmount], or the push of a new selection. *)
Definition addSelection (selectedIngredients : list IngredientSelection)
    (ingredient : Ingredient) (optimalAmount : num)
    : list IngredientSelection :=
  match find (namedLike ingredient) selectedIngredients with
  | Some _ =>
      update_first (namedLike ingredient)
        (fun existing =>
           {| sel_ingredient := sel_ingredient existing;
              sel_amount := sel_amount existing + optimalAmount |})
        selectedIngredients
  | None =>
      selectedIngredients
        ++ [{| sel_ingredient := ingredient; sel_amount := optimalAmount |}]
  end.

Inductive step_result :=
| Done (s : SelectionState)       (* the loop is left *)
| Continue (s : SelectionState).  (* the condition is tested again *)

(** One test of the [while] condition, and one run of the body when it holds. *)
Definition selectionStep (ingredients : list Ingredient)
    (targetMacros : MacroTracking) (targetCalories : num) (s : SelectionState)
    : step_result :=
  if negb (areAllNRVsMet (st_tracking s))
     && (st_calories s <? targetCalories * 0.95)
  then
    match findBestIngredient ingredients (st_tracking s) (st_macros s)
            targetMacros (targetCalories - st_calories s) with
    | None => Done s
    | Some (bestIngredient, _) =>
        let optimalAmount :=
          calculateOptimalAmount bestIngredient (st_tracking s) (st_macros s)
            targetMacros (targetCalories - st_calories s) in
        if optimalAmount <=? 0 then Continue s else
        let selected' :=
          addSelection (st_selected s) bestIngredient optimalAmount in
        let '(tracking', macros') :=
          updateTracking bestIngredient optimalAmount (st_tracking s)
            (st_macros s) in
        Continue {| st_selected := selected';
                    st_tracking := tracking';
                    st_macros := macros';
                    st_calories := calculateTotalCalories macros' |}
    end
  else Done s.

(** The [while] loop, allowed [fuel] runs of its body. *)
Fixpoint selectionLoop (fuel : nat) (ingredients : list Ingredient)
    (targetMacros : MacroTracking) (targetCalories : num) (s : SelectionState)
    : option SelectionState :=
  match selectionStep ingredients targetMacros targetCalories s with
  | Done s' => Some s'
  | Continue s' =>
      match fuel with
      | O => None
      | S fuel' => selectionLoop fuel' ingredients targetMacros targetCalories s'
      end
  end.

(** *** Macro balancer *)

Definition scaleSelection (scaleFactor : num) (selection : IngredientSelection)
    : IngredientSelection :=
  if isSupplement (sel_ingredient selection) then
    let currentAmount := sel_amount selection in
    let maxSupplementAmount : num := 10 in
    {| sel_ingredient := sel_ingredient selection;
       sel_amount :=
         Num.min maxSupplementAmount
           (currentAmount * Num.min scaleFactor 1.5) |}
  else
    {| sel_ingredient := sel_ingredient selection;
       sel_amount := Num.min 500 (sel_amount selection * scaleFactor) |}.

(** The block the refinement repeats in its three branches: the amount
    raised by [factor], up to the limit of the ingredient. *)
Definition raised (selection : IngredientSelection) (factor : num)
    : IngredientSelection :=
  let ingredient := sel_ingredient selection in
  let newAmount := sel_amount selection * (1 + factor) in
  let maxAmount : num := if isSupplement ingredient then 10 else 500 in
  {| sel_ingredient := ingredient; sel_amount := Num.min maxAmount newAmount |}.

Definition adjustSelection (proteinDiff carbsDiff fatDiff : num)
    (selection : IngredientSelection) : IngredientSelection :=
  let ingredient := sel_ingredient selection in
  let factor : num := 0.05 in
  if (proteinDiff >? 5)
     && (protein (macros ingredient) >? carbs (macros ingredient))
     && (protein (macros ingredient) >? fat (macros ingredient))
  then raised selection factor
  else if (carbsDiff >? 5)
     && (carbs (macros ingredient) >? protein (macros ingredient))
     && (carbs (macros ingredient) >? fat (macros ingredient))
  then raised selection factor
  else if (fatDiff >? 5)
     && (fat (macros ingredient) >? protein (macros ingredient))
     && (fat (macros ingredient) >? carbs (macros ingredient))
  then raised selection factor
  else selection.

Definition recalculateMacros (selectedIngredients : list IngredientSelection)
    : MacroTracking :=
  fold_left
    (fun (currentMacros : MacroTracking) selection =>
       let factor := sel_amount selection / 100 in
       {| protein :=
            protein currentMacros
            + protein (macros (sel_ingredient selection)) * factor;
          carbs :=
            carbs currentMacros
            + carbs (macros (sel_ingredient selection)) * factor;
          fat :=
            fat currentMacros
            + fat (macros (sel_ingredient selection)) * factor |})
    selectedIngredients
    {| protein := 0; carbs := 0; fat := 0 |}.

(** What [optimizeMacroBalance] leaves in the two structures it mutates,
    and the number of refinement passes it ran. *)
Record Balanced := mkBalanced {
  balanced_selection : list IngredientSelection;
  balanced_macros : MacroTracking;
  passes : nat
}.

(** The loop [for (let i = 0; i < 10; i++)], with [passesLeft = 10 - i]. *)
Fixpoint refine (passesLeft : nat)
    (selectedIngredients : list IngredientSelection)
    (currentMacros targetMacros : MacroTracking) : Balanced :=
  match passesLeft with
  | O => {| balanced_selection := selectedIngredients;
            balanced_macros := currentMacros;
            passes := 0 |}
  | S passesLeft' =>
      let proteinDiff := protein targetMacros - protein currentMacros in
      let carbsDiff := carbs targetMacros - carbs currentMacros in
      let fatDiff := fat targetMacros - fat currentMacros in
      let selectedIngredients' :=
        map (adjustSelection proteinDiff carbsDiff fatDiff)
          selectedIngredients in
      let currentMacros' := recalculateMacros selectedIngredients' in
      if (abs proteinDiff <? 5) && (abs carbsDiff <? 5) && (abs fatDiff <? 5)
      then {| balanced_selection := selectedIngredients';
              balanced_macros := currentMacros';
              passes := 1 |}
      else
        let r :=
          refine passesLeft' selectedIngredients' currentMacros' targetMacros in
        {| balanced_selection := balanced_selection r;
           balanced_macros := balanced_macros r;
           passes := S (passes r) |}
  end.

Definition optimizeMacroBalance
    (selectedIngredients : list IngredientSelection)
    (currentMacros targetMacros : MacroTracking) (targetCalories : num)
    : Balanced :=
  let currentCalories := calculateTotalCalories currentMacros in
  let calorieDiff := targetCalories - currentCalories in
  if calorieDiff >? targetCalories * 0.05 then
    let scaleFactor := targetCalories / currentCalories in
    {| balanced_selection := map (scaleSelection scaleFactor) selectedIngredients;
       balanced_macros := currentMacros;
       passes := 0 |}
  else refine 10 selectedIngredients currentMacros targetMacros.

Definition initialState (nutrients : list Nutrient) : SelectionState :=
  {| st_selected := [];
     st_tracking := initializeNutrientTracking nutrients;
     st_macros := {| protein := 0; carbs := 0; fat := 0 |};
     st_calories := 0 |}.

Definition selectOptimalIngredients (fuel : nat) (ingredients : list Ingredient)
    (nutrients : list Nutrient) (targetMacros : MacroTracking)
    (targetCalories : num) : option (list IngredientSelection) :=
  match selectionLoop fuel ingredients targetMacros targetCalories
          (initialState nutrients) with
  | None => None
  | Some s =>
      Some (balanced_selection
              (optimizeMacroBalance (st_selected s) (st_macros s) targetMacros
                 targetCalories))
  end.

(* ------------------------------------------------------------------ *)
(** ** Meal distributor of the greedy pipeline *)

Inductive exn := TypeError.

Inductive result (A : Type) :=
| Ok (a : A)
| Throw (e : exn).

Arguments Ok {A} a.
Arguments Throw {A} e.

Definition breakfastLike (n : string) : bool :=
  includes "oat" n || includes "egg" n || includes "milk" n.

Definition dinnerLike (n : string) : bool :=
  includes "rice" n || includes "meat" n || includes "fish" n.

(** The comparator given to [Array.prototype.sort]. *)
Definition mealTimingCompare (a b : IngredientSelection) : Z :=
  let aName := toLowerCase (name (sel_ingredient a)) in
  let bName := toLowerCase (name (sel_ingredient b)) in
  if breakfastLike aName then (-1)%Z
  else if breakfastLike bName then 1%Z
  else if dinnerLike aName then 1%Z
  else if dinnerLike bName then (-1)%Z
  else 0%Z.

(** The comparator is not an order, so what [sort] returns depends on the
    engine.  This is a stable insertion sort; the distributor below takes
    the sort as an argument, and its properties are proved for every sort. *)
Fixpoint insertSorted (cmp : IngredientSelection -> IngredientSelection -> Z)
    (x : IngredientSelection) (sorted : list IngredientSelection)
    : list IngredientSelection :=
  match sorted with
  | [] => [x]
  | y :: rest =>
      if (cmp x y <? 0)%Z then x :: sorted
      else y :: insertSorted cmp x rest
  end.

Definition sortByMealTiming (l : list IngredientSelection)
    : list IngredientSelection :=
  fold_left (fun sorted x => insertSorted mealTimingCompare x sorted) l [].

(** The inner loop over the sorted selections, for one meal: the entries of
    the meal, and the selections with what is left of their amounts. *)
Fixpoint fillMeal (mealCalories : num) (sortedIngredients : list IngredientSelection)
    (currentMealCalories : num)
    : list DietMealIngredient * list IngredientSelection :=
  match sortedIngredients with
  | [] => ([], [])
  | selection :: rest =>
      if currentMealCalories >=? mealCalories * 0.95
      then ([], sortedIngredients)
      else
        let ingredientCaloriesPer100g :=
          calculateCaloriesFromMacros (macros (sel_ingredient selection)) in
        let totalIngredientCalories :=
          (sel_amount selection / 100) * ingredientCaloriesPer100g in
        let remainingMealCalories := mealCalories - currentMealCalories in
        let portionRatio :=
          Num.min 1 (remainingMealCalories / totalIngredientCalories) in
        if portionRatio >? 0.1 then
          let mealAmount := sel_amount selection * portionRatio in
          let mealAmount :=
            if isSupplement (sel_ingredient selection)
            then Num.min mealAmount 5 else mealAmount in
          let '(mealIngredients, rest') :=
            fillMeal mealCalories rest
              (currentMealCalories
               + (mealAmount / 100) * ingredientCaloriesPer100g) in
          ({| dmi_ingredient := sel_ingredient selection;
              dmi_amount := round mealAmount |} :: mealIngredients,
           {| sel_ingredient := sel_ingredient selection;
              sel_amount := sel_amount selection - mealAmount |} :: rest')
        else
          let '(mealIngredients, rest') :=
            fillMeal mealCalories rest currentMealCalories in
          (mealIngredients, selection :: rest')
  end.

(** The loop over the meals. *)
Fixpoint fillMeals (meals0 : list Meal) (targetCalories : num)
    (sortedIngredients : list IngredientSelection)
    : list DietMeal * list IngredientSelection :=
  match meals0 with
  | [] => ([], sortedIngredients)
  | meal0 :: rest =>
      let mealCalories := (targetCalories * kcalPercentage meal0) / 100 in
      let '(mealIngredients, sortedIngredients') :=
        fillMeal mealCalories sortedIngredients 0 in
      let '(dietMeals, sortedIngredients'') :=
        fillMeals rest targetCalories sortedIngredients' in
      ({| meal := meal0; ingredients := mealIngredients |} :: dietMeals,
       sortedIngredients'')
  end.

(** [meals.indexOf(meals.reduce((max, meal) => ...))]: the position of the
    element the reduction keeps.  [reduce] without initial value throws on
    an empty array. *)
Definition largestMealIndex (meals0 : list Meal) : result nat :=
  match meals0 with
  | [] => Throw TypeError
  | first :: rest =>
      let '(maxIndex, _, _) :=
        fold_left
          (fun '(maxIndex, max, index) meal0 =>
             if kcalPercentage meal0 >? kcalPercentage max
             then (index, meal0, S index)
             else (maxIndex, max, S index))
          rest (O, first, 1%nat) in
      Ok maxIndex
  end.

(** The entries the last loop pushes to the largest meal. *)
Definition leftovers (sortedIngredients : list IngredientSelection)
    : list DietMealIngredient :=
  flat_map
    (fun selection =>
       let isSupp := isSupplement (sel_ingredient selection) in
       let minAmount : num := if isSupp then 1 else 5 in
       if sel_amount selection >? minAmount then
         let maxPerMeal : num := if isSupp then 5 else sel_amount selection in
         let amountToAdd := Num.min (sel_amount selection) maxPerMeal in
         [{| dmi_ingredient := sel_ingredient selection;
             dmi_amount := round amountToAdd |}]
       else [])
    sortedIngredients.

(** [dietMeals[index].ingredients.push(...items)]. *)
Fixpoint pushToMeal (index : nat) (items : list DietMealIngredient)
    (dietMeals : list DietMeal) : list DietMeal :=
  match dietMeals, index with
  | [], _ => []
  | dm :: rest, O =>
      {| meal := meal dm; ingredients := ingredients dm ++ items |} :: rest
  | dm :: rest, S index' => dm :: pushToMeal index' items rest
  end.

Definition distributeToMealsWith
    (sort : list IngredientSelection -> list IngredientSelection)
    (selectedIngredients : list IngredientSelection) (meals0 : list Meal)
    (targetCalories : num) : result Diet :=
  let sortedIngredients := sort selectedIngredients in
  let '(dietMeals, sortedIngredients') :=
    fillMeals meals0 targetCalories sortedIngredients in
  match largestMealIndex meals0 with
  | Throw e => Throw e
  | Ok largestMealIndex0 =>
      Ok {| meals :=
              pushToMeal largestMealIndex0 (leftovers sortedIngredients')
                dietMeals |}
  end.

Definition distributeToMeals := distributeToMealsWith sortByMealTiming.

(** [getDiet] of [dietOptimizer.ts]; [None] when the selection loop has not
    ended within [fuel] iterations. *)
Definition getDiet (fuel : nat) (now : num) (input : GetDietInput)
    : option (result Diet) :=
  let tdee :=
    calculateTDEE (input_sex input) (input_age input) (input_bodyWeight input)
      (input_bodyFatPercentage input) (input_activityLevel input) in
  let targetCalories :=
    adjustCaloriesForGoal now tdee (input_goal input) (input_bodyWeight input) in
  let targetMacrosInGrams :=
    calculateTargetMacros targetCalories (input_targetMacros input) in
  match selectOptimalIngredients fuel (input_ingredients input)
          (input_nutrients input) targetMacrosInGrams targetCalories with
  | None => None
  | Some selectedIngredients =>
      Some (distributeToMeals selectedIngredients (input_meals input)
              targetCalories)
  end.

(* ------------------------------------------------------------------ *)
(** ** LP selector ([dietOptimizerLPSimple.ts]) *)

Module LP.

(** A JavaScript object used as a map: its keys in insertion order. *)
Definition obj (V : Type) := list (string * V).

Fixpoint setKey {V : Type} (k : string) (v : V) (o : obj V) : obj V :=
  match o with
  | [] => [(k, v)]
  | (k', v') :: rest =>
      if String.eqb k' k then (k, v) :: rest else (k', v') :: setKey k v rest
  end.

Fixpoint getKey {V : Type} (k : string) (o : obj V) : option V :=
  match o with
  | [] => None
  | (k', v') :: rest => if String.eqb k' k then Some v' else getKey k rest
  end.

Record Bound := mkBound {
  bound_min : option num;
  bound_max : option num
}.

Record Model := mkModel {
  optimize : string;
  opType : string;
  constraints : obj Bound;
  variables : obj (obj num)
}.

(** What [solver.Solve] returns: the flag, and a value per variable name
    (a variable may be absent). *)
Record Solution := mkSolution {
  feasible : bool;
  values : obj num
}.

Definition criticalNutrients : list string :=
  ["Vitamin D"; "Vitamin B12"; "Iron"; "Calcium"; "Omega-3 fatty acids"].

Definition isCritical (n : string) : bool :=
  existsb (String.eqb n) criticalNutrients.

Definition isAlnum (c : ascii) : bool :=
  let n := nat_of_ascii c in
  ((48 <=? n) && (n <=? 57) || (65 <=? n) && (n <=? 90)
   || (97 <=? n) && (n <=? 122))%nat.

(** [s.replace(/[^a-zA-Z0-9]/g, "_")]. *)
Fixpoint safeName (s : string) : string :=
  match s with
  | EmptyString => EmptyString
  | String c rest => String (if isAlnum c then c else "_"%char) (safeName rest)
  end.

(** [`x${index}`]. *)
Definition varName (index : nat) : string :=
  "x" ++ NilEmpty.string_of_uint (Nat.to_uint index).

(** The elements of an array with their indices. *)
Definition indexed {A : Type} (l : list A) : list (nat * A) :=
  combine (seq 0 (List.length l)) l.

Definition variableOf (ingredient : Ingredient) : obj num :=
  let variable : obj num := [] in
  let isSupp := isSupplement ingredient in
  let variable :=
    setKey "totalCost" (if isSupp then Fin 5 else Fin 1) variable in
  let caloriesPer100g :=
    protein (macros ingredient) * 4 + carbs (macros ingredient) * 4
    + fat (macros ingredient) * 9 in
  let variable := setKey "calories" (caloriesPer100g / 100) variable in
  let variable := setKey "protein" (protein (macros ingredient) / 100) variable in
  let variable := setKey "carbs" (carbs (macros ingredient) / 100) variable in
  let variable := setKey "fat" (fat (macros ingredient) / 100) variable in
  fold_left
    (fun variable nutrientInfo =>
       if isCritical (nutrient_name (in_nutrient nutrientInfo)) then
         setKey ("n_" ++ safeName (nutrient_name (in_nutrient nutrientInfo)))
           (in_amount nutrientInfo / 100) variable
       else variable)
    (nutrients ingredient) variable.

Definition buildModel (input : GetDietInput) (targetCalories : num)
    (targetMacrosInGrams : MacroTracking) : Model :=
  let cs : obj Bound := [] in
  let cs :=
    setKey "calories"
      {| bound_min := Some (targetCalories * 0.9);
         bound_max := Some (targetCalories * 1.1) |} cs in
  let cs :=
    setKey "protein"
      {| bound_min := Some (protein targetMacrosInGrams * 0.7);
         bound_max := None |} cs in
  let cs :=
    setKey "carbs"
      {| bound_min := Some (carbs targetMacrosInGrams * 0.7);
         bound_max := None |} cs in
  let cs :=
    setKey "fat"
      {| bound_min := Some (fat targetMacrosInGrams * 0.7);
         bound_max := None |} cs in
  let cs :=
    fold_left
      (fun cs nutrient =>
         if isCritical (nutrient_name nutrient) then
           setKey ("n_" ++ safeName (nutrient_name nutrient))
             {| bound_min := Some (nrv nutrient * 0.5); bound_max := None |}
             cs
         else cs)
      (input_nutrients input) cs in
  let '(cs, vs) :=
    fold_left
      (fun '(cs, vs) '(index, ingredient) =>
         let maxAmount : num :=
           if isSupplement ingredient then 10 else 300 in
         (setKey (varName index)
            {| bound_min := None; bound_max := Some maxAmount |} cs,
          setKey (varName index) (variableOf ingredient) vs))
      (indexed (input_ingredients input)) (cs, []) in
  {| optimize := "totalCost"; opType := "min";
     constraints := cs; variables := vs |}.

(** The conversion of the solution into a selection. *)
Definition selectionOf (solution : Solution) (ingredients0 : list Ingredient)
    : list IngredientSelection :=
  if feasible solution then
    flat_map
      (fun '(index, ingredient) =>
         let amount :=
           match getKey (varName index) (values solution) with
           | Some v => or_zero v
           | None => Fin 0
           end in
         if amount >? 1 then
           [{| sel_ingredient := ingredient; sel_amount := round amount |}]
         else [])
      (indexed ingredients0)
  else [].

(** [adjustCaloriesForGoal] of this file does not read the clock. *)
Definition adjustCaloriesForGoal (tdee : num) (goal : Goal) (bodyWeight : num)
    : num :=
  match goal with
  | BuildMuscle => tdee * 1.15
  | LoseFat _ _ =>
      let minIntake : num := if bodyWeight <? 70 then 1200 else 1500 in
      Num.max (tdee * 0.8) minIntake
  | Maintain => tdee
  end.

(** The body of the inner [forEach]: what it pushes for [sel] in [meal0]. *)
Definition mealEntry (meal0 : Meal) (sel : IngredientSelection)
    : list DietMealIngredient :=
  let mealProportion := kcalPercentage meal0 / 100 in
  let amount := sel_amount sel * mealProportion in
  let amount :=
    if isSupplement (sel_ingredient sel) then
      if String.eqb (meal_name meal0) "Breakfast"
      then sel_amount sel else Fin 0
    else amount in
  if amount >=? 1 then
    [{| dmi_ingredient := sel_ingredient sel; dmi_amount := round amount |}]
  else [].

Definition distributeToMeals (selectedIngredients : list IngredientSelection)
    (meals0 : list Meal) (targetCalories : num) : Diet :=
  let totalCalories :=
    fold_left
      (fun (totalCalories : num) sel =>
         let cal :=
           ((protein (macros (sel_ingredient sel)) * 4
             + carbs (macros (sel_ingredient sel)) * 4
             + fat (macros (sel_ingredient sel)) * 9)
            * sel_amount sel) / 100 in
         totalCalories + cal)
      selectedIngredients (Fin 0) in
  {| meals :=
       map
         (fun meal0 =>
            {| meal := meal0;
               ingredients := flat_map (mealEntry meal0) selectedIngredients |})
         meals0 |}.

(** [l.filter(p)[0]], pushed at [amount] when there is one. *)
Definition pushFirst (p : Ingredient -> bool) (amount : num)
    (ingredients0 : list Ingredient) (selections : list IngredientSelection)
    : list IngredientSelection :=
  match filter p ingredients0 with
  | first :: _ =>
      selections ++ [{| sel_ingredient := first; sel_amount := amount |}]
  | [] => selections
  end.

Definition fallbackSelections (ingredients0 : list Ingredient)
    : list IngredientSelection :=
  let selections : list IngredientSelection := [] in
  let selections :=
    pushFirst
      (fun i => (protein (macros i) >? 20) && negb (includes "Supplement" (name i)))
      200 ingredients0 selections in
  let selections :=
    pushFirst
      (fun i => (carbs (macros i) >? 20) && negb (includes "Supplement" (name i)))
      150 ingredients0 selections in
  let selections :=
    pushFirst
      (fun i =>
         includes "spinach" (toLowerCase (name i))
         || includes "broccoli" (toLowerCase (name i))
         || includes "kale" (toLowerCase (name i)))
      200 ingredients0 selections in
  let selections :=
    pushFirst
      (fun i => (fat (macros i) >? 40) && negb (includes "Supplement" (name i)))
      30 ingredients0 selections in
  match find (fun i => includes "Multivitamin" (name i)) ingredients0 with
  | Some multivitamin =>
      selections ++ [{| sel_ingredient := multivitamin; sel_amount := 2 |}]
  | None => selections
  end.

Definition createFallbackDiet (input : GetDietInput) : Diet :=
  let selections := fallbackSelections (input_ingredients input) in
  let tdee :=
    calculateTDEE (input_sex input) (input_age input)
      (input_bodyWeight input) (input_bodyFatPercentage input)
      (input_activityLevel input) in
  let targetCalories :=
    adjustCaloriesForGoal tdee (input_goal input) (input_bodyWeight input) in
  distributeToMeals selections (input_meals input) targetCalories.

(** [getDiet], for a solving routine [Solve]. *)
Definition getDiet (Solve : Model -> Solution) (input : GetDietInput) : Diet :=
  let tdee :=
    calculateTDEE (input_sex input) (input_age input)
      (input_bodyWeight input) (input_bodyFatPercentage input)
      (input_activityLevel input) in
  let targetCalories :=
    adjustCaloriesForGoal tdee (input_goal input) (input_bodyWeight input) in
  let targetMacrosInGrams :=
    calculateTargetMacros targetCalories (input_targetMacros input) in
  let model := buildModel input targetCalories targetMacrosInGrams in
  let solution := Solve model in
  let selectedIngredients :=
    selectionOf solution (input_ingredients input) in
  if (List.length selectedIngredients <? 5)%nat
  then createFallbackDiet input
  else distributeToMeals selectedIngredients (input_meals input) targetCalories.

End LP.

(* ------------------------------------------------------------------ *)
(** ** Scenarios: catalogs and inputs on which the code is evaluated *)

Module Scenario.

Definition vitaminC : Nutrient :=
  {| nutrient_name := "Vitamin C"; nrv := 80; unit := "mg" |}.

Definition vitaminD : Nutrient :=
  {| nutrient_name := "Vitamin D"; nrv := 5; unit := "ug" |}.

Definition chicken : Ingredient :=
  {| nutrients := [];
     macros := {| protein := 31; carbs := 0; fat := 3.6 |};
     name := "Chicken Breast (cooked)" |}.

Definition oats : Ingredient :=
  {| nutrients := [];
     macros := {| protein := 13; carbs := 68; fat := 6.5 |};
     name := "Oats" |}.

Definition spinach : Ingredient :=
  {| nutrients := [{| in_amount := 28; in_nutrient := vitaminC |}];
     macros := {| protein := 2.9; carbs := 3.6; fat := 0.4 |};
     name := "Spinach (raw)" |}.

Definition almonds : Ingredient :=
  {| nutrients := [];
     macros := {| protein := 21; carbs := 22; fat := 49 |};
     name := "Almonds" |}.

Definition multivitamin : Ingredient :=
  {| nutrients := [{| in_amount := 40; in_nutrient := vitaminC |};
                   {| in_amount := 2.5; in_nutrient := vitaminD |}];
     macros := {| protein := 0; carbs := 0.5; fat := 0 |};
     name := "Multivitamin Supplement" |}.

(** An ingredient without calories and without nutrients. *)
Definition water : Ingredient :=
  {| nutrients := [];
     macros := {| protein := 0; carbs := 0; fat := 0 |};
     name := "Water" |}.

(** A supplement made of fat only. *)
Definition oil : Ingredient :=
  {| nutrients := [];
     macros := {| protein := 0; carbs := 0; fat := 100 |};
     name := "MCT Oil Supplement" |}.

(** A supplement named after a vegetable. *)
Definition kalePowder : Ingredient :=
  {| nutrients := [{| in_amount := 90; in_nutrient := vitaminC |}];
     macros := {| protein := 30; carbs := 40; fat := 5 |};
     name := "Kale Powder Supplement" |}.

Definition threeMeals : list Meal :=
  [{| meal_name := "Breakfast"; kcalPercentage := 30 |};
   {| meal_name := "Lunch"; kcalPercentage := 40 |};
   {| meal_name := "Dinner"; kcalPercentage := 30 |}].

(** The person of scenario 1, who maintains weight on 30/45/25 macros. *)
Definition person (ingredients0 : list Ingredient)
    (nutrients0 : list Nutrient) (meals0 : list Meal) : GetDietInput :=
  {| input_sex := Male;
     input_age := 30;
     input_bodyWeight := 75;
     input_bodyFatPercentage := 15;
     input_activityLevel := Moderate;
     input_goal := Maintain;
     input_targetMacros :=
       {| proteinPercentage := 30; carbsPercentage := 45;
          fatPercentage := 25 |};
     input_ingredients := ingredients0;
     input_nutrients := nutrients0;
     input_meals := meals0 |}.

(** Target calories and macro grams of that person: 2707.85 kcal. *)
Definition targetCalories : num :=
  adjustCaloriesForGoal 0 (calculateTDEE Male 30 75 15 Moderate) Maintain 75.

Definition targetMacros : MacroTracking :=
  calculateTargetMacros targetCalories
    {| proteinPercentage := 30; carbsPercentage := 45; fatPercentage := 25 |}.

End Scenario.

(* ------------------------------------------------------------------ *)
(** ** Vocabulary of the properties *)

(** The entries of a meal that are supplements. *)
Definition supplementEntries (dm : DietMeal) : list DietMealIngredient :=
  filter (fun e => isSupplement (dmi_ingredient e)) (ingredients dm).

(** An amount as the LP selector hands it to its distributor: a rounded
    number, at least 1. *)
Definition wholeGrams (s : IngredientSelection) : Prop :=
  (sel_amount s >=? 1) = true /\ round (sel_amount s) = sel_amount s.

Definition entryOf (s : IngredientSelection) : DietMealIngredient :=
  {| dmi_ingredient := sel_ingredient s; dmi_amount := sel_amount s |}.

(** Finite numbers of a given sign, as a validated catalog holds them. *)
Definition nonNegative (x : num) : Prop :=
  exists q, x = Fin q /\ (0 <= q)%Q.

Definition positive (x : num) : Prop :=
  exists q, x = Fin q /\ (0 < q)%Q.

Definition validNutrient (n : Nutrient) : Prop := positive (nrv n).

(** A call [updateTracking(ingredient, amount, ...)] of the selection loop. *)
Definition validCall (c : Ingredient * num) : Prop :=
  nonNegative (snd c)
  /\ Forall (fun n => nonNegative (in_amount n)) (nutrients (fst c)).

(** The tracking after the calls of [updateTracking] of some iterations,
    from the initial tracking. *)
Definition trackingAfter (nutrients0 : list Nutrient)
    (calls : list (Ingredient * num)) : list NutrientTracking :=
  fold_left
    (fun tracking c =>
       fst (updateTracking (fst c) (snd c) tracking
              {| protein := 0; carbs := 0; fat := 0 |}))
    calls (initializeNutrientTracking nutrients0).

(** The entry [after] is the entry [before] of the same nutrient, with
    consumed value and percentage not below those of [before]. *)
Definition notReduced (before after : NutrientTracking) : Prop :=
  nt_nutrient after = nt_nutrient before
  /\ consumed before <= consumed after
  /\ percentage before <= percentage after.

(** The invariant of a tracking entry: finite values, and the percentage is
    [consumed / nrv * 100]. *)
Definition consistent (t : NutrientTracking) : Prop :=
  exists c n p,
    consumed t = Fin c /\ nrv (nt_nutrient t) = Fin n /\ percentage t = Fin p
    /\ (0 < n)%Q /\ (p == c / n * 100)%Q.







(** The states the selection loop goes through, from the initial one. *)
Inductive reachable (ingredients0 : list Ingredient)
    (nutrients0 : list Nutrient) (targetMacros : MacroTracking)
    (targetCalories : num) : SelectionState -> Prop :=
| reachable_initial :
    reachable ingredients0 nutrients0 targetMacros targetCalories
      (initialState nutrients0)
| reachable_step :
    forall s s',
      reachable ingredients0 nutrients0 targetMacros targetCalories s ->
      selectionStep ingredients0 targetMacros targetCalories s = Continue s' ->
      reachable ingredients0 nutrients0 targetMacros targetCalories s'.

(** An ingredient with finite non-negative macros and some calories. *)
Definition caloric (i : Ingredient) : Prop :=
  nonNegative (protein (macros i)) /\ nonNegative (carbs (macros i))
  /\ nonNegative (fat (macros i))
  /\ positive (calculateCaloriesFromMacros (macros i)).

(** The calories of finite macros, and a finite macro after [a] grams of an
    ingredient that holds [m] of it per 100 g, as the code computes them. *)
Definition totalQ (p c f : Q) : Q :=
  Qred (Qred (Qred (p * 4) + Qred (c * 4)) + Qred (f * 9)).

Definition bumpQ (x m a : Q) : Q :=
  Qred (x + Qred (m * Qred (a / 100))).

(** The invariant of the selection loop on its running calories: finite
    macros, and the calories are those of the macros. *)
Definition accounted (s : SelectionState) : Prop :=
  exists p c f,
    st_macros s = {| protein := Fin p; carbs := Fin c; fat := Fin f |}
    /\ st_calories s = Fin (totalQ p c f).

(** An ingredient of a validated catalog: finite non-negative macros and
    nutrient amounts. *)
Definition validIngredient (i : Ingredient) : Prop :=
  nonNegative (protein (macros i)) /\ nonNegative (carbs (macros i))
  /\ nonNegative (fat (macros i))
  /\ Forall (fun n => nonNegative (in_amount n)) (nutrients i).

(** The invariant of the selection loop on a validated catalog: consistent
    tracking, finite non-negative macros, and their calories. *)
Definition sound (s : SelectionState) : Prop :=
  Forall consistent (st_tracking s)
  /\ exists p c f,
       st_macros s = {| protein := Fin p; carbs := Fin c; fat := Fin f |}
       /\ (0 <= p)%Q /\ (0 <= c)%Q /\ (0 <= f)%Q
       /\ st_calories s = Fin (totalQ p c f).

(** The fallback diet in the words of the design document: the first catalog
    match of each rule, at the amount of the rule, when there is a match. *)
Module FallbackSpec.

Definition firstMatch (p : Ingredient -> bool) (amount : num)
    (catalog : list Ingredient) : list IngredientSelection :=
  match find p catalog with
  | Some i => [{| sel_ingredient := i; sel_amount := amount |}]
  | None => []
  end.

Definition nonSupplement (i : Ingredient) : bool :=
  negb (includes "Supplement" (name i)).

(** Named after one of [words], whatever the case of its letters. *)
Definition namedAfter (words : list string) (i : Ingredient) : bool :=
  existsb (fun w => includes w (toLowerCase (name i))) words.

Definition selections (catalog : list Ingredient) : list IngredientSelection :=
  firstMatch (fun i => nonSupplement i && (protein (macros i) >? 20)) 200 catalog
  ++ firstMatch (fun i => nonSupplement i && (carbs (macros i) >? 20)) 150 catalog
  ++ firstMatch (namedAfter ["spinach"; "broccoli"; "kale"]) 200 catalog
  ++ firstMatch (fun i => nonSupplement i && (fat (macros i) >? 40)) 30 catalog
  ++ firstMatch (fun i => includes "Multivitamin" (name i)) 2 catalog.

End FallbackSpec.

(** A solving routine that finds every model infeasible. *)
Definition infeasible (_ : LP.Model) : LP.Solution :=
  {| LP.feasible := false; LP.values := [] |}.

(* ------------------------------------------------------------------ *)
(** ** The data loader ([loadData.ts]) *)

Module Loader.

(** An ingredient of the JSON file.  [nutrientsPercentages] is the object
    as [Object.entries] lists it: a name and a percentage of the NRV per
    100 g. *)
Record JsonIngredient := mkJsonIngredient {
  json_name : string;
  json_macros : Macros;
  nutrientsPercentages : LP.obj num
}.

Record JsonData := mkJsonData {
  json_nutrients : list Nutrient;
  json_ingredients : list JsonIngredient;
  json_meals : list Meal
}.

Record Data := mkData {
  data_nutrients : list Nutrient;
  data_ingredients : list Ingredient;
  data_meals : list Meal
}.

(** [nutrientMap]: a [Map] filled with [set], nutrient after nutrient. *)
Definition nutrientMapOf (nutrients0 : list Nutrient) : LP.obj Nutrient :=
  fold_left
    (fun nutrientMap nutrient =>
       LP.setKey (nutrient_name nutrient) nutrient nutrientMap)
    nutrients0 [].

Definition transformIngredient (nutrientMap : LP.obj Nutrient)
    (jsonIngredient : JsonIngredient) : Ingredient :=
  {| nutrients :=
       flat_map
         (fun '(nutrientName, percentage) =>
            match LP.getKey nutrientName nutrientMap with
            | Some nutrient =>
                [{| in_amount := (percentage / 100) * nrv nutrient;
                    in_nutrient := nutrient |}]
            | None => []
            end)
         (nutrientsPercentages jsonIngredient);
     macros := json_macros jsonIngredient;
     name := json_name jsonIngredient |}.

(** [loadDataFromJson], from the parsed content of the file on. *)
Definition loadDataFromJson (data : JsonData) : Data :=
  let nutrients0 := json_nutrients data in
  let nutrientMap := nutrientMapOf nutrients0 in
  {| data_nutrients := nutrients0;
     data_ingredients :=
       map (transformIngredient nutrientMap) (json_ingredients data);
     data_meals := json_meals data |}.

(** One element of a supplement's nutrient array, after
    [.filter((n) => n.nutrient)]: the first nutrient of that name, and
    nothing when [find] finds none. *)
Definition listed (nutrients0 : list Nutrient) (nm : string) (amount : num)
    : list IngredientNutrient :=
  match find (fun n => String.eqb (nutrient_name n) nm) nutrients0 with
  | Some nutrient => [{| in_amount := amount; in_nutrient := nutrient |}]
  | None => []
  end.

Definition createSupplementIngredients (nutrients0 : list Nutrient)
    : list Ingredient :=
  let multivitamin :=
    {| nutrients :=
         listed nutrients0 "Vitamin A" 400
         ++ listed nutrients0 "Vitamin C" 40
         ++ listed nutrients0 "Vitamin D" 2.5
         ++ listed nutrients0 "Vitamin E" 6
         ++ listed nutrients0 "Thiamine (B1)" 0.55
         ++ listed nutrients0 "Riboflavin (B2)" 0.7
         ++ listed nutrients0 "Niacin (B3)" 8
         ++ listed nutrients0 "Vitamin B6" 0.7
         ++ listed nutrients0 "Folate" 100
         ++ listed nutrients0 "Vitamin B12" 1.25
         ++ listed nutrients0 "Zinc" 5
         ++ listed nutrients0 "Iodine" 75;
       macros := {| protein := 0; carbs := 0.5; fat := 0 |};
       name := "Multivitamin Supplement" |} in
  let omega3 :=
    {| nutrients := listed nutrients0 "Omega-3 fatty acids" 300;
       macros := {| protein := 0; carbs := 0; fat := 1 |};
       name := "Omega-3 Supplement (Fish Oil)" |} in
  let vitaminD :=
    {| nutrients := listed nutrients0 "Vitamin D" 25;
       macros := {| protein := 0; carbs := 0.1; fat := 0 |};
       name := "Vitamin D3 Supplement" |} in
  filter (fun s => (0 <? List.length (nutrients s))%nat)
    [multivitamin; omega3; vitaminD].

End Loader.

(* ------------------------------------------------------------------ *)
(** ** The statistics of a diet ([test-diet-optimizer.ts],
    [compare-optimizers.ts]) *)

Module Stats.

Record TotalMacros := mkTotalMacros {
  total_protein : num;
  total_carbs : num;
  total_fat : num;
  total_calories : num;
  proteinPercentage : num;
  carbsPercentage : num;
  fatPercentage : num
}.

Definition calculateTotalMacros (diet : Diet) : TotalMacros :=
  let '(totalProtein, totalCarbs, totalFat) :=
    fold_left
      (fun totals meal0 =>
         fold_left
           (fun '(totalProtein, totalCarbs, totalFat) item =>
              let factor := dmi_amount item / 100 in
              (totalProtein + protein (macros (dmi_ingredient item)) * factor,
               totalCarbs + carbs (macros (dmi_ingredient item)) * factor,
               totalFat + fat (macros (dmi_ingredient item)) * factor))
           (ingredients meal0) totals)
      (meals diet) (Fin 0, Fin 0, Fin 0) in
  let totalCalories := totalProtein * 4 + totalCarbs * 4 + totalFat * 9 in
  {| total_protein := totalProtein;
     total_carbs := totalCarbs;
     total_fat := totalFat;
     total_calories := totalCalories;
     proteinPercentage := ((totalProtein * 4) / totalCalories) * 100;
     carbsPercentage := ((totalCarbs * 4) / totalCalories) * 100;
     fatPercentage := ((totalFat * 9) / totalCalories) * 100 |}.

(** [nutrientTotals.get(name) || 0]. *)
Definition current (nm : string) (nutrientTotals : LP.obj num) : num :=
  match LP.getKey nm nutrientTotals with
  | Some v => or_zero v
  | None => 0
  end.

Definition calculateNutrientTotals (diet : Diet) : LP.obj num :=
  fold_left
    (fun nutrientTotals meal0 =>
       fold_left
         (fun nutrientTotals item =>
            let factor := dmi_amount item / 100 in
            fold_left
              (fun nutrientTotals nutrientInfo =>
                 let nm := nutrient_name (in_nutrient nutrientInfo) in
                 LP.setKey nm
                   (current nm nutrientTotals
                    + in_amount nutrientInfo * factor)
                   nutrientTotals)
              (nutrients (dmi_ingredient item)) nutrientTotals)
         (ingredients meal0) nutrientTotals)
    (meals diet) [].

End Stats.

(* ------------------------------------------------------------------ *)
(** ** Vocabulary of the further properties *)

(** The entries of a diet, meal after meal. *)
Definition items (diet : Diet) : list DietMealIngredient :=
  flat_map ingredients (meals diet).

(** An entry with finite non-negative macros and amount. *)
Definition validItem (item : DietMealIngredient) : Prop :=
  nonNegative (dmi_amount item)
  /\ nonNegative (protein (macros (dmi_ingredient item)))
  /\ nonNegative (carbs (macros (dmi_ingredient item)))
  /\ nonNegative (fat (macros (dmi_ingredient item))).

(** The practical limit on the amount of an ingredient: 10 g for a
    supplement, 500 g for a food. *)
Definition capOf (i : Ingredient) : num :=
  if isSupplement i then 10 else 500.

Definition withinCap (s : IngredientSelection) : Prop :=
  sel_amount s <= capOf (sel_ingredient s).

Definition positiveAmount (s : IngredientSelection) : Prop :=
  positive (sel_amount s).

(** Every entry of the diet holds an ingredient of [catalog]. *)
Definition servesOnly (catalog : list Ingredient) (diet : Diet) : Prop :=
  Forall
    (fun dm => Forall (fun e => In (dmi_ingredient e) catalog) (ingredients dm))
    (meals diet).

(* ================================================================== *)
(** * Properties *)

Import (notations) Floats.PrimFloat.
Set Warnings "-inexact-float".

(** ** Evaluations *)

Example isSupplement_by_name :
  isSupplement Scenario.multivitamin = true
  /\ isSupplement Scenario.chicken = false.
Proof. split; reflexivity. Qed.

(** Scenarios 2 to 4 of the design document. *)
Example maintain_keeps_tdee (now tdee bodyWeight : num) :
  adjustCaloriesForGoal now tdee Maintain bodyWeight = tdee.
Proof. reflexivity. Qed.

Example build_muscle_scales_tdee (now tdee bodyWeight : num) :
  adjustCaloriesForGoal now tdee BuildMuscle bodyWeight = tdee * 1.15.
Proof. reflexivity. Qed.

Example target_macros_at_2000 :
  calculateTargetMacros 2000
    {| proteinPercentage := 30; carbsPercentage := 45; fatPercentage := 25 |}
  = {| protein := 150; carbs := 225; fat := Fin (500 # 9) |}.
Proof. reflexivity. Qed.

Example division_by_zero :
  Fin 1 / 0 = PInf /\ Fin (-1) / 0 = NInf /\ Fin 0 / 0 = NaN
  /\ (NaN <=? 0) = false /\ Num.max 1 NaN = NaN /\ round 2.5 = 3
  /\ round (-2.5) = Fin (-2).
Proof. repeat split. Qed.

Example variable_names :
  LP.varName 0 = "x0" /\ LP.varName 12 = "x12"
  /\ LP.safeName "Omega-3 fatty acids" = "Omega_3_fatty_acids".
Proof. repeat split. Qed.

Example sorted_by_meal_timing :
  map (fun s => name (sel_ingredient s))
    (sortByMealTiming
       [{| sel_ingredient := Scenario.chicken; sel_amount := 200 |};
        {| sel_ingredient := Scenario.spinach; sel_amount := 100 |};
        {| sel_ingredient := Scenario.oats; sel_amount := 80 |}])
  = ["Oats"; "Chicken Breast (cooked)"; "Spinach (raw)"].
Proof. reflexivity. Qed.

(** The first iteration of the greedy loop on a catalog of one supplement:
    10 g of it, 90 kcal. *)
Example first_pick_of_supplement :
  selectionStep [Scenario.oil] Scenario.targetMacros Scenario.targetCalories
    (initialState [Scenario.vitaminC])
  = Continue
      {| st_selected :=
           [{| sel_ingredient := Scenario.oil; sel_amount := 10 |}];
         st_tracking := initializeNutrientTracking [Scenario.vitaminC];
         st_macros := {| protein := 0; carbs := 0; fat := 10 |};
         st_calories := 90 |}.
Proof. reflexivity. Qed.

(** ** Energy model *)

(** C8.  Scenario 1 of the design document: for a male of 30 years, 75 kg,
    15 % body fat and moderate activity, the lean mass is 63.75, the BMR is
    370 + 21.6 * 63.75 = 1747 and [calculateTDEE] returns 1747 * 1.55 =
    2707.85.  On exact numbers the three values are met exactly; on binary64
    the result is within 0.1 of 2707.85 (and so are the exact ones). *)
Theorem tdee_scenario_1 :
  (leanBodyMass 75 15 === 63.75) = true
  /\ (bmr 75 15 === 370 + 21.6 * 63.75) = true
  /\ (bmr 75 15 === 1747) = true
  /\ (calculateTDEE Male 30 75 15 Moderate === 1747 * 1.55) = true
  /\ (calculateTDEE Male 30 75 15 Moderate === 2707.85) = true
  /\ (abs (calculateTDEE Male 30 75 15 Moderate - 2707.85) <? 0.1) = true
  /\ (let tdee := F64.calculateTDEE Male 30 75 15 Moderate in
      PrimFloat.ltb (PrimFloat.abs (PrimFloat.sub tdee 2707.85%float))
        0.1%float = true)
  /\ PrimFloat.eqb (F64.leanBodyMass 75 15) 63.75%float = true
  /\ PrimFloat.eqb (F64.bmr 75 15) 1747%float = true.
Proof. repeat split; vm_compute; reflexivity. Qed.

(** C7.  The energy model is deterministic: two calls of [calculateTDEE],
    [adjustCaloriesForGoal] and [calculateTargetMacros] on the same sex, age,
    weight, body fat, activity level, goal and target percentages give the
    same target calories and the same target macro grams, whatever the clock
    reads ([now1], [now2]) when [adjustCaloriesForGoal] runs. *)
Theorem energy_model_deterministic :
  forall (now1 now2 : num) (sex : Sex) (age bodyWeight bodyFatPercentage : num)
         (activityLevel : ActivityLevel) (goal : Goal)
         (targetMacros : TargetMacros),
    let tdee1 :=
      calculateTDEE sex age bodyWeight bodyFatPercentage activityLevel in
    let tdee2 :=
      calculateTDEE sex age bodyWeight bodyFatPercentage activityLevel in
    let calories1 := adjustCaloriesForGoal now1 tdee1 goal bodyWeight in
    let calories2 := adjustCaloriesForGoal now2 tdee2 goal bodyWeight in
    tdee1 = tdee2
    /\ calories1 = calories2
    /\ calculateTargetMacros calories1 targetMacros
       = calculateTargetMacros calories2 targetMacros.
Proof.
  intros now1 now2 sex age bodyWeight bodyFatPercentage activityLevel goal
         targetMacros tdee1 tdee2 calories1 calories2.
  assert (Hcal : calories1 = calories2).
  { subst calories1 calories2 tdee1 tdee2.
    destruct goal; reflexivity. }
  split; [reflexivity | split; [exact Hcal | now rewrite Hcal]].
Qed.

(** ** Shape of the diet *)

Lemma fillMeals_meals :
  forall (meals0 : list Meal) (targetCalories : num)
         (sorted : list IngredientSelection),
    map meal (fst (fillMeals meals0 targetCalories sorted)) = meals0.
Proof.
  induction meals0 as [| m rest IH]; intros targetCalories sorted; simpl.
  - reflexivity.
  - destruct (fillMeal _ sorted 0) as [mealIngredients sorted'].
    specialize (IH targetCalories sorted').
    destruct (fillMeals rest targetCalories sorted') as [dietMeals sorted''].
    simpl in *. now rewrite IH.
Qed.

Lemma pushToMeal_meals :
  forall (dietMeals : list DietMeal) (index : nat)
         (items : list DietMealIngredient),
    map meal (pushToMeal index items dietMeals) = map meal dietMeals.
Proof.
  induction dietMeals as [| dm rest IH]; intros [| index] items; simpl;
    try reflexivity.
  now rewrite IH.
Qed.

Lemma largestMealIndex_nonempty :
  forall meals0 : list Meal,
    meals0 <> [] -> exists index, largestMealIndex meals0 = Ok index.
Proof.
  intros [| first rest] H; [congruence |].
  unfold largestMealIndex.
  destruct (fold_left _ rest (O, first, 1%nat)) as [[maxIndex max] index].
  now exists maxIndex.
Qed.

Lemma distributeToMealsWith_empty :
  forall (sort : list IngredientSelection -> list IngredientSelection)
         (selectedIngredients : list IngredientSelection) (targetCalories : num),
    distributeToMealsWith sort selectedIngredients [] targetCalories
    = Throw TypeError.
Proof. reflexivity. Qed.

Lemma LP_distributeToMeals_meals :
  forall (selectedIngredients : list IngredientSelection) (meals0 : list Meal)
         (targetCalories : num),
    map meal (meals (LP.distributeToMeals selectedIngredients meals0
                       targetCalories)) = meals0.
Proof.
  intros sel meals0 tc. unfold LP.distributeToMeals. simpl.
  rewrite map_map. simpl. apply map_id.
Qed.

(** C4.  For a non-empty meal list and any flat selection, the diet that the
    meal distribution of either selector returns has one [DietMeal] per input
    [Meal], in the order of the input (whatever [sort] does, for the greedy
    distributor). *)
Theorem one_entry_per_meal_in_order :
  forall (sort : list IngredientSelection -> list IngredientSelection)
         (selectedIngredients : list IngredientSelection) (meals0 : list Meal)
         (targetCalories : num),
    meals0 <> [] ->
    (exists diet,
        distributeToMealsWith sort selectedIngredients meals0 targetCalories
        = Ok diet
        /\ map meal (meals diet) = meals0)
    /\ map meal (meals (LP.distributeToMeals selectedIngredients meals0
                          targetCalories)) = meals0.
Proof.
  intros sort sel meals0 tc Hne. split.
  - unfold distributeToMealsWith.
    pose proof (fillMeals_meals meals0 tc (sort sel)) as Hm.
    destruct (fillMeals meals0 tc (sort sel)) as [dietMeals sorted'].
    destruct (largestMealIndex_nonempty Hne) as [index Hi].
    rewrite Hi. eexists; split; [reflexivity |].
    simpl in *. now rewrite pushToMeal_meals.
  - apply LP_distributeToMeals_meals.
Qed.

Lemma one_entry_per_meal_in_order_witness :
  (exists diet,
      distributeToMealsWith sortByMealTiming
        [{| sel_ingredient := Scenario.oats; sel_amount := 80 |};
         {| sel_ingredient := Scenario.chicken; sel_amount := 200 |}]
        Scenario.threeMeals 2000
      = Ok diet
      /\ map meal (meals diet) = Scenario.threeMeals)
  /\ map meal
       (meals
          (LP.distributeToMeals
             [{| sel_ingredient := Scenario.oats; sel_amount := 80 |};
              {| sel_ingredient := Scenario.chicken; sel_amount := 200 |}]
             Scenario.threeMeals 2000))
     = Scenario.threeMeals.
Proof.
  apply (@one_entry_per_meal_in_order sortByMealTiming
           [{| sel_ingredient := Scenario.oats; sel_amount := 80 |};
            {| sel_ingredient := Scenario.chicken; sel_amount := 200 |}]
           Scenario.threeMeals 2000).
  discriminate.
Defined.

(** ** Facts on numbers *)

Lemma Qfloor_half (z : Z) : Qfloor (inject_Z z + (1 # 2)) = z.
Proof.
  unfold Qfloor, inject_Z, Qplus. simpl.
  symmetry. apply Z.div_unique with (r := 1%Z); lia.
Qed.

Lemma round_round (x : num) : round (round x) = round x.
Proof.
  destruct x as [a | | |]; try reflexivity.
  unfold round. now rewrite Qfloor_half.
Qed.

Lemma Qle_bool_false (a b : Q) : Qle_bool a b = false <-> (b < a)%Q.
Proof.
  split; intros H.
  - apply Qnot_le_lt. intros Hle. apply Qle_bool_iff in Hle. congruence.
  - destruct (Qle_bool a b) eqn:E; [| reflexivity].
    apply Qle_bool_iff in E. exfalso. apply (Qlt_not_le _ _ H E).
Qed.

Lemma ltb_Fin (a b : Q) : (Fin a <? Fin b) = true <-> (a < b)%Q.
Proof.
  simpl. rewrite negb_true_iff. apply Qle_bool_false.
Qed.

Lemma leb_Fin (a b : Q) : (Fin a <=? Fin b) = true <-> (a <= b)%Q.
Proof. simpl. apply Qle_bool_iff. Qed.

Lemma round_ge_1 (x : num) : (x >? 1) = true -> (round x >=? 1) = true.
Proof.
  destruct x as [a | | |]; try discriminate; try reflexivity.
  intros H. unfold gtb in H. apply ltb_Fin in H.
  unfold geb, round. apply leb_Fin.
  change 1%Q with (inject_Z 1). rewrite <- Zle_Qle.
  rewrite <- (Qfloor_half 1) at 1. apply Qfloor_resp_le.
  change (inject_Z 1) with 1%Q. lra.
Qed.

(** ** LP selector *)

Lemma selectionOf_wholeGrams :
  forall (solution : LP.Solution) (catalog : list Ingredient),
    Forall wholeGrams (LP.selectionOf solution catalog).
Proof.
  intros solution catalog. unfold LP.selectionOf.
  destruct (LP.feasible solution); [| constructor].
  induction (LP.indexed catalog) as [| [index ingredient] rest IH]; simpl.
  - constructor.
  - match goal with
    | |- context [if ?c then _ else _] => destruct c eqn:E
    end; simpl; [| exact IH].
    constructor; [| exact IH].
    split; [now apply round_ge_1 | apply round_round].
Qed.

Lemma pushFirst_wholeGrams :
  forall (p : Ingredient -> bool) (amount : num) (catalog : list Ingredient)
         (selections : list IngredientSelection),
    (amount >=? 1) = true -> round amount = amount ->
    Forall wholeGrams selections ->
    Forall wholeGrams (LP.pushFirst p amount catalog selections).
Proof.
  intros p amount catalog selections H1 H2 H. unfold LP.pushFirst.
  destruct (filter p catalog); [exact H |].
  apply Forall_app. split; [exact H |].
  constructor; [now split | constructor].
Qed.

Lemma fallbackSelections_wholeGrams :
  forall catalog : list Ingredient,
    Forall wholeGrams (LP.fallbackSelections catalog).
Proof.
  intros catalog. unfold LP.fallbackSelections.
  assert (H : Forall wholeGrams
                (LP.pushFirst
                   (fun i => (fat (macros i) >? 40)
                             && negb (includes "Supplement" (name i))) 30 catalog
                (LP.pushFirst
                   (fun i => includes "spinach" (toLowerCase (name i))
                             || includes "broccoli" (toLowerCase (name i))
                             || includes "kale" (toLowerCase (name i))) 200 catalog
                (LP.pushFirst
                   (fun i => (carbs (macros i) >? 20)
                             && negb (includes "Supplement" (name i))) 150 catalog
                (LP.pushFirst
                   (fun i => (protein (macros i) >? 20)
                             && negb (includes "Supplement" (name i))) 200 catalog
                   []))))).
  { repeat (apply pushFirst_wholeGrams; [reflexivity | reflexivity |]).
    constructor. }
  destruct (find _ catalog); [| exact H].
  apply Forall_app. split; [exact H |].
  constructor; [split; reflexivity | constructor].
Qed.

Lemma supplements_of_meal :
  forall (meal0 : Meal) (selectedIngredients : list IngredientSelection),
    Forall wholeGrams selectedIngredients ->
    filter (fun e => isSupplement (dmi_ingredient e))
      (flat_map (LP.mealEntry meal0) selectedIngredients)
    = if String.eqb (meal_name meal0) "Breakfast"
      then map entryOf
             (filter (fun s => isSupplement (sel_ingredient s))
                selectedIngredients)
      else [].
Proof.
  intros meal0 sel Hsel.
  induction Hsel as [| s rest [Hge Hround] _ IH].
  - cbn. now destruct (String.eqb _ _).
  - cbn [flat_map filter]. rewrite filter_app, IH. clear IH.
    unfold LP.mealEntry. cbv zeta.
    destruct (isSupplement (sel_ingredient s)) eqn:Es.
    + destruct (String.eqb (meal_name meal0) "Breakfast") eqn:Eb.
      * rewrite Hge. cbn [filter dmi_ingredient map app]. rewrite Es.
        unfold entryOf at 1. now rewrite Hround.
      * reflexivity.
    + destruct (sel_amount s * _ >=? 1);
        cbn [filter dmi_ingredient app]; rewrite ?Es; reflexivity.
Qed.

(** C9.  In the meal distributor of the LP selector, on the amounts the
    selector produces (rounded, at least 1 g), the diet has one entry per
    input meal, in the order of the input; the supplement entries of an
    input meal named exactly "Breakfast" are the supplements of the
    selection, each with its whole selected amount, and an input meal of
    any other name has no supplement entry.  So with no input meal named
    "Breakfast" every input meal comes back without a supplement, whatever
    the selection holds: the amount is dropped. *)
Theorem lp_supplements_in_breakfast_only :
  forall (selectedIngredients : list IngredientSelection) (meals0 : list Meal)
         (targetCalories : num),
    Forall wholeGrams selectedIngredients ->
    let diet := LP.distributeToMeals selectedIngredients meals0 targetCalories in
    let supplements :=
      map entryOf
        (filter (fun s => isSupplement (sel_ingredient s)) selectedIngredients)
    in
    map (fun dm => (meal dm, supplementEntries dm)) (meals diet)
    = map (fun m =>
             (m, if String.eqb (meal_name m) "Breakfast"
                 then supplements else []))
        meals0
    /\ Forall
         (fun dm =>
            supplementEntries dm
            = if String.eqb (meal_name (meal dm)) "Breakfast"
              then supplements else [])
         (meals diet)
    /\ ((forall m, In m meals0 -> meal_name m <> "Breakfast") ->
        map (fun dm => (meal dm, supplementEntries dm)) (meals diet)
        = map (fun m => (m, [])) meals0).
Proof.
  intros sel meals0 tc Hsel diet supplements.
  assert (Hall : map (fun dm => (meal dm, supplementEntries dm)) (meals diet)
                 = map (fun m =>
                          (m, if String.eqb (meal_name m) "Breakfast"
                              then supplements else []))
                     meals0).
  { subst diet supplements. unfold LP.distributeToMeals. cbn [meals].
    rewrite map_map. apply map_ext. intros m.
    unfold supplementEntries. cbn [meal ingredients]. f_equal.
    now apply supplements_of_meal. }
  split; [exact Hall | split].
  - subst diet supplements. unfold LP.distributeToMeals. cbn [meals].
    apply Forall_map, Forall_forall. intros m _.
    unfold supplementEntries. cbn [meal ingredients].
    now apply supplements_of_meal.
  - intros Hno. rewrite Hall. apply map_ext_in. intros m Hm.
    destruct (String.eqb (meal_name m) "Breakfast") eqn:E; [| reflexivity].
    apply String.eqb_eq in E. exfalso. exact (Hno m Hm E).
Qed.

Lemma lp_supplements_in_breakfast_only_witness :
  map (fun dm => (meal dm, supplementEntries dm))
    (meals
       (LP.distributeToMeals
          (LP.fallbackSelections
             [Scenario.chicken; Scenario.oats; Scenario.spinach;
              Scenario.almonds; Scenario.multivitamin])
          Scenario.threeMeals Scenario.targetCalories))
  = map (fun m =>
           (m, if String.eqb (meal_name m) "Breakfast"
               then [{| dmi_ingredient := Scenario.multivitamin;
                        dmi_amount := 2 |}]
               else []))
      Scenario.threeMeals.
Proof.
  refine (proj1
            (@lp_supplements_in_breakfast_only
               (LP.fallbackSelections
                  [Scenario.chicken; Scenario.oats; Scenario.spinach;
                   Scenario.almonds; Scenario.multivitamin])
               Scenario.threeMeals Scenario.targetCalories _)).
  vm_compute. repeat constructor.
Defined.

Lemma find_ext :
  forall (A : Type) (p q : A -> bool) (l : list A),
    (forall x, p x = q x) -> find p l = find q l.
Proof.
  intros A p q l H. induction l as [| x rest IH]; simpl.
  - reflexivity.
  - rewrite H, IH. reflexivity.
Qed.

Lemma pushFirst_firstMatch :
  forall (p q : Ingredient -> bool) (amount : num) (catalog : list Ingredient)
         (selections : list IngredientSelection),
    (forall i, p i = q i) ->
    LP.pushFirst p amount catalog selections
    = selections ++ FallbackSpec.firstMatch q amount catalog.
Proof.
  intros p q amount catalog selections H.
  unfold LP.pushFirst, FallbackSpec.firstMatch.
  rewrite <- (find_ext p q catalog H).
  induction catalog as [| i rest IH]; simpl.
  - now rewrite app_nil_r.
  - destruct (p i); [reflexivity | exact IH].
Qed.

Lemma fallbackSelections_spec :
  forall catalog : list Ingredient,
    LP.fallbackSelections catalog = FallbackSpec.selections catalog.
Proof.
  intros catalog. unfold LP.fallbackSelections, FallbackSpec.selections.
  rewrite (@pushFirst_firstMatch _
             (fun i => FallbackSpec.nonSupplement i && (protein (macros i) >? 20))
             200 catalog []) by (intros i; apply andb_comm).
  rewrite (@pushFirst_firstMatch _
             (fun i => FallbackSpec.nonSupplement i && (carbs (macros i) >? 20))
             150 catalog) by (intros i; apply andb_comm).
  rewrite (@pushFirst_firstMatch _
             (FallbackSpec.namedAfter ["spinach"; "broccoli"; "kale"])
             200 catalog)
    by (intros i; unfold FallbackSpec.namedAfter; simpl;
        now rewrite orb_false_r, orb_assoc).
  rewrite (@pushFirst_firstMatch _
             (fun i => FallbackSpec.nonSupplement i && (fat (macros i) >? 40))
             30 catalog) by (intros i; apply andb_comm).
  unfold FallbackSpec.firstMatch.
  destruct (find (fun i => includes "Multivitamin" (name i)) catalog);
    rewrite ?app_nil_r, <- ?app_assoc; reflexivity.
Qed.

(** C5.  When the solve is infeasible, or the selection read from the
    solution has fewer than 5 ingredients, [getDiet] of the LP selector
    returns the fallback diet: the first catalog matches of the five rules of
    the design document, each at the amount of its rule and only when there
    is a match, distributed to the meals.  [getDiet] is a total function
    here: it returns this diet, and no exception leaves it. *)
Theorem lp_fallback_on_infeasible_or_undersized :
  forall (Solve : LP.Model -> LP.Solution) (input : GetDietInput),
    let tdee :=
      calculateTDEE (input_sex input) (input_age input)
        (input_bodyWeight input) (input_bodyFatPercentage input)
        (input_activityLevel input) in
    let targetCalories :=
      LP.adjustCaloriesForGoal tdee (input_goal input)
        (input_bodyWeight input) in
    let targetMacrosInGrams :=
      calculateTargetMacros targetCalories (input_targetMacros input) in
    let solution :=
      Solve (LP.buildModel input targetCalories targetMacrosInGrams) in
    LP.feasible solution = false
    \/ (List.length (LP.selectionOf solution (input_ingredients input)) < 5)%nat ->
    LP.getDiet Solve input = LP.createFallbackDiet input
    /\ LP.createFallbackDiet input
       = LP.distributeToMeals
           (FallbackSpec.selections (input_ingredients input))
           (input_meals input) targetCalories.
Proof.
  intros Solve input tdee targetCalories targetMacrosInGrams solution H.
  assert (Hlen : (List.length
                    (LP.selectionOf solution (input_ingredients input)) <? 5)%nat
                 = true).
  { apply Nat.ltb_lt. destruct H as [H | H]; [| exact H].
    unfold LP.selectionOf. rewrite H. simpl. lia. }
  split.
  - unfold LP.getDiet. fold tdee. fold targetCalories.
    fold targetMacrosInGrams. fold solution. now rewrite Hlen.
  - unfold LP.createFallbackDiet. now rewrite fallbackSelections_spec.
Qed.

Lemma lp_fallback_on_infeasible_or_undersized_witness :
  LP.getDiet infeasible
    (Scenario.person
       [Scenario.chicken; Scenario.oats; Scenario.spinach; Scenario.almonds;
        Scenario.multivitamin]
       [Scenario.vitaminC; Scenario.vitaminD] Scenario.threeMeals)
  = LP.distributeToMeals
      [{| sel_ingredient := Scenario.chicken; sel_amount := 200 |};
       {| sel_ingredient := Scenario.oats; sel_amount := 150 |};
       {| sel_ingredient := Scenario.spinach; sel_amount := 200 |};
       {| sel_ingredient := Scenario.almonds; sel_amount := 30 |};
       {| sel_ingredient := Scenario.multivitamin; sel_amount := 2 |}]
      Scenario.threeMeals Scenario.targetCalories.
Proof.
  destruct (@lp_fallback_on_infeasible_or_undersized infeasible
              (Scenario.person
                 [Scenario.chicken; Scenario.oats; Scenario.spinach;
                  Scenario.almonds; Scenario.multivitamin]
                 [Scenario.vitaminC; Scenario.vitaminD] Scenario.threeMeals))
    as [Hget Hfallback].
  - left. reflexivity.
  - rewrite Hget, Hfallback. reflexivity.
Defined.


(** ** Nutrient tracking *)

Lemma Qeq_bool_pos (n : Q) : (0 < n)%Q -> Qeq_bool n 0 = false.
Proof.
  intros H. destruct (Qeq_bool n 0) eqn:E; [| reflexivity].
  apply Qeq_bool_iff in E. rewrite E in H. exfalso. apply (Qlt_irrefl _ H).
Qed.

Lemma div_Fin_pos (a n : Q) :
  (0 < n)%Q -> Fin a / Fin n = Fin (Qred (a / n)).
Proof. intros H. unfold div. now rewrite Qeq_bool_pos. Qed.

Lemma nonNegative_div_100 (x : num) : nonNegative x -> nonNegative (x / 100).
Proof.
  intros [q [-> Hq]]. rewrite div_Fin_pos by reflexivity.
  eexists; split; [reflexivity |]. rewrite Qred_correct.
  apply Qle_shift_div_l; [reflexivity | lra].
Qed.

Lemma nonNegative_mul (x y : num) :
  nonNegative x -> nonNegative y -> nonNegative (x * y).
Proof.
  intros [a [-> Ha]] [b [-> Hb]]. eexists; split; [reflexivity |].
  rewrite Qred_correct. now apply Qmult_le_0_compat.
Qed.

Lemma le_refl_Fin (a : Q) : Fin a <= Fin a.
Proof. apply leb_Fin. apply Qle_refl. Qed.

Lemma le_trans (x y z : num) : x <= y -> y <= z -> x <= z.
Proof.
  unfold le.
  destruct x as [a | | |], y as [b | | |], z as [c | | |];
    try discriminate; try reflexivity.
  rewrite !leb_Fin. apply Qle_trans.
Qed.

Lemma notReduced_refl (t : NutrientTracking) : consistent t -> notReduced t t.
Proof.
  intros (c & n & p & Hc & _ & Hp & _). unfold notReduced.
  rewrite Hc, Hp. auto using le_refl_Fin.
Qed.

Lemma notReduced_trans (a b c : NutrientTracking) :
  notReduced a b -> notReduced b c -> notReduced a c.
Proof.
  intros (Hn1 & Hc1 & Hp1) (Hn2 & Hc2 & Hp2). repeat split.
  - congruence.
  - exact (le_trans Hc1 Hc2).
  - exact (le_trans Hp1 Hp2).
Qed.

Lemma addConsumed_advances (delta : num) (t : NutrientTracking) :
  nonNegative delta -> consistent t ->
  consistent (addConsumed delta t) /\ notReduced t (addConsumed delta t).
Proof.
  intros [d [-> Hd]] (c & n & p & Hc & Hn & Hp & Hpos & Hpct).
  assert (Hcons : consumed (addConsumed (Fin d) t) = Fin (Qred (c + d))).
  { unfold addConsumed. simpl. now rewrite Hc. }
  assert (Hperc : percentage (addConsumed (Fin d) t)
                  = Fin (Qred (Qred (Qred (c + d) / n) * 100))).
  { unfold addConsumed. cbn [percentage consumed nt_nutrient].
    rewrite Hc, Hn. unfold add, fin. now rewrite div_Fin_pos. }
  assert (Hinv : (0 < / n)%Q) by now apply Qinv_lt_0_compat.
  assert (Hmono : (c / n * 100 <= (c + d) / n * 100)%Q).
  { unfold Qdiv. nra. }
  split.
  - exists (Qred (c + d)), n, (Qred (Qred (Qred (c + d) / n) * 100)).
    repeat split; try assumption.
    now rewrite !Qred_correct.
  - unfold notReduced. rewrite Hcons, Hperc, Hc, Hp. repeat split.
    + apply leb_Fin. rewrite Qred_correct. lra.
    + apply leb_Fin. rewrite !Qred_correct. now rewrite Hpct.
Qed.

Lemma update_first_advances (p : NutrientTracking -> bool) (delta : num)
    (tracking : list NutrientTracking) :
  nonNegative delta -> Forall consistent tracking ->
  Forall consistent (update_first p (addConsumed delta) tracking)
  /\ Forall2 notReduced tracking (update_first p (addConsumed delta) tracking).
Proof.
  intros Hd H. induction H as [| t rest Ht Hrest [IH1 IH2]]; simpl.
  - split; constructor.
  - destruct (p t).
    + destruct (addConsumed_advances Hd Ht) as [Hc Hn].
      split; constructor; try assumption.
      clear - Hrest. induction Hrest; constructor;
        auto using notReduced_refl.
    + split; constructor; auto using notReduced_refl.
Qed.

Lemma Forall2_notReduced_trans (a b c : list NutrientTracking) :
  Forall2 notReduced a b -> Forall2 notReduced b c -> Forall2 notReduced a c.
Proof.
  intros Hab. revert c. induction Hab as [| x y a b Hxy _ IH]; intros c Hbc.
  - inversion Hbc. constructor.
  - inversion Hbc as [| y' z b' c' Hyz Hbc']; subst.
    constructor; [exact (notReduced_trans Hxy Hyz) | now apply IH].
Qed.

Lemma Forall2_notReduced_refl (a : list NutrientTracking) :
  Forall consistent a -> Forall2 notReduced a a.
Proof. induction 1; constructor; auto using notReduced_refl. Qed.

Lemma updateTracking_advances (ingredient : Ingredient) (amount : num)
    (tracking : list NutrientTracking) (macros0 : MacroTracking) :
  validCall (ingredient, amount) -> Forall consistent tracking ->
  let tracking' := fst (updateTracking ingredient amount tracking macros0) in
  Forall consistent tracking' /\ Forall2 notReduced tracking tracking'.
Proof.
  intros [Hamount Hnutrients] Htracking. simpl in Hamount, Hnutrients.
  unfold updateTracking. cbn [fst].
  revert tracking Htracking.
  induction Hnutrients as [| n rest Hn _ IH]; intros tracking Htracking.
  - cbn. split; [assumption | now apply Forall2_notReduced_refl].
  - cbn [fold_left].
    assert (Hdelta : nonNegative (in_amount n * (amount / 100)))
      by auto using nonNegative_mul, nonNegative_div_100.
    destruct (update_first_advances
                (tracks (nutrient_name (in_nutrient n))) Hdelta Htracking)
      as [Hc Hadv].
    destruct (IH _ Hc) as [Hc' Hadv'].
    split; [exact Hc' | exact (Forall2_notReduced_trans Hadv Hadv')].
Qed.

Lemma initializeNutrientTracking_consistent (nutrients0 : list Nutrient) :
  Forall validNutrient nutrients0 ->
  Forall consistent (initializeNutrientTracking nutrients0).
Proof.
  induction 1 as [| n rest [q [Hq Hpos]] _ IH]; simpl; constructor;
    [| exact IH].
  exists 0%Q, q, 0%Q. cbn. repeat split; assumption.
Qed.

Lemma trackingAfter_consistent (nutrients0 : list Nutrient)
    (calls : list (Ingredient * num)) :
  Forall validNutrient nutrients0 -> Forall validCall calls ->
  Forall consistent (trackingAfter nutrients0 calls).
Proof.
  intros Hn Hcalls. unfold trackingAfter.
  generalize (initializeNutrientTracking_consistent Hn).
  generalize (initializeNutrientTracking nutrients0).
  induction Hcalls as [| [ingredient amount] rest Hc _ IH];
    intros tracking Htracking; cbn [fold_left].
  - exact Htracking.
  - apply IH. exact (proj1 (updateTracking_advances _ Hc Htracking)).
Qed.

(** ** Supplements in a meal *)










(** ** Supplement totals of a selection *)

(** C3 fails on the code.  For the person of scenario 1 and a catalog of one
    supplement of fat, the greedy selection loop picks the supplement 33
    times, at most 10 g a time, and merges the amounts by name: the
    selection returned holds 286 g of it.  In the LP selector, the vegetable
    rule of the fallback takes a supplement named after a vegetable at
    200 g. *)
Theorem supplement_total_over_10g :
  isSupplement Scenario.oil = true
  /\ selectOptimalIngredients 33 [Scenario.oil] [Scenario.vitaminC]
       Scenario.targetMacros Scenario.targetCalories
     = Some [{| sel_ingredient := Scenario.oil; sel_amount := 286 |}]
  /\ (Fin 286 >? 10) = true
  /\ isSupplement Scenario.kalePowder = true
  /\ LP.fallbackSelections [Scenario.kalePowder]
     = [{| sel_ingredient := Scenario.kalePowder; sel_amount := 200 |}]
  /\ (Fin 200 >? 10) = true.
Proof. repeat split; vm_compute; reflexivity. Qed.

(** ** Termination *)

(** With an ingredient that has no calories and no tracked nutrient, one
    iteration of the selection loop changes nothing but the selection. *)
Lemma water_step :
  forall selected : list IngredientSelection,
    selectionStep [Scenario.water] Scenario.targetMacros Scenario.targetCalories
      {| st_selected := selected;
         st_tracking := initializeNutrientTracking [Scenario.vitaminC];
         st_macros := {| protein := 0; carbs := 0; fat := 0 |};
         st_calories := 0 |}
    = Continue
        {| st_selected := addSelection selected Scenario.water 500;
           st_tracking := initializeNutrientTracking [Scenario.vitaminC];
           st_macros := {| protein := 0; carbs := 0; fat := 0 |};
           st_calories := 0 |}.
Proof. intros selected. reflexivity. Qed.

Lemma water_loop :
  forall (fuel : nat) (selected : list IngredientSelection),
    selectionLoop fuel [Scenario.water] Scenario.targetMacros
      Scenario.targetCalories
      {| st_selected := selected;
         st_tracking := initializeNutrientTracking [Scenario.vitaminC];
         st_macros := {| protein := 0; carbs := 0; fat := 0 |};
         st_calories := 0 |}
    = None.
Proof.
  induction fuel as [| fuel IH]; intros selected;
    cbn [selectionLoop]; rewrite water_step; [reflexivity | apply IH].
Qed.

(** C1 fails on the code: for the person of scenario 1, a catalog that holds
    only water (no calories, no nutrient) and one nutrient to cover, the
    selection loop never ends, whatever the number of iterations it is
    given. *)
Lemma selection_loop_never_ends :
  ~ (exists fuel result,
        selectOptimalIngredients fuel [Scenario.water] [Scenario.vitaminC]
          Scenario.targetMacros Scenario.targetCalories
        = Some result).
Proof.
  intros (fuel & result & H). unfold selectOptimalIngredients in H.
  unfold initialState in H. rewrite water_loop in H. discriminate.
Qed.

(** The amount of an iteration is clamped between the practical limits,
    unless it is [NaN]. *)
Lemma clamp_range (lo hi : Q) (x : num) :
  (lo <= hi)%Q ->
  Num.max (Fin lo) (Num.min (Fin hi) x) = NaN
  \/ exists a,
       Num.max (Fin lo) (Num.min (Fin hi) x) = Fin a /\ (lo <= a <= hi)%Q.
Proof.
  intros Hle. unfold Num.min. cbn [is_nan orb].
  destruct x as [q | | |]; cbn [is_nan].
  - right. unfold Num.max.
    destruct (Fin q <? Fin hi) eqn:E1; cbn [is_nan orb].
    + apply ltb_Fin in E1.
      destruct (Fin lo <? Fin q) eqn:E2.
      * apply ltb_Fin in E2. exists q. split; [reflexivity | lra].
      * exists lo. split; [reflexivity | lra].
    + destruct (Fin lo <? Fin hi) eqn:E2.
      * exists hi. split; [reflexivity | lra].
      * exists lo. split; [reflexivity | lra].
  - right. unfold Num.max. cbn [ltb is_nan orb].
    destruct (negb (Qle_bool hi lo)).
    + exists hi. split; [reflexivity | lra].
    + exists lo. split; [reflexivity | lra].
  - right. exists lo. split; [reflexivity | lra].
  - left. reflexivity.
Qed.

Lemma calculateOptimalAmount_range :
  forall (ingredient : Ingredient) (tracking : list NutrientTracking)
         (currentMacros targetMacros : MacroTracking) (remaining : num),
    calculateOptimalAmount ingredient tracking currentMacros targetMacros
      remaining = NaN
    \/ exists a,
         calculateOptimalAmount ingredient tracking currentMacros targetMacros
           remaining = Fin a
         /\ (1 <= a <= 500)%Q.
Proof.
  intros ingredient tracking cm tm remaining.
  unfold calculateOptimalAmount. cbv zeta.
  match goal with
  | |- context [round ?x] => generalize (round x)
  end.
  intros x. destruct (isSupplement ingredient).
  - destruct (@clamp_range 1 10 x) as [H | (a & H & Ha)]; [lra | now left |].
    right. exists a. split; [exact H | lra].
  - destruct (@clamp_range 5 500 x) as [H | (a & H & Ha)]; [lra | now left |].
    right. exists a. split; [exact H | lra].
Qed.

Lemma best_fold_In :
  forall (score : Ingredient -> num) (l : list Ingredient)
         (acc : option Ingredient * num),
    let r :=
      fold_left
        (fun (best : option Ingredient * num) ingredient =>
           if score ingredient >? snd best
           then (Some ingredient, score ingredient) else best)
        l acc in
    fst r = fst acc \/ exists i, fst r = Some i /\ In i l.
Proof.
  intros score. induction l as [| x rest IH]; intros acc; cbn [fold_left].
  - now left.
  - destruct (score x >? snd acc).
    + right. destruct (IH (Some x, score x)) as [H | (i & H & Hin)].
      * exists x. split; [exact H | now left].
      * exists i. split; [exact H | now right].
    + destruct (IH acc) as [H | (i & H & Hin)]; [now left |].
      right. exists i. split; [exact H | now right].
Qed.

Lemma findBestIngredient_In :
  forall (ingredients0 : list Ingredient) (tracking : list NutrientTracking)
         (currentMacros targetMacros : MacroTracking) (remaining : num)
         (best : Ingredient) (score : num),
    findBestIngredient ingredients0 tracking currentMacros targetMacros
      remaining = Some (best, score) ->
    In best ingredients0.
Proof.
  intros ings tracking cm tm remaining best score H.
  unfold findBestIngredient in H.
  pose proof (best_fold_In
                (fun i => calculateIngredientScore i tracking cm tm remaining)
                ings (None, NInf)) as Hfold.
  cbv zeta in Hfold.
  destruct (fold_left _ ings (None, NInf)) as [[b |] sc]; [| discriminate].
  injection H as -> _.
  destruct Hfold as [Hf | (i & Hf & Hin)]; cbn [fst] in Hf;
    [discriminate | congruence].
Qed.

Lemma totalQ_eq (p c f : Q) : (totalQ p c f == p * 4 + c * 4 + f * 9)%Q.
Proof. unfold totalQ. now rewrite !Qred_correct. Qed.

Lemma bumpQ_eq (x m a : Q) : (bumpQ x m a == x + m * (a / 100))%Q.
Proof. unfold bumpQ. now rewrite !Qred_correct. Qed.

Lemma mul_NaN_r (x : num) : x * NaN = NaN.
Proof. now destruct x. Qed.

Lemma add_NaN_r (x : num) : x + NaN = NaN.
Proof. now destruct x. Qed.

Lemma caloric_macros (i : Ingredient) :
  caloric i ->
  exists mp mc mf,
    macros i = {| protein := Fin mp; carbs := Fin mc; fat := Fin mf |}
    /\ (0 < totalQ mp mc mf)%Q.
Proof.
  intros ((mp & Hp & _) & (mc & Hc & _) & (mf & Hf & _) & (k & Hk & Hpos)).
  exists mp, mc, mf.
  destruct (macros i) as [p c f] eqn:Em. cbn [protein carbs fat] in *.
  subst p c f. split; [reflexivity |].
  unfold calculateCaloriesFromMacros in Hk. cbn in Hk.
  injection Hk as <-. exact Hpos.
Qed.

(** A positive lower bound of the calories per 100 g over the catalog. *)
Lemma caloric_floor (catalog : list Ingredient) :
  Forall caloric catalog ->
  exists delta,
    (0 < delta)%Q
    /\ forall i mp mc mf,
         In i catalog ->
         macros i = {| protein := Fin mp; carbs := Fin mc; fat := Fin mf |} ->
         (delta <= totalQ mp mc mf)%Q.
Proof.
  induction 1 as [| x rest Hx _ (delta & Hpos & IH)].
  - exists 1%Q. split; [lra | intros i mp mc mf []].
  - destruct (caloric_macros Hx) as (xp & xc & xf & Hm & Hk).
    destruct (Qlt_le_dec (totalQ xp xc xf) delta) as [Hlt | Hge].
    + exists (totalQ xp xc xf). split; [exact Hk |].
      intros i mp mc mf [<- | Hin] Hi.
      * rewrite Hm in Hi. injection Hi as <- <- <-. apply Qle_refl.
      * specialize (IH i mp mc mf Hin Hi). lra.
    + exists delta. split; [exact Hpos |].
      intros i mp mc mf [<- | Hin] Hi.
      * rewrite Hm in Hi. injection Hi as <- <- <-. exact Hge.
      * exact (IH i mp mc mf Hin Hi).
Qed.

Lemma nan_calories_done :
  forall (catalog : list Ingredient) (targetMacros : MacroTracking)
         (targetCalories : num) (s : SelectionState),
    st_calories s = NaN ->
    selectionStep catalog targetMacros targetCalories s = Done s.
Proof.
  intros catalog tm tc s H. unfold selectionStep. rewrite H.
  cbn [ltb]. now rewrite andb_false_r.
Qed.

Lemma enough_calories_done :
  forall (catalog : list Ingredient) (targetMacros : MacroTracking) (T k : Q)
         (s : SelectionState),
    st_calories s = Fin k -> (T * 0.95 <= k)%Q ->
    selectionStep catalog targetMacros (Fin T) s = Done s.
Proof.
  intros catalog tm T k s H Hk. unfold selectionStep. rewrite H.
  assert (E : (Fin k <? Fin T * 0.95) = false).
  { unfold mul, fin. apply not_true_is_false. intros Hlt.
    apply ltb_Fin in Hlt. rewrite Qred_correct in Hlt. lra. }
  rewrite E. now rewrite andb_false_r.
Qed.

(** On a catalog whose ingredients all have at least [delta] kcal per
    100 g, every iteration adds at least [delta / 100] kcal. *)
Section CaloricCatalog.

Variable catalog : list Ingredient.
Variable targetMacros : MacroTracking.
Variable delta : Q.

Hypothesis catalog_caloric : Forall caloric catalog.
Hypothesis delta_positive : (0 < delta)%Q.
Hypothesis delta_floor :
  forall i mp mc mf,
    In i catalog ->
    macros i = {| protein := Fin mp; carbs := Fin mc; fat := Fin mf |} ->
    (delta <= totalQ mp mc mf)%Q.

(** One more iteration: the running calories become [NaN], or grow by the
    calories of at least 1 g of the ingredient. *)
Lemma selectionStep_progress :
  forall (targetCalories : num) (s s' : SelectionState),
    accounted s ->
    selectionStep catalog targetMacros targetCalories s = Continue s' ->
    st_calories s' = NaN
    \/ (accounted s'
        /\ exists k k',
             st_calories s = Fin k /\ st_calories s' = Fin k'
             /\ (k + delta / 100 <= k')%Q).
Proof.
  intros tc s s' (p & c & f & Hm & Hk) Hstep.
  unfold selectionStep in Hstep.
  destruct (negb _ && _); [| discriminate].
  destruct (findBestIngredient _ _ _ _ _) as [[best score] |] eqn:Ebest;
    [| discriminate].
  apply findBestIngredient_In in Ebest.
  assert (Hbest : caloric best).
  { pose proof catalog_caloric as Hcat.
    rewrite Forall_forall in Hcat. now apply Hcat. }
  destruct (caloric_macros Hbest) as (mp & mc & mf & Hbm & _).
  pose proof (delta_floor best Ebest Hbm) as Hfloor.
  destruct (calculateOptimalAmount_range best (st_tracking s) (st_macros s)
              targetMacros (tc - st_calories s))
    as [Hnan | (a & Ha & Hrange)].
  - rewrite Hnan in Hstep. cbn [leb] in Hstep.
    unfold updateTracking in Hstep. injection Hstep as <-.
    left. cbn [st_calories]. unfold calculateTotalCalories.
    cbn [protein carbs fat]. cbn [div]. rewrite !mul_NaN_r, !add_NaN_r.
    reflexivity.
  - rewrite Ha in Hstep.
    assert (E : (Fin a <=? 0) = false).
    { apply not_true_is_false. intros Hle. apply leb_Fin in Hle. lra. }
    rewrite E in Hstep. unfold updateTracking in Hstep.
    injection Hstep as <-. right.
    rewrite Hm, Hbm. cbn [protein carbs fat st_calories st_macros].
    split.
    + exists (bumpQ p mp a), (bumpQ c mc a), (bumpQ f mf a).
      split; reflexivity.
    + exists (totalQ p c f),
             (totalQ (bumpQ p mp a) (bumpQ c mc a) (bumpQ f mf a)).
      split; [exact Hk |]. split; [reflexivity |].
      rewrite !totalQ_eq, !bumpQ_eq. rewrite totalQ_eq in Hfloor.
      assert (Hgain : (delta * (1 / 100)
                       <= (mp * 4 + mc * 4 + mf * 9) * (a / 100))%Q).
      { apply Qmult_le_compat_nonneg; split; try lra.
        - apply Qle_shift_div_l; [reflexivity | lra].
        - unfold Qdiv. apply Qmult_le_compat_r; [lra | easy]. }
      unfold Qdiv in *. lra.
Qed.

(** The loop ends within [n] iterations once the calories that remain up
    to 95 % of the target are at most [n] times the gain of an iteration. *)
Lemma selectionLoop_terminates :
  forall (T : Q) (n : nat) (s : SelectionState),
    st_calories s = NaN
    \/ (accounted s
        /\ exists k,
             st_calories s = Fin k
             /\ (T * 0.95 - k <= inject_Z (Z.of_nat n) * (delta / 100))%Q) ->
    exists s', selectionLoop n catalog targetMacros (Fin T) s = Some s'.
Proof.
  intros T.
  assert (Hnan : forall n s,
             st_calories s = NaN ->
             exists s', selectionLoop n catalog targetMacros (Fin T) s = Some s').
  { intros n s H. exists s.
    destruct n; cbn [selectionLoop]; now rewrite nan_calories_done. }
  induction n as [| n IH]; intros s [H | (Hacc & k & Hk & Hmeasure)];
    try (now apply Hnan).
  - exists s. cbn [selectionLoop].
    rewrite (@enough_calories_done catalog targetMacros T k s Hk);
      [reflexivity |].
    change (inject_Z (Z.of_nat 0)) with 0%Q in Hmeasure. lra.
  - cbn [selectionLoop].
    destruct (selectionStep catalog targetMacros (Fin T) s) as [s1 | s1]
      eqn:Estep.
    + now exists s1.
    + apply IH.
      destruct (@selectionStep_progress (Fin T) s s1 Hacc Estep)
        as [H | (Hacc1 & k0 & k1 & Hk0 & Hk1 & Hgain)]; [now left |].
      right. split; [exact Hacc1 |]. exists k1. split; [exact Hk1 |].
      rewrite Hk in Hk0. injection Hk0 as <-.
      rewrite Nat2Z.inj_succ in Hmeasure. unfold Z.succ in Hmeasure.
      rewrite inject_Z_plus in Hmeasure.
      change (inject_Z 1) with 1%Q in Hmeasure. lra.
Qed.

Lemma reachable_accounted :
  forall (nutrients0 : list Nutrient) (targetCalories : num)
         (s : SelectionState),
    reachable catalog nutrients0 targetMacros targetCalories s ->
    st_calories s = NaN \/ accounted s.
Proof.
  intros nutrients0 tc s Hreach.
  induction Hreach as [| s s' _ IH Hstep].
  - right. exists 0%Q, 0%Q, 0%Q. split; reflexivity.
  - destruct IH as [Hnan | Hacc].
    + rewrite nan_calories_done in Hstep by exact Hnan. discriminate.
    + destruct (@selectionStep_progress tc s s' Hacc Hstep) as [H | [H _]];
        [now left | now right].
Qed.

End CaloricCatalog.

Lemma enough_iterations (x : Q) :
  (x <= inject_Z (Z.of_nat (Z.to_nat (Qceiling x))))%Q.
Proof.
  apply Qle_trans with (inject_Z (Qceiling x)); [apply Qle_ceiling |].
  rewrite <- Zle_Qle. lia.
Qed.

Lemma refine_passes :
  forall (n : nat) (selected : list IngredientSelection)
         (currentMacros targetMacros : MacroTracking),
    (passes (refine n selected currentMacros targetMacros) <= n)%nat.
Proof.
  induction n as [| n IH]; intros selected cm tm; cbn [refine].
  - cbn. lia.
  - cbv zeta. destruct (_ && _); cbn [passes]; [lia |].
    match goal with
    | |- (S (passes (refine n ?l ?m tm)) <= S n)%nat =>
        specialize (IH l m tm); lia
    end.
Qed.

Lemma optimizeMacroBalance_passes :
  forall (selected : list IngredientSelection)
         (currentMacros targetMacros : MacroTracking) (targetCalories : num),
    (passes (optimizeMacroBalance selected currentMacros targetMacros
               targetCalories) <= 10)%nat.
Proof.
  intros selected cm tm tc. unfold optimizeMacroBalance. cbv zeta.
  destruct (_ >? _); [cbn; lia | apply refine_passes].
Qed.

(** The termination result below is one of exact arithmetic: there an
    iteration on a catalog of ingredients with calories always raises the
    running calories.  On binary64 the increment can be absorbed: 10 g of an
    ingredient that holds 5e-324 g of protein per 100 g (it has calories per
    100 g) add 0 to the running protein, and the running calories stay 0. *)
Example increment_absorbed_on_binary64 :
  let tiny := 0x1p-1074%float in
  PrimFloat.ltb 0 (F64.calculateTotalCalories tiny 0 0) = true
  /\ PrimFloat.eqb (F64.addMacro 0 tiny 10) 0 = true
  /\ PrimFloat.eqb
       (F64.calculateTotalCalories (F64.addMacro 0 tiny 10) 0 0) 0 = true.
Proof. repeat split. Qed.

(** C1, as the code has it.  In exact arithmetic (the rounding of binary64
    left aside), for a finite calorie target and a catalog whose
    ingredients all have finite non-negative macros and some calories, the
    selection loop of [selectOptimalIngredients] ends; each of its
    iterations strictly increases the running calories (so strictly
    decreases the remaining ones) or makes them [NaN], which ends the loop.
    Whatever the input and the arithmetic, the macro balancer runs at most
    10 refinement passes. *)
Theorem selection_terminates_on_caloric_catalog :
  forall (catalog : list Ingredient) (nutrients0 : list Nutrient)
         (targetMacros : MacroTracking) (T : Q),
    Forall caloric catalog ->
    (exists fuel result,
        selectOptimalIngredients fuel catalog nutrients0 targetMacros (Fin T)
        = Some result)
    /\ (forall s s',
          reachable catalog nutrients0 targetMacros (Fin T) s ->
          selectionStep catalog targetMacros (Fin T) s = Continue s' ->
          st_calories s' = NaN \/ st_calories s < st_calories s')
    /\ (forall selected currentMacros targetMacros' targetCalories,
          (passes (optimizeMacroBalance selected currentMacros targetMacros'
                     targetCalories) <= 10)%nat).
Proof.
  intros catalog nutrients0 tm T Hcat.
  destruct (caloric_floor Hcat) as (delta & Hpos & Hfloor).
  split; [| split].
  - set (n := Z.to_nat (Qceiling (T * 0.95 / (delta / 100)))).
    destruct (@selectionLoop_terminates catalog tm delta Hcat Hpos Hfloor T n
                (initialState nutrients0)) as [s' Hs'].
    { right. split.
      - exists 0%Q, 0%Q, 0%Q. split; reflexivity.
      - exists 0%Q. split; [reflexivity |].
        pose proof (enough_iterations (T * 0.95 / (delta / 100))) as Hn.
        fold n in Hn.
        assert (Hd : (0 < delta / 100)%Q)
          by (apply Qlt_shift_div_l; [reflexivity | lra]).
        apply (Qmult_le_compat_r _ _ (delta / 100)) in Hn; [| lra].
        assert (Hx : (T * 0.95 / (delta / 100) * (delta / 100) == T * 0.95)%Q)
          by (field; lra).
        rewrite Hx in Hn. lra. }
    exists n. eexists. unfold selectOptimalIngredients. rewrite Hs'.
    reflexivity.
  - intros s s' Hreach Hstep.
    destruct (@reachable_accounted catalog tm delta Hcat Hpos Hfloor
                nutrients0 (Fin T) s Hreach) as [Hnan | Hacc].
    + rewrite nan_calories_done in Hstep by exact Hnan. discriminate.
    + destruct (@selectionStep_progress catalog tm delta Hcat Hpos Hfloor
                  (Fin T) s s' Hacc Hstep)
        as [H | (_ & k & k' & Hk & Hk' & Hgain)]; [now left |].
      right. rewrite Hk, Hk'. apply ltb_Fin.
      assert (Hd : (0 < delta / 100)%Q)
        by (apply Qlt_shift_div_l; [reflexivity | lra]).
      lra.
  - apply optimizeMacroBalance_passes.
Qed.

Lemma selection_terminates_on_caloric_catalog_witness :
  (exists fuel result,
      selectOptimalIngredients fuel
        [Scenario.chicken; Scenario.oats; Scenario.spinach]
        [Scenario.vitaminC] Scenario.targetMacros (Fin 2707.85)
      = Some result)
  /\ (forall s s',
        reachable [Scenario.chicken; Scenario.oats; Scenario.spinach]
          [Scenario.vitaminC] Scenario.targetMacros (Fin 2707.85) s ->
        selectionStep [Scenario.chicken; Scenario.oats; Scenario.spinach]
          Scenario.targetMacros (Fin 2707.85) s = Continue s' ->
        st_calories s' = NaN \/ st_calories s < st_calories s')
  /\ (forall selected currentMacros targetMacros' targetCalories,
        (passes (optimizeMacroBalance selected currentMacros targetMacros'
                   targetCalories) <= 10)%nat).
Proof.
  apply (@selection_terminates_on_caloric_catalog
           [Scenario.chicken; Scenario.oats; Scenario.spinach]
           [Scenario.vitaminC] Scenario.targetMacros 2707.85).
  repeat (apply Forall_cons;
          [unfold caloric; repeat split; eexists;
           (split; [reflexivity | vm_compute; first [reflexivity | discriminate]])
          |]).
  apply Forall_nil.
Defined.

(** ** The empty meal list *)

Lemma refine_ingredients :
  forall (n : nat) (selected : list IngredientSelection)
         (currentMacros targetMacros : MacroTracking),
    map sel_ingredient
      (balanced_selection (refine n selected currentMacros targetMacros))
    = map sel_ingredient selected.
Proof.
  assert (Hadjust : forall pd cd fd s,
             sel_ingredient (adjustSelection pd cd fd s) = sel_ingredient s).
  { intros pd cd fd s. unfold adjustSelection. cbv zeta.
    repeat match goal with
           | |- context [if ?c then _ else _] => destruct c
           end; reflexivity. }
  induction n as [| n IH]; intros selected cm tm; cbn [refine].
  - reflexivity.
  - cbv zeta. destruct (_ && _); cbn [balanced_selection]; rewrite ?IH;
      rewrite map_map; apply map_ext; intros s; apply Hadjust.
Qed.

(** The balancer changes amounts only: the ingredients of the selection and
    their order stay. *)
Lemma optimizeMacroBalance_ingredients :
  forall (selected : list IngredientSelection)
         (currentMacros targetMacros : MacroTracking) (targetCalories : num),
    map sel_ingredient
      (balanced_selection
         (optimizeMacroBalance selected currentMacros targetMacros
            targetCalories))
    = map sel_ingredient selected.
Proof.
  intros selected cm tm tc. unfold optimizeMacroBalance. cbv zeta.
  destruct (_ >? _); [| apply refine_ingredients].
  cbn [balanced_selection]. rewrite map_map. apply map_ext.
  intros s. unfold scaleSelection.
  now destruct (isSupplement (sel_ingredient s)).
Qed.

(** With nothing to choose from, or nothing to cover, the selection loop
    makes no pick, whatever the number of iterations it may run. *)
Lemma selection_without_pick :
  forall (fuel : nat) (catalog : list Ingredient) (nutrients0 : list Nutrient)
         (targetMacros : MacroTracking) (targetCalories : num),
    catalog = [] \/ nutrients0 = [] ->
    selectOptimalIngredients fuel catalog nutrients0 targetMacros
      targetCalories = Some [].
Proof.
  intros fuel catalog nutrients0 tm tc H.
  unfold selectOptimalIngredients.
  assert (Hstep : selectionStep catalog tm tc (initialState nutrients0)
                  = Done (initialState nutrients0)).
  { destruct H as [-> | ->].
    - unfold selectionStep. destruct (negb _ && _); reflexivity.
    - reflexivity. }
  assert (Hloop : selectionLoop fuel catalog tm tc (initialState nutrients0)
                  = Some (initialState nutrients0)).
  { destruct fuel; cbn [selectionLoop]; now rewrite Hstep. }
  rewrite Hloop. f_equal.
  pose proof (optimizeMacroBalance_ingredients []
                (st_macros (initialState nutrients0)) tm tc) as Hb.
  cbn [st_selected initialState] in *.
  destruct (balanced_selection _); [reflexivity | discriminate].
Qed.

(** C10, as the code has it.  With an empty meal list the greedy
    [distributeToMeals] throws, whatever the selection: the reduction that
    looks for the largest meal runs on the empty list without initial
    value.  [getDiet] then never returns a diet, with zero meals or
    otherwise; but it runs its selection loop first, so it throws exactly
    when that loop ends, and has no result while the loop runs.  The loop
    ends at once, and [getDiet] throws, when the catalog or the nutrient
    list is empty. *)
Theorem empty_meal_list_throws :
  forall (sort : list IngredientSelection -> list IngredientSelection)
         (selectedIngredients : list IngredientSelection) (targetCalories : num)
         (fuel : nat) (now : num) (input : GetDietInput),
    input_meals input = [] ->
    let tdee :=
      calculateTDEE (input_sex input) (input_age input)
        (input_bodyWeight input) (input_bodyFatPercentage input)
        (input_activityLevel input) in
    let calories :=
      adjustCaloriesForGoal now tdee (input_goal input)
        (input_bodyWeight input) in
    let selection :=
      selectOptimalIngredients fuel (input_ingredients input)
        (input_nutrients input)
        (calculateTargetMacros calories (input_targetMacros input)) calories in
    distributeToMealsWith sort selectedIngredients (input_meals input)
      targetCalories = Throw TypeError
    /\ (forall diet, getDiet fuel now input <> Some (Ok diet))
    /\ (selection = None -> getDiet fuel now input = None)
    /\ (selection <> None -> getDiet fuel now input = Some (Throw TypeError))
    /\ (input_ingredients input = [] \/ input_nutrients input = [] ->
        getDiet fuel now input = Some (Throw TypeError)).
Proof.
  intros sort sel tc fuel now input Hmeals tdee calories selection.
  rewrite Hmeals. split; [reflexivity |].
  assert (Hget : getDiet fuel now input
                 = match selection with
                   | None => None
                   | Some _ => Some (Throw TypeError)
                   end).
  { unfold getDiet. cbv zeta. fold tdee. fold calories. fold selection.
    rewrite Hmeals. now destruct selection. }
  rewrite Hget. repeat split.
  - intros diet. destruct selection; discriminate.
  - now intros ->.
  - destruct selection; [reflexivity | congruence].
  - intros H. subst selection.
    now rewrite (selection_without_pick fuel _ _ H).
Qed.

Lemma empty_meal_list_throws_witness :
  getDiet 30 0
    (Scenario.person [Scenario.chicken; Scenario.oats; Scenario.spinach]
       [Scenario.vitaminC] [])
  = Some (Throw TypeError).
Proof.
  refine (proj1 (proj2 (proj2 (proj2
            (@empty_meal_list_throws sortByMealTiming [] 0 30 0
               (Scenario.person
                  [Scenario.chicken; Scenario.oats; Scenario.spinach]
                  [Scenario.vitaminC] [])
               eq_refl)))) _).
  vm_compute. discriminate.
Defined.

(** C10 fails on the code as far as [getDiet] goes: for the person of
    scenario 1, a catalog that holds only water, one nutrient to cover and
    no meal, the selection loop never ends, so [getDiet] has no result,
    whatever the number of iterations it is given: it does not throw. *)
Lemma empty_meal_list_without_result :
  ~ (exists fuel outcome,
        getDiet fuel 0
          (Scenario.person [Scenario.water] [Scenario.vitaminC] [])
        = Some outcome).
Proof.
  intros (fuel & outcome & H).
  change (getDiet fuel 0
            (Scenario.person [Scenario.water] [Scenario.vitaminC] []))
    with (match
            selectOptimalIngredients fuel [Scenario.water] [Scenario.vitaminC]
              Scenario.targetMacros Scenario.targetCalories
          with
          | None => None
          | Some selected =>
              Some (distributeToMeals selected [] Scenario.targetCalories)
          end) in H.
  unfold selectOptimalIngredients, initialState in H.
  rewrite water_loop in H. discriminate.
Qed.

(** ** The tracking over the iterations of the loop *)

Lemma clamp_nan (lo hi : Q) (x : num) :
  Num.max (Fin lo) (Num.min (Fin hi) x) = NaN -> x = NaN.
Proof.
  destruct x as [q | | |]; [| | | reflexivity];
    unfold Num.min, Num.max; cbn [is_nan orb].
  - destruct (Fin q <? Fin hi); cbn [is_nan orb];
      match goal with
      | |- context [if ?c then _ else _] => destruct c
      end; discriminate.
  - cbn [ltb is_nan orb]. destruct (negb (Qle_bool hi lo)); discriminate.
  - cbn [ltb is_nan orb]. discriminate.
Qed.

Lemma is_nan_min (x y : num) :
  is_nan x = false -> is_nan y = false -> is_nan (Num.min x y) = false.
Proof.
  intros Hx Hy. unfold Num.min. rewrite Hx, Hy. cbn [orb].
  now destruct (y <? x).
Qed.

Lemma is_nan_round (x : num) : is_nan (round x) = is_nan x.
Proof. now destruct x. Qed.

Lemma is_nan_mul_pos (x : num) (k : Q) :
  (0 < k)%Q -> is_nan x = false -> is_nan (x * Fin k) = false.
Proof.
  intros Hk Hx. apply Qgt_alt in Hk.
  destruct x; try discriminate; try reflexivity;
    unfold mul, by_sign; now rewrite Hk.
Qed.

Lemma positive_not_nan (x : num) : (x >? 0) = true -> is_nan x = false.
Proof. now destruct x. Qed.

Lemma min_positive (x y : num) :
  (x >? 0) = true -> (y >? 0) = true -> (Num.min x y >? 0) = true.
Proof.
  intros Hx Hy. unfold Num.min.
  rewrite (positive_not_nan _ Hx), (positive_not_nan _ Hy). cbn [orb].
  now destruct (y <? x).
Qed.

Lemma min_list_positive (limits : list num) :
  Forall (fun x => (x >? 0) = true) limits -> (min_list limits >? 0) = true.
Proof.
  induction 1 as [| x rest Hx _ IH]; [reflexivity |].
  cbn [min_list fold_right]. now apply min_positive.
Qed.

Lemma pushLimit_positive (m target current : num) (limits : list num) :
  Forall (fun x => (x >? 0) = true) limits ->
  Forall (fun x => (x >? 0) = true) (pushLimit m target current limits).
Proof.
  intros H. unfold pushLimit. cbv zeta.
  destruct (m >? 0); [| exact H].
  destruct (_ >? 0) eqn:E; [| exact H].
  apply Forall_app. split; [exact H | now repeat constructor].
Qed.

Lemma calculateMacroLimitedAmount_not_nan :
  forall (ingredientMacros : Macros) (currentMacros targetMacros : MacroTracking),
    is_nan (calculateMacroLimitedAmount ingredientMacros currentMacros
              targetMacros) = false.
Proof.
  intros im cm tm. unfold calculateMacroLimitedAmount. cbv zeta.
  destruct (0 <? List.length _)%nat; [| reflexivity].
  apply is_nan_mul_pos; [reflexivity |].
  apply positive_not_nan, min_list_positive.
  repeat apply pushLimit_positive. constructor.
Qed.

(** What is still needed of a nutrient under 100 % is positive. *)
Lemma needed_positive (t : NutrientTracking) :
  consistent t -> (percentage t <? 100) = true ->
  exists d, nrv (nt_nutrient t) - consumed t = Fin d /\ (0 < d)%Q.
Proof.
  intros (c & n & p & Hc & Hn & Hp & Hpos & Hpct) Hlt.
  rewrite Hp in Hlt. apply ltb_Fin in Hlt. rewrite Hpct in Hlt.
  rewrite Hc, Hn. eexists. split; [reflexivity |].
  rewrite !Qred_correct.
  assert (H : (c < n)%Q).
  { apply Qnot_le_lt. intros Hle.
    assert (Hq : (1 <= c / n)%Q)
      by (apply Qle_shift_div_l; [exact Hpos | lra]).
    lra. }
  lra.
Qed.

Lemma amountToMeetNeed_not_nan (d m : Q) :
  (0 < d)%Q -> (0 <= m)%Q -> is_nan (((Fin d / Fin m) * 100) * 1.2) = false.
Proof.
  intros Hd Hm.
  apply is_nan_mul_pos; [reflexivity |].
  apply is_nan_mul_pos; [reflexivity |].
  unfold div. destruct (Qeq_bool m 0); [| reflexivity].
  unfold by_sign. apply Qgt_alt in Hd. now rewrite Hd.
Qed.

Lemma initialAmount_not_nan (m : Macros) (r : Q) :
  nonNegative (protein m) -> nonNegative (carbs m) -> nonNegative (fat m) ->
  (0 < r)%Q ->
  is_nan ((Fin r * 0.15) / (calculateCaloriesFromMacros m / 100)) = false.
Proof.
  intros (mp & Hp & _) (mc & Hc & _) (mf & Hf & _) Hr.
  destruct m as [p c f]. cbn [protein carbs fat] in *. subst p c f.
  change (calculateCaloriesFromMacros
            {| protein := Fin mp; carbs := Fin mc; fat := Fin mf |})
    with (Fin (totalQ mp mc mf)).
  rewrite div_Fin_pos by reflexivity.
  change (Fin r * 0.15) with (Fin (Qred (r * 0.15))).
  unfold div. destruct (Qeq_bool _ 0); [| reflexivity].
  assert (H : (0 < Qred (r * 0.15))%Q) by (rewrite Qred_correct; lra).
  unfold by_sign. apply Qgt_alt in H. now rewrite H.
Qed.

Lemma nutrientLimits_not_nan :
  forall (tracking : list NutrientTracking)
         (ingredientNutrients : list IngredientNutrient) (start : num),
    Forall consistent tracking ->
    Forall (fun n => nonNegative (in_amount n)) ingredientNutrients ->
    is_nan start = false ->
    is_nan
      (fold_left
         (fun (optimalAmount : num) ingredientNutrient =>
            match find (tracks (nutrient_name (in_nutrient ingredientNutrient)))
                       tracking with
            | Some tracking0 =>
                if percentage tracking0 <? 100 then
                  let neededAmount :=
                    nrv (nt_nutrient tracking0) - consumed tracking0 in
                  let amountToMeetNeed :=
                    (neededAmount / in_amount ingredientNutrient) * 100 in
                  Num.min optimalAmount (amountToMeetNeed * 1.2)
                else optimalAmount
            | None => optimalAmount
            end)
         ingredientNutrients start) = false.
Proof.
  intros tracking ns start Htracking Hn. revert start.
  induction Hn as [| n rest (m & Hm & Hm0) _ IH]; intros start Hstart;
    [exact Hstart |].
  cbn [fold_left]. apply IH.
  destruct (find _ tracking) as [t |] eqn:Efind; [| exact Hstart].
  destruct (percentage t <? 100) eqn:Elt; [| exact Hstart].
  apply find_some in Efind. destruct Efind as [Hin _].
  rewrite Forall_forall in Htracking.
  destruct (needed_positive (Htracking t Hin) Elt) as (d & Hd & Hpos).
  cbv zeta. rewrite Hd, Hm.
  apply is_nan_min; [exact Hstart | now apply amountToMeetNeed_not_nan].
Qed.

Lemma calculateOptimalAmount_finite :
  forall (ingredient : Ingredient) (tracking : list NutrientTracking)
         (currentMacros targetMacros : MacroTracking) (r : Q),
    validIngredient ingredient ->
    Forall consistent tracking ->
    (0 < r)%Q ->
    exists a,
      calculateOptimalAmount ingredient tracking currentMacros targetMacros
        (Fin r) = Fin a
      /\ (1 <= a <= 500)%Q.
Proof.
  intros ingredient tracking cm tm r (Hp & Hc & Hf & Hn) Htracking Hr.
  destruct (calculateOptimalAmount_range ingredient tracking cm tm (Fin r))
    as [Hnan | H]; [| exact H].
  exfalso. unfold calculateOptimalAmount in Hnan. cbv zeta in Hnan.
  assert (Hx : forall lo hi x, is_nan x = false ->
                 Num.max (Fin lo) (Num.min (Fin hi) (round x)) <> NaN).
  { intros lo hi x Hx Hclamp. apply clamp_nan in Hclamp.
    rewrite <- is_nan_round, Hclamp in Hx. discriminate. }
  destruct (isSupplement ingredient); revert Hnan; apply Hx;
    (apply is_nan_min; [| apply calculateMacroLimitedAmount_not_nan]);
    (apply nutrientLimits_not_nan; [assumption | assumption |]);
    now apply initialAmount_not_nan.
Qed.

Lemma bumpQ_nonneg (x m a : Q) :
  (0 <= x)%Q -> (0 <= m)%Q -> (0 <= a)%Q -> (0 <= bumpQ x m a)%Q.
Proof.
  intros Hx Hm Ha. rewrite bumpQ_eq.
  assert (H : (0 <= m * (a / 100))%Q).
  { apply Qmult_le_0_compat; [exact Hm |].
    apply Qle_shift_div_l; [reflexivity | lra]. }
  lra.
Qed.

(** An iteration on a validated catalog keeps the invariant, and reduces no
    entry of the tracking. *)
Lemma selectionStep_sound :
  forall (catalog : list Ingredient) (targetMacros : MacroTracking) (T : Q)
         (s s' : SelectionState),
    Forall validIngredient catalog ->
    sound s ->
    selectionStep catalog targetMacros (Fin T) s = Continue s' ->
    sound s' /\ Forall2 notReduced (st_tracking s) (st_tracking s').
Proof.
  intros catalog tm T s s' Hcat
         (Htr & p & c & f & Hm & Hp & Hc & Hf & Hk) Hstep.
  unfold selectionStep in Hstep.
  destruct (negb _ && _) eqn:Econd; [| discriminate].
  apply andb_true_iff in Econd. destruct Econd as [_ Elt].
  rewrite Hk in Elt. unfold mul, fin in Elt. apply ltb_Fin in Elt.
  rewrite Qred_correct in Elt.
  pose proof (totalQ_eq p c f) as Htotal.
  rewrite Hk in Hstep.
  change (Fin T - Fin (totalQ p c f))
    with (Fin (Qred (T + Qred (- totalQ p c f)))) in Hstep.
  assert (Hr : (0 < Qred (T + Qred (- totalQ p c f)))%Q)
    by (rewrite !Qred_correct; lra).
  destruct (findBestIngredient _ _ _ _ _) as [[best score] |] eqn:Ebest;
    [| discriminate].
  apply findBestIngredient_In in Ebest.
  assert (Hbest : validIngredient best)
    by (rewrite Forall_forall in Hcat; now apply Hcat).
  destruct (@calculateOptimalAmount_finite best (st_tracking s) (st_macros s)
              tm _ Hbest Htr Hr) as (a & Ha & Hrange).
  rewrite Ha in Hstep.
  assert (E : (Fin a <=? 0) = false).
  { apply not_true_is_false. intros Hle. apply leb_Fin in Hle. lra. }
  rewrite E in Hstep.
  assert (Hcall : validCall (best, Fin a)).
  { split; [exists a; split; [reflexivity | lra] | apply Hbest]. }
  pose proof (@updateTracking_advances best (Fin a) (st_tracking s)
                (st_macros s) Hcall Htr) as Hadv.
  cbv zeta in Hadv.
  destruct Hbest as ((mp & Hmp & Hmp0) & (mc & Hmc & Hmc0)
                     & (mf & Hmf & Hmf0) & _).
  unfold updateTracking in Hstep, Hadv. cbn [fst] in Hadv.
  injection Hstep as <-. cbn [st_tracking st_macros st_calories].
  split; [| apply Hadv]. split; [apply Hadv |].
  exists (bumpQ p mp a), (bumpQ c mc a), (bumpQ f mf a).
  rewrite Hm, Hmp, Hmc, Hmf. cbn [protein carbs fat].
  repeat split; try (apply bumpQ_nonneg; lra).
Qed.

Lemma reachable_sound :
  forall (catalog : list Ingredient) (nutrients0 : list Nutrient)
         (targetMacros : MacroTracking) (T : Q) (s : SelectionState),
    Forall validNutrient nutrients0 ->
    Forall validIngredient catalog ->
    reachable catalog nutrients0 targetMacros (Fin T) s ->
    sound s.
Proof.
  intros catalog nutrients0 tm T s Hn Hcat Hreach.
  induction Hreach as [| s s' _ IH Hstep].
  - split; [now apply initializeNutrientTracking_consistent |].
    exists 0%Q, 0%Q, 0%Q. repeat split; lra.
  - exact (proj1 (@selectionStep_sound _ _ _ _ _ Hcat IH Hstep)).
Qed.

(** C6.  The tracking is never reduced.  From the initial tracking of
    nutrients with positive NRVs, after any calls of [updateTracking] with
    non-negative amounts and non-negative nutrient amounts per 100 g, one
    more such call leaves every tracked nutrient with a consumed value and a
    percentage greater than or equal to those before the call.  The
    iterations of the selection loop are such calls: on a catalog of finite
    non-negative macros and nutrient amounts and for a finite calorie
    target, every iteration leaves the consumed value and the percentage of
    every tracked nutrient greater than or equal to what they were. *)
Theorem tracking_never_reduced :
  forall nutrients0 : list Nutrient,
    Forall validNutrient nutrients0 ->
    (forall (calls : list (Ingredient * num)) (ingredient : Ingredient)
            (amount : num) (macros0 : MacroTracking),
        Forall validCall calls ->
        validCall (ingredient, amount) ->
        Forall2 notReduced
          (trackingAfter nutrients0 calls)
          (fst (updateTracking ingredient amount
                  (trackingAfter nutrients0 calls) macros0)))
    /\ (forall (catalog : list Ingredient) (targetMacros : MacroTracking)
               (T : Q) (s s' : SelectionState),
          Forall validIngredient catalog ->
          reachable catalog nutrients0 targetMacros (Fin T) s ->
          selectionStep catalog targetMacros (Fin T) s = Continue s' ->
          Forall2 notReduced (st_tracking s) (st_tracking s')).
Proof.
  intros nutrients0 Hn. split.
  - intros calls ingredient amount macros0 Hcalls Hcall.
    apply updateTracking_advances; [exact Hcall |].
    now apply trackingAfter_consistent.
  - intros catalog tm T s s' Hcat Hreach Hstep.
    apply (@selectionStep_sound _ _ _ _ _ Hcat
             (@reachable_sound _ _ _ _ _ Hn Hcat Hreach) Hstep).
Qed.

Lemma tracking_never_reduced_witness :
  Forall2 notReduced
    (trackingAfter [Scenario.vitaminC; Scenario.vitaminD]
       [(Scenario.spinach, Fin 100); (Scenario.multivitamin, Fin 2)])
    (fst (updateTracking Scenario.spinach 50
            (trackingAfter [Scenario.vitaminC; Scenario.vitaminD]
               [(Scenario.spinach, Fin 100); (Scenario.multivitamin, Fin 2)])
            {| protein := 0; carbs := 0; fat := 0 |})).
Proof.
  apply (@tracking_never_reduced [Scenario.vitaminC; Scenario.vitaminD]).
  - repeat constructor; eexists; (split; [reflexivity | reflexivity]).
  - repeat constructor; eexists; (split; [reflexivity | discriminate]).
  - repeat constructor; eexists; (split; [reflexivity | discriminate]).
Defined.

(* ================================================================== *)
(** * Further properties of the code *)

(** ** The order on numbers *)

Lemma ltb_irrefl (x : num) : (x <? x) = false.
Proof.
  destruct x as [a | | |]; try reflexivity.
  apply not_true_is_false. intros H. apply ltb_Fin in H.
  exact (Qlt_irrefl _ H).
Qed.

Lemma ltb_leb_false (x y : num) : (x <? y) = true -> (y <=? x) = false.
Proof.
  destruct x as [a | | |], y as [b | | |]; try discriminate; try reflexivity.
  intros H. apply ltb_Fin in H. apply not_true_is_false. intros Hle.
  apply leb_Fin in Hle. lra.
Qed.

Lemma ltb_trans (x y z : num) :
  (x <? y) = true -> (y <? z) = true -> (x <? z) = true.
Proof.
  destruct x as [a | | |], y as [b | | |], z as [c | | |];
    try discriminate; try reflexivity.
  rewrite !ltb_Fin. apply Qlt_trans.
Qed.

(** [y] is not above [x], and [x] is below [z]: [y] is below [z], or [NaN]. *)
Lemma not_above_below (x y z : num) :
  is_nan x = false -> (x <? y) = false -> (x <? z) = true ->
  (z <=? y) = false.
Proof.
  destruct x as [a | | |], y as [b | | |], z as [c | | |];
    try discriminate; try reflexivity.
  intros _ H1 H2. apply ltb_Fin in H2. apply not_true_is_false.
  intros H3. apply leb_Fin in H3.
  assert (H : (a < b)%Q) by lra. apply ltb_Fin in H. congruence.
Qed.

Lemma not_above_trans (x y z : num) :
  is_nan x = false -> (x <? y) = false -> (x <? z) = true ->
  (z <? y) = false.
Proof.
  destruct x as [a | | |], y as [b | | |], z as [c | | |];
    try discriminate; try reflexivity.
  intros _ H1 H2. apply ltb_Fin in H2. apply not_true_is_false.
  intros H3. apply ltb_Fin in H3.
  assert (H : (a < b)%Q) by lra. apply ltb_Fin in H. congruence.
Qed.

Lemma ltb_not_nan_r (x y : num) : (x <? y) = true -> is_nan y = false.
Proof. destruct x, y; try discriminate; reflexivity. Qed.

Lemma max_ge_l (x y : num) :
  is_nan x = false -> is_nan y = false -> x <= Num.max x y.
Proof.
  intros Hx Hy. unfold le, Num.max. rewrite Hx, Hy. cbn [orb].
  destruct (x <? y) eqn:E.
  - destruct x as [a | | |], y as [b | | |]; try discriminate;
      try reflexivity.
    apply ltb_Fin in E. apply leb_Fin. lra.
  - destruct x as [a | | |]; try discriminate; try reflexivity.
    apply le_refl_Fin.
Qed.

Lemma max_ge_r (x y : num) :
  is_nan x = false -> is_nan y = false -> y <= Num.max x y.
Proof.
  intros Hx Hy. unfold le, Num.max. rewrite Hx, Hy. cbn [orb].
  destruct (x <? y) eqn:E.
  - destruct y as [b | | |]; try discriminate; try reflexivity.
    apply le_refl_Fin.
  - destruct x as [a | | |], y as [b | | |]; try discriminate;
      try reflexivity.
    apply leb_Fin. apply Qnot_lt_le. intros H. apply ltb_Fin in H.
    congruence.
Qed.

(** ** Energy model *)

(** X1.  For a fat-loss goal and a TDEE that is not [NaN],
    [adjustCaloriesForGoal] never returns less than the minimum intake (1200
    kcal under 70 kg, 1500 kcal otherwise) nor less than 80 % of the TDEE,
    and it returns one of the two. *)
Theorem lose_fat_never_below_minimum :
  forall (now tdee targetBodyFatPercentage targetDate bodyWeight : num),
    is_nan tdee = false ->
    let calories :=
      adjustCaloriesForGoal now tdee
        (LoseFat targetBodyFatPercentage targetDate) bodyWeight in
    let minIntake : num := if bodyWeight <? 70 then 1200 else 1500 in
    minIntake <= calories
    /\ tdee * 0.8 <= calories
    /\ (calories = minIntake \/ calories = tdee * 0.8).
Proof.
  intros now tdee tbf date bw Htdee calories minIntake.
  assert (H8 : is_nan (tdee * 0.8) = false)
    by (apply is_nan_mul_pos; [reflexivity | exact Htdee]).
  assert (Hmin : is_nan minIntake = false)
    by (subst minIntake; now destruct (bw <? 70)).
  subst calories. cbn [adjustCaloriesForGoal]. cbv zeta. fold minIntake.
  repeat split.
  - now apply max_ge_r.
  - now apply max_ge_l.
  - unfold Num.max. rewrite H8, Hmin. cbn [orb].
    destruct (tdee * 0.8 <? minIntake); [now left | now right].
Qed.

Lemma lose_fat_never_below_minimum_witness :
  Fin 1500 <= adjustCaloriesForGoal 0 1600 (LoseFat 12 1000) 80
  /\ Fin 1600 * 0.8 <= adjustCaloriesForGoal 0 1600 (LoseFat 12 1000) 80
  /\ (adjustCaloriesForGoal 0 1600 (LoseFat 12 1000) 80 = Fin 1500
      \/ adjustCaloriesForGoal 0 1600 (LoseFat 12 1000) 80 = Fin 1600 * 0.8).
Proof.
  apply (@lose_fat_never_below_minimum 0 1600 12 1000 80).
  reflexivity.
Defined.

(** X2.  The copy of [adjustCaloriesForGoal] in [dietOptimizerLPSimple.ts]
    returns what the one of [dietOptimizer.ts] returns, whatever the clock
    reads: both selectors aim at the same calories and macro grams. *)
Theorem selectors_share_targets :
  forall (now tdee bodyWeight : num) (goal : Goal) (targetMacros : TargetMacros),
    LP.adjustCaloriesForGoal tdee goal bodyWeight
    = adjustCaloriesForGoal now tdee goal bodyWeight
    /\ calculateTargetMacros
         (LP.adjustCaloriesForGoal tdee goal bodyWeight) targetMacros
       = calculateTargetMacros
           (adjustCaloriesForGoal now tdee goal bodyWeight) targetMacros.
Proof.
  intros now tdee bw goal tm.
  assert (H : LP.adjustCaloriesForGoal tdee goal bw
              = adjustCaloriesForGoal now tdee goal bw)
    by (destruct goal; reflexivity).
  split; [exact H | now rewrite H].
Qed.

(** X3.  The macro grams that [calculateTargetMacros] returns carry the
    calories they were computed from: when the three finite percentages add
    up to 100, protein * 4 + carbs * 4 + fat * 9 of the result is the calorie
    target again. *)
Theorem target_macros_carry_the_calories :
  forall calories p c f : Q,
    (p + c + f == 100)%Q ->
    (calculateTotalCalories
       (calculateTargetMacros (Fin calories)
          {| proteinPercentage := Fin p; carbsPercentage := Fin c;
             fatPercentage := Fin f |})
     === Fin calories) = true.
Proof.
  intros calories p c f Hsum.
  unfold calculateTargetMacros, calculateTotalCalories.
  cbn [proteinPercentage carbsPercentage fatPercentage protein carbs fat].
  unfold mul at 4 5 6. unfold fin.
  rewrite !div_Fin_pos by reflexivity.
  unfold mul, add, fin, eqb.
  apply Qeq_bool_iff. rewrite !Qred_correct.
  transitivity (calories * (p + c + f) / 100)%Q; [field |].
  rewrite Hsum. field.
Qed.

Lemma target_macros_carry_the_calories_witness :
  (calculateTotalCalories
     (calculateTargetMacros (Fin 2707.85)
        {| proteinPercentage := Fin 30; carbsPercentage := Fin 45;
           fatPercentage := Fin 25 |})
   === Fin 2707.85) = true.
Proof.
  apply (@target_macros_carry_the_calories 2707.85 30 45 25).
  reflexivity.
Defined.

(** ** Greedy selector *)

(** X4.  Whatever the catalog, the tracking and the targets,
    [calculateOptimalAmount] returns [NaN] or an amount within the practical
    limits: 1 g to 10 g for a supplement, 5 g to 500 g for a food. *)
Theorem optimal_amount_within_limits :
  forall (ingredient : Ingredient) (tracking : list NutrientTracking)
         (currentMacros targetMacros : MacroTracking) (remaining : num),
    let amount :=
      calculateOptimalAmount ingredient tracking currentMacros targetMacros
        remaining in
    amount = NaN
    \/ (if isSupplement ingredient
        then Fin 1 <= amount /\ amount <= Fin 10
        else Fin 5 <= amount /\ amount <= Fin 500).
Proof.
  intros ingredient tracking cm tm remaining amount. subst amount.
  unfold calculateOptimalAmount. cbv zeta.
  match goal with
  | |- context [round ?x] => generalize (round x)
  end.
  intros x. destruct (isSupplement ingredient).
  - destruct (@clamp_range 1 10 x) as [H | (a & H & Ha)]; [lra | now left |].
    right. rewrite H. split; apply leb_Fin; lra.
  - destruct (@clamp_range 5 500 x) as [H | (a & H & Ha)]; [lra | now left |].
    right. rewrite H. split; apply leb_Fin; lra.
Qed.

(** An empty selection gives every meal an empty list. *)
Lemma distributeToMeals_nothing :
  forall (meals0 : list Meal) (targetCalories : num),
    meals0 <> [] ->
    distributeToMeals [] meals0 targetCalories
    = Ok {| meals :=
              map (fun m => {| meal := m; ingredients := [] |}) meals0 |}.
Proof.
  intros meals0 tc Hmeals.
  unfold distributeToMeals, distributeToMealsWith.
  change (sortByMealTiming []) with (@nil IngredientSelection).
  assert (Hfill : forall ms tc0,
             fillMeals ms tc0 []
             = (map (fun m => {| meal := m; ingredients := [] |}) ms, [])).
  { induction ms as [| m rest IH]; intros tc0; cbn [fillMeals fillMeal map].
    - reflexivity.
    - now rewrite IH. }
  rewrite Hfill.
  destruct (largestMealIndex_nonempty Hmeals) as [index ->].
  f_equal. f_equal. cbn [leftovers flat_map].
  generalize meals0. clear.
  intros meals0. revert index.
  induction meals0 as [| m rest IH]; intros [| index]; cbn [map pushToMeal];
    try reflexivity.
  now rewrite IH.
Qed.

(** X5.  With an empty catalog the selection loop stops at once, whatever
    the number of iterations it may run: [selectOptimalIngredients] returns
    the empty selection, and [getDiet] on a non-empty meal list returns every
    meal with no ingredient. *)
Theorem empty_catalog_gives_empty_meals :
  forall (fuel : nat) (now : num) (input : GetDietInput),
    input_ingredients input = [] ->
    input_meals input <> [] ->
    (forall nutrients0 targetMacros targetCalories,
        selectOptimalIngredients fuel [] nutrients0 targetMacros targetCalories
        = Some [])
    /\ getDiet fuel now input
       = Some (Ok {| meals :=
                       map (fun m => {| meal := m; ingredients := [] |})
                         (input_meals input) |}).
Proof.
  intros fuel now input Hcat Hmeals.
  assert (Hsel : forall nutrients0 tm tc,
             selectOptimalIngredients fuel [] nutrients0 tm tc = Some []).
  { intros nutrients0 tm tc. unfold selectOptimalIngredients.
    assert (Hloop : selectionLoop fuel [] tm tc (initialState nutrients0)
                    = Some (initialState nutrients0)).
    { destruct fuel; cbn [selectionLoop]; unfold selectionStep;
        destruct (negb _ && _); reflexivity. }
    rewrite Hloop. f_equal.
    pose proof (optimizeMacroBalance_ingredients []
                  (st_macros (initialState nutrients0)) tm tc) as H.
    cbn [st_selected initialState] in *.
    destruct (balanced_selection _); [reflexivity | discriminate]. }
  split; [exact Hsel |].
  unfold getDiet. rewrite Hcat, Hsel. f_equal.
  now apply distributeToMeals_nothing.
Qed.

Lemma empty_catalog_gives_empty_meals_witness :
  getDiet 0 0 (Scenario.person [] [Scenario.vitaminC] Scenario.threeMeals)
  = Some (Ok {| meals :=
                  map (fun m => {| meal := m; ingredients := [] |})
                    Scenario.threeMeals |}).
Proof.
  apply (@empty_catalog_gives_empty_meals 0 0
           (Scenario.person [] [Scenario.vitaminC] Scenario.threeMeals)).
  - reflexivity.
  - discriminate.
Defined.

Lemma ltb_asym (x y : num) : (x <? y) = true -> (y <? x) = false.
Proof.
  destruct x as [a | | |], y as [b | | |]; try discriminate; try reflexivity.
  intros H. apply ltb_Fin in H. apply not_true_is_false. intros H'.
  apply ltb_Fin in H'. lra.
Qed.

(** The loop of [findBestIngredient] keeps the first ingredient of the
    greatest score. *)
Lemma best_fold_first_max :
  forall (score : Ingredient -> num) (l : list Ingredient)
         (b : option Ingredient) (r : num),
    is_nan r = false ->
    let res :=
      fold_left
        (fun (best : option Ingredient * num) ingredient =>
           if score ingredient >? snd best
           then (Some ingredient, score ingredient) else best)
        l (b, r) in
    Forall (fun i => (score i >? snd res) = false) l
    /\ (res = (b, r)
        \/ exists pre x post,
             l = pre ++ x :: post
             /\ res = (Some x, score x)
             /\ Forall (fun i => (score i >=? score x) = false) pre
             /\ (r <? score x) = true).
Proof.
  intros score. induction l as [| a rest IH]; intros b r Hr; cbn [fold_left].
  - split; [constructor | now left].
  - cbn [snd]. destruct (score a >? r) eqn:Ea.
    + unfold gtb in Ea.
      destruct (IH (Some a) (score a) (ltb_not_nan_r _ _ Ea))
        as [Hall [Hres | (pre & x & post & Hl & Hres & Hpre & Hlt)]];
        cbv zeta in *; rewrite Hres in *; cbn [snd] in *.
      * split.
        -- constructor; [apply ltb_irrefl | exact Hall].
        -- right. exists [], a, rest. repeat split; [constructor | exact Ea].
      * split.
        -- constructor; [now apply ltb_asym | exact Hall].
        -- right. exists (a :: pre), x, post. rewrite Hl.
           repeat split.
           ++ constructor; [now apply ltb_leb_false | exact Hpre].
           ++ exact (ltb_trans _ _ _ Ea Hlt).
    + unfold gtb in Ea.
      destruct (IH b r Hr)
        as [Hall [Hres | (pre & x & post & Hl & Hres & Hpre & Hlt)]];
        cbv zeta in *; rewrite Hres in *; cbn [snd] in *.
      * split; [constructor; [exact Ea | exact Hall] | now left].
      * split.
        -- constructor; [exact (not_above_trans _ _ _ Hr Ea Hlt) | exact Hall].
        -- right. exists (a :: pre), x, post. rewrite Hl.
           repeat split; [| exact Hlt].
           constructor; [exact (not_above_below _ _ _ Hr Ea Hlt) | exact Hpre].
Qed.

(** X6.  [findBestIngredient] returns the first ingredient of the catalog
    that has the greatest score: no ingredient of the catalog scores above
    the one returned, and every ingredient before it scores strictly below
    it (or [NaN]); so a tie goes to the earlier ingredient. *)
Theorem best_ingredient_is_first_maximum :
  forall (catalog : list Ingredient) (tracking : list NutrientTracking)
         (currentMacros targetMacros : MacroTracking) (remaining : num)
         (best : Ingredient) (bestScore : num),
    findBestIngredient catalog tracking currentMacros targetMacros remaining
    = Some (best, bestScore) ->
    let score i :=
      calculateIngredientScore i tracking currentMacros targetMacros
        remaining in
    bestScore = score best
    /\ Forall (fun i => (score i >? bestScore) = false) catalog
    /\ exists pre post,
         catalog = pre ++ best :: post
         /\ Forall (fun i => (score i >=? bestScore) = false) pre.
Proof.
  intros catalog tracking cm tm remaining best bestScore H score.
  unfold findBestIngredient in H.
  destruct (@best_fold_first_max score catalog None NInf eq_refl)
    as [Hall [Hres | (pre & x & post & Hl & Hres & Hpre & _)]];
    cbv zeta in *; subst score; cbv beta in *; rewrite Hres in *;
    [discriminate |].
  injection H as <- <-. cbn [snd] in Hall.
  split; [reflexivity |]. split; [exact Hall |].
  exists pre, post. split; [exact Hl | exact Hpre].
Qed.

Lemma best_ingredient_is_first_maximum_witness :
  let catalog := [Scenario.chicken; Scenario.oats; Scenario.almonds] in
  let score i :=
    calculateIngredientScore i [] {| protein := 0; carbs := 0; fat := 0 |}
      Scenario.targetMacros Scenario.targetCalories in
  Fin 5 = score Scenario.chicken
  /\ Forall (fun i => (score i >? Fin 5) = false) catalog
  /\ exists pre post,
       catalog = pre ++ Scenario.chicken :: post
       /\ Forall (fun i => (score i >=? Fin 5) = false) pre.
Proof.
  apply (@best_ingredient_is_first_maximum
           [Scenario.chicken; Scenario.oats; Scenario.almonds] []
           {| protein := 0; carbs := 0; fat := 0 |}
           Scenario.targetMacros Scenario.targetCalories Scenario.chicken 5).
  reflexivity.
Defined.

(** *** The names of a selection *)

Lemma update_first_ingredients :
  forall (p : IngredientSelection -> bool)
         (f : IngredientSelection -> IngredientSelection)
         (l : list IngredientSelection),
    (forall s, sel_ingredient (f s) = sel_ingredient s) ->
    map sel_ingredient (update_first p f l) = map sel_ingredient l.
Proof.
  intros p f l Hf. induction l as [| x rest IH]; cbn [update_first map].
  - reflexivity.
  - destruct (p x); cbn [map]; [now rewrite Hf | now rewrite IH].
Qed.

Lemma find_none_name :
  forall (ingredient : Ingredient) (l : list IngredientSelection),
    find (namedLike ingredient) l = None ->
    ~ In (name ingredient) (map name (map sel_ingredient l)).
Proof.
  intros ingredient l. induction l as [| x rest IH]; cbn [find map].
  - intros _ [].
  - destruct (namedLike ingredient x) eqn:E; [discriminate |].
    intros H [Hx | Hin]; [| exact (IH H Hin)].
    unfold namedLike in E. rewrite Hx, String.eqb_refl in E. discriminate.
Qed.

Lemma NoDup_snoc (A : Type) (l : list A) (a : A) :
  NoDup l -> ~ In a l -> NoDup (l ++ [a]).
Proof.
  induction 1 as [| x rest Hx _ IH]; intros Ha; cbn [app].
  - constructor; [intros [] | constructor].
  - constructor.
    + rewrite in_app_iff. intros [H | [H | []]]; [now apply Hx |].
      apply Ha. now left.
    + apply IH. intros H. apply Ha. now right.
Qed.

(** Merging by name keeps the names of the selection distinct. *)
Lemma addSelection_names :
  forall (selected : list IngredientSelection) (catalog : list Ingredient)
         (ingredient : Ingredient) (amount : num),
    In ingredient catalog ->
    NoDup (map name (map sel_ingredient selected)) ->
    Forall (fun i => In i catalog) (map sel_ingredient selected) ->
    NoDup (map name (map sel_ingredient
                       (addSelection selected ingredient amount)))
    /\ Forall (fun i => In i catalog)
         (map sel_ingredient (addSelection selected ingredient amount)).
Proof.
  intros selected catalog ingredient amount Hin Hnodup Hall.
  unfold addSelection.
  destruct (find (namedLike ingredient) selected) eqn:Efind.
  - rewrite update_first_ingredients by reflexivity. now split.
  - rewrite !map_app. cbn [map]. split.
    + apply NoDup_snoc; [exact Hnodup | now apply find_none_name].
    + apply Forall_app. split; [exact Hall | now repeat constructor].
Qed.

Lemma selectionStep_names :
  forall (catalog : list Ingredient) (targetMacros : MacroTracking)
         (targetCalories : num) (s s' : SelectionState),
    NoDup (map name (map sel_ingredient (st_selected s))) ->
    Forall (fun i => In i catalog) (map sel_ingredient (st_selected s)) ->
    selectionStep catalog targetMacros targetCalories s = Continue s'
    \/ selectionStep catalog targetMacros targetCalories s = Done s' ->
    NoDup (map name (map sel_ingredient (st_selected s')))
    /\ Forall (fun i => In i catalog) (map sel_ingredient (st_selected s')).
Proof.
  intros catalog tm tc s s' Hnodup Hall Hstep.
  unfold selectionStep in Hstep.
  destruct (negb _ && _).
  - destruct (findBestIngredient _ _ _ _ _) as [[best score] |] eqn:Ebest.
    + apply findBestIngredient_In in Ebest.
      destruct (_ <=? 0).
      * destruct Hstep as [[= <-] | [=]]. now split.
      * unfold updateTracking in Hstep.
        destruct Hstep as [[= <-] | [=]]. cbn [st_selected].
        now apply addSelection_names.
    + destruct Hstep as [[=] | [= <-]]. now split.
  - destruct Hstep as [[=] | [= <-]]. now split.
Qed.

Lemma selectionLoop_names :
  forall (catalog : list Ingredient) (targetMacros : MacroTracking)
         (targetCalories : num) (fuel : nat) (s s' : SelectionState),
    NoDup (map name (map sel_ingredient (st_selected s))) ->
    Forall (fun i => In i catalog) (map sel_ingredient (st_selected s)) ->
    selectionLoop fuel catalog targetMacros targetCalories s = Some s' ->
    NoDup (map name (map sel_ingredient (st_selected s')))
    /\ Forall (fun i => In i catalog) (map sel_ingredient (st_selected s')).
Proof.
  intros catalog tm tc.
  induction fuel as [| fuel IH]; intros s s' Hnodup Hall Hloop;
    cbn [selectionLoop] in Hloop;
    destruct (selectionStep catalog tm tc s) as [s1 | s1] eqn:Estep;
    try discriminate.
  - injection Hloop as <-.
    apply (@selectionStep_names catalog tm tc s s1 Hnodup Hall). now right.
  - injection Hloop as <-.
    apply (@selectionStep_names catalog tm tc s s1 Hnodup Hall). now right.
  - destruct (@selectionStep_names catalog tm tc s s1 Hnodup Hall
                (or_introl Estep)) as [Hn1 Ha1].
    exact (IH s1 s' Hn1 Ha1 Hloop).
Qed.

Lemma selectOptimalIngredients_names :
  forall (fuel : nat) (catalog : list Ingredient) (nutrients0 : list Nutrient)
         (targetMacros : MacroTracking) (targetCalories : num)
         (selected : list IngredientSelection),
    selectOptimalIngredients fuel catalog nutrients0 targetMacros
      targetCalories = Some selected ->
    NoDup (map (fun s => name (sel_ingredient s)) selected)
    /\ Forall (fun s => In (sel_ingredient s) catalog) selected.
Proof.
  intros fuel catalog nutrients0 tm tc selected H.
  unfold selectOptimalIngredients in H.
  destruct (selectionLoop fuel catalog tm tc (initialState nutrients0))
    as [s |] eqn:Eloop; [| discriminate].
  injection H as <-.
  destruct (@selectionLoop_names catalog tm tc fuel (initialState nutrients0) s)
    as [Hnodup Hall]; [constructor | constructor | exact Eloop |].
  rewrite <- (optimizeMacroBalance_ingredients (st_selected s) (st_macros s)
                tm tc) in Hnodup, Hall.
  rewrite map_map in Hnodup. split; [exact Hnodup |].
  rewrite Forall_map in Hall. exact Hall.
Qed.

(** X7.  A selection that [selectOptimalIngredients] returns lists every
    ingredient name at most once (picks of the same name are merged), and
    only ingredients of the catalog. *)
Theorem selection_names_are_distinct :
  forall (fuel : nat) (catalog : list Ingredient) (nutrients0 : list Nutrient)
         (targetMacros : MacroTracking) (targetCalories : num)
         (selected : list IngredientSelection),
    selectOptimalIngredients fuel catalog nutrients0 targetMacros
      targetCalories = Some selected ->
    NoDup (map (fun s => name (sel_ingredient s)) selected)
    /\ Forall (fun s => In (sel_ingredient s) catalog) selected.
Proof. exact selectOptimalIngredients_names. Qed.

Lemma selection_names_are_distinct_witness :
  NoDup (map (fun s => name (sel_ingredient s))
           [{| sel_ingredient := Scenario.oil; sel_amount := 286 |}])
  /\ Forall (fun s => In (sel_ingredient s) [Scenario.oil])
       [{| sel_ingredient := Scenario.oil; sel_amount := 286 |}].
Proof.
  apply (@selection_names_are_distinct 33 [Scenario.oil] [Scenario.vitaminC]
           Scenario.targetMacros Scenario.targetCalories).
  vm_compute. reflexivity.
Defined.

(** *** The balancer and the practical limits *)

Lemma min_cap_le (cap : Q) (x : num) :
  is_nan x = false -> Num.min (Fin cap) x <= Fin cap.
Proof.
  intros Hx. unfold le, Num.min. cbn [is_nan orb]. rewrite Hx.
  destruct (x <? Fin cap) eqn:E.
  - destruct x as [a | | |]; try discriminate; try reflexivity.
    apply ltb_Fin in E. apply leb_Fin. lra.
  - apply le_refl_Fin.
Qed.

Lemma is_nan_mul_Fin_pos (a : Q) (x : num) :
  (0 < a)%Q -> is_nan x = false -> is_nan (Fin a * x) = false.
Proof.
  intros Ha Hx. apply Qgt_alt in Ha.
  destruct x; try discriminate; try reflexivity;
    unfold mul, by_sign; now rewrite Ha.
Qed.

(** When the scale-up branch is taken, the scale factor is a number. *)
Lemma scaleFactor_not_nan (targetCalories currentCalories : num) :
  (targetCalories - currentCalories >? targetCalories * 0.05) = true ->
  is_nan (targetCalories / currentCalories) = false.
Proof.
  destruct targetCalories as [t | | |], currentCalories as [c | | |];
    try discriminate; try reflexivity.
  unfold gtb. intros H. unfold div.
  destruct (Qeq_bool c 0) eqn:Ec; [| reflexivity].
  apply Qeq_bool_iff in Ec.
  unfold by_sign. destruct (t ?= 0)%Q eqn:Et; try reflexivity.
  exfalso. apply Qeq_alt in Et.
  unfold sub, neg, add, mul, fin in H. apply ltb_Fin in H.
  rewrite !Qred_correct in H. lra.
Qed.

Lemma scaleSelection_withinCap (scaleFactor : num) (s : IngredientSelection) :
  is_nan scaleFactor = false -> positiveAmount s ->
  withinCap (scaleSelection scaleFactor s).
Proof.
  intros Hf (a & Ha & Hpos). unfold withinCap, scaleSelection, capOf.
  destruct (isSupplement (sel_ingredient s)) eqn:Es;
    cbn [sel_ingredient sel_amount]; rewrite Es, Ha.
  - apply min_cap_le. apply is_nan_mul_Fin_pos; [exact Hpos |].
    now apply is_nan_min.
  - apply min_cap_le. now apply is_nan_mul_Fin_pos.
Qed.

Lemma adjustSelection_withinCap (pd cd fd : num) (s : IngredientSelection) :
  positiveAmount s ->
  positiveAmount (adjustSelection pd cd fd s)
  /\ (withinCap s -> withinCap (adjustSelection pd cd fd s)).
Proof.
  intros (a & Ha & Hpos).
  assert (Hraised : positiveAmount (raised s 0.05)
                    /\ withinCap (raised s 0.05)).
  { unfold positiveAmount, withinCap, raised, capOf. cbv zeta.
    cbn [sel_ingredient sel_amount]. rewrite Ha.
    change (Fin a * (1 + 0.05)) with (Fin (Qred (a * Qred (1 + 0.05)))).
    assert (Hx : (0 < Qred (a * Qred (1 + 0.05)))%Q).
    { rewrite !Qred_correct. apply Qmult_lt_0_compat; [exact Hpos | lra]. }
    generalize dependent (Qred (a * Qred (1 + 0.05))). intros x Hx.
    split.
    - destruct (isSupplement (sel_ingredient s));
        unfold Num.min; cbn [is_nan orb];
        match goal with
        | |- context [if ?c then _ else _] => destruct c
        end; eexists; (split; [reflexivity | lra]).
    - destruct (isSupplement (sel_ingredient s)); apply min_cap_le;
        reflexivity. }
  unfold adjustSelection. cbv zeta.
  repeat match goal with
         | |- context [if ?c then _ else _] => destruct c
         end;
    first [ split; [exact (proj1 Hraised) | intros _; exact (proj2 Hraised)]
          | split; [exists a; split; assumption | intros H; exact H] ].
Qed.

Lemma refine_withinCap :
  forall (n : nat) (selected : list IngredientSelection)
         (currentMacros targetMacros : MacroTracking),
    Forall positiveAmount selected ->
    Forall withinCap selected ->
    Forall withinCap
      (balanced_selection (refine n selected currentMacros targetMacros)).
Proof.
  induction n as [| n IH]; intros selected cm tm Hpos Hcap; cbn [refine].
  - exact Hcap.
  - cbv zeta.
    match goal with
    | |- context [map (adjustSelection ?pd ?cd ?fd) selected] =>
        assert (H : Forall positiveAmount
                      (map (adjustSelection pd cd fd) selected)
                    /\ Forall withinCap
                         (map (adjustSelection pd cd fd) selected))
    end.
    { clear IH. induction Hpos as [| s rest Hs _ IHrest]; cbn [map].
      - split; constructor.
      - inversion Hcap as [| ? ? Hc Hrest]; subst.
        destruct (IHrest Hrest) as [H1 H2].
        match goal with
        | |- context [adjustSelection ?pd ?cd ?fd s] =>
            destruct (@adjustSelection_withinCap pd cd fd s Hs) as [Hp Hw]
        end.
        split; constructor; auto. }
    destruct H as [H1 H2].
    destruct (_ && _); cbn [balanced_selection]; [exact H2 | now apply IH].
Qed.

(** X8.  On a selection of finite positive amounts, the balancer respects
    the practical limits (10 g for a supplement, 500 g for a food): its
    scale-up branch, taken when the calories are more than 5 % under the
    target, returns every amount within its limit, and its refinement
    passes keep within the limits a selection that is within them. *)
Theorem balancer_respects_limits :
  forall (selected : list IngredientSelection)
         (currentMacros targetMacros : MacroTracking) (targetCalories : num),
    Forall positiveAmount selected ->
    let balanced :=
      balanced_selection
        (optimizeMacroBalance selected currentMacros targetMacros
           targetCalories) in
    ((targetCalories - calculateTotalCalories currentMacros
      >? targetCalories * 0.05) = true ->
     Forall withinCap balanced)
    /\ (Forall withinCap selected -> Forall withinCap balanced).
Proof.
  intros selected cm tm tc Hpos balanced. subst balanced.
  unfold optimizeMacroBalance. cbv zeta.
  destruct (_ >? _) eqn:E; cbn [balanced_selection].
  - assert (H : Forall withinCap
                  (map (scaleSelection (tc / calculateTotalCalories cm))
                     selected)).
    { apply Forall_map. apply Forall_impl with (2 := Hpos).
      intros s Hs. apply scaleSelection_withinCap; [| exact Hs].
      now apply scaleFactor_not_nan. }
    split; intros _; exact H.
  - split; [discriminate |]. intros Hcap. now apply refine_withinCap.
Qed.

Lemma balancer_respects_limits_witness :
  let selected :=
    [{| sel_ingredient := Scenario.oil; sel_amount := 286 |};
     {| sel_ingredient := Scenario.chicken; sel_amount := 200 |}] in
  let balanced :=
    balanced_selection
      (optimizeMacroBalance selected {| protein := 62; carbs := 0; fat := 293.2 |}
         Scenario.targetMacros 4000) in
  ((Fin 4000
    - calculateTotalCalories {| protein := 62; carbs := 0; fat := 293.2 |}
    >? Fin 4000 * 0.05) = true ->
   Forall withinCap balanced)
  /\ (Forall withinCap selected -> Forall withinCap balanced).
Proof.
  apply (@balancer_respects_limits
           [{| sel_ingredient := Scenario.oil; sel_amount := 286 |};
            {| sel_ingredient := Scenario.chicken; sel_amount := 200 |}]
           {| protein := 62; carbs := 0; fat := 293.2 |}
           Scenario.targetMacros 4000).
  repeat constructor; eexists; (split; [reflexivity | reflexivity]).
Defined.

(** *** What [updateTracking] leaves alone *)

Lemma update_first_nutrients :
  forall (p : NutrientTracking -> bool) (delta : num)
         (l : list NutrientTracking),
    map nt_nutrient (update_first p (addConsumed delta) l)
    = map nt_nutrient l.
Proof.
  intros p delta l. induction l as [| x rest IH]; cbn [update_first map].
  - reflexivity.
  - destruct (p x); cbn [map]; [reflexivity | now rewrite IH].
Qed.

Lemma update_first_keeps :
  forall (nm : string) (delta : num) (pre : list NutrientTracking)
         (t : NutrientTracking) (post : list NutrientTracking),
    tracks nm t = false \/ (exists t0, In t0 pre /\ tracks nm t0 = true) ->
    exists pre' post',
      update_first (tracks nm) (addConsumed delta) (pre ++ t :: post)
      = pre' ++ t :: post'
      /\ map nt_nutrient pre' = map nt_nutrient pre.
Proof.
  intros nm delta. induction pre as [| x pre0 IH]; intros t post H.
  - destruct H as [H | (t0 & [] & _)].
    cbn [app update_first]. rewrite H.
    exists [], (update_first (tracks nm) (addConsumed delta) post).
    split; reflexivity.
  - cbn [app update_first]. destruct (tracks nm x) eqn:Ex.
    + exists (addConsumed delta x :: pre0), post. split; reflexivity.
    + destruct (IH t post) as (pre' & post' & Heq & Hmap).
      { destruct H as [H | (t0 & [<- | Hin] & Ht0)];
          [now left | congruence | right; now exists t0]. }
      exists (x :: pre'), post'. cbn [app map]. now rewrite Heq, Hmap.
Qed.

Lemma tracks_same_nutrient (nm : string) (t t' : NutrientTracking) :
  nt_nutrient t = nt_nutrient t' -> tracks nm t = tracks nm t'.
Proof. unfold tracks. now intros ->. Qed.

Lemma exists_same_name :
  forall (pre pre' : list NutrientTracking) (nm : string),
    map nt_nutrient pre' = map nt_nutrient pre ->
    (exists t0, In t0 pre /\ tracks nm t0 = true) ->
    exists t0, In t0 pre' /\ tracks nm t0 = true.
Proof.
  induction pre as [| x rest IH]; intros [| x' rest'] nm Hmap (t0 & Hin & Ht);
    try discriminate; try (now destruct Hin).
  cbn [map] in Hmap. injection Hmap as Hx Hrest.
  destruct Hin as [<- | Hin].
  - exists x'. split; [now left |].
    now rewrite (tracks_same_nutrient nm x' x Hx).
  - destruct (IH rest' nm Hrest) as (t1 & Hin1 & Ht1); [now exists t0 |].
    exists t1. split; [now right | exact Ht1].
Qed.

Lemma updates_keep :
  forall (factor : num) (ns : list IngredientNutrient)
         (pre pre0 : list NutrientTracking) (t : NutrientTracking)
         (post0 : list NutrientTracking),
    map nt_nutrient pre0 = map nt_nutrient pre ->
    (forall n,
        In n ns ->
        tracks (nutrient_name (in_nutrient n)) t = false
        \/ exists t0,
             In t0 pre /\ tracks (nutrient_name (in_nutrient n)) t0 = true) ->
    exists pre' post',
      fold_left
        (fun tr ingredientNutrient =>
           update_first
             (tracks (nutrient_name (in_nutrient ingredientNutrient)))
             (addConsumed (in_amount ingredientNutrient * factor)) tr)
        ns (pre0 ++ t :: post0)
      = pre' ++ t :: post'
      /\ map nt_nutrient pre' = map nt_nutrient pre.
Proof.
  intros factor. induction ns as [| n rest IH]; intros pre pre0 t post0 Hmap H.
  - exists pre0, post0. split; [reflexivity | exact Hmap].
  - cbn [fold_left].
    destruct (@update_first_keeps (nutrient_name (in_nutrient n))
                (in_amount n * factor) pre0 t post0)
      as (pre1 & post1 & Heq & Hmap1).
    { destruct (H n (or_introl eq_refl)) as [Hf | Hex]; [now left |].
      right. exact (exists_same_name pre pre0 _ Hmap Hex). }
    rewrite Heq. apply IH.
    + now rewrite Hmap1.
    + intros n' Hin. apply H. now right.
Qed.

(** X9.  [updateTracking] keeps the tracked nutrients and their order, and
    it leaves an entry as it is when the ingredient lists no nutrient of
    that name (a missing or unknown name contributes nothing), and also
    when an earlier entry tracks the same name: of two nutrients of the same
    name, only the first is ever updated. *)
Theorem tracking_entries_left_alone :
  forall (ingredient : Ingredient) (amount : num) (macros0 : MacroTracking)
         (pre : list NutrientTracking) (t : NutrientTracking)
         (post : list NutrientTracking),
    let tracking' :=
      fst (updateTracking ingredient amount (pre ++ t :: post) macros0) in
    map nt_nutrient tracking' = map nt_nutrient (pre ++ t :: post)
    /\ ((forall n, In n (nutrients ingredient) ->
                   nutrient_name (in_nutrient n)
                   <> nutrient_name (nt_nutrient t))
        \/ (exists t0,
              In t0 pre
              /\ nutrient_name (nt_nutrient t0) = nutrient_name (nt_nutrient t)) ->
        nth_error tracking' (List.length pre) = Some t).
Proof.
  intros ingredient amount macros0 pre t post tracking'. subst tracking'.
  unfold updateTracking. cbn [fst].
  generalize (amount / 100). intros factor. split.
  - generalize (pre ++ t :: post).
    induction (nutrients ingredient) as [| n rest IH]; intros tracking;
      cbn [fold_left]; [reflexivity |].
    now rewrite IH, update_first_nutrients.
  - intros H.
    destruct (@updates_keep factor (nutrients ingredient) pre pre t post
                eq_refl) as (pre' & post' & Heq & Hmap).
    { intros n Hin. unfold tracks.
      destruct (String.eqb (nutrient_name (nt_nutrient t))
                  (nutrient_name (in_nutrient n))) eqn:E; [| now left].
      apply String.eqb_eq in E. right.
      destruct H as [H | (t0 & Hin0 & Hname)].
      - exfalso. exact (H n Hin (eq_sym E)).
      - exists t0. split; [exact Hin0 |].
        rewrite Hname, E. apply String.eqb_refl. }
    rewrite Heq.
    assert (Hlen : List.length pre' = List.length pre).
    { rewrite <- (length_map nt_nutrient pre'), Hmap. apply length_map. }
    rewrite <- Hlen, nth_error_app2, Nat.sub_diag by lia. reflexivity.
Qed.

(** ** Meal distributor of the greedy pipeline *)







Lemma insertSorted_permutation :
  forall (cmp : IngredientSelection -> IngredientSelection -> Z)
         (x : IngredientSelection) (l : list IngredientSelection),
    Permutation (insertSorted cmp x l) (x :: l).
Proof.
  intros cmp x. induction l as [| y rest IH]; cbn [insertSorted].
  - apply Permutation_refl.
  - destruct (cmp x y <? 0)%Z; [apply Permutation_refl |].
    apply perm_trans with (y :: x :: rest);
      [now apply perm_skip | apply perm_swap].
Qed.

(** The stable sort of the model loses and repeats nothing. *)
Lemma sortByMealTiming_permutation :
  forall l : list IngredientSelection, Permutation (sortByMealTiming l) l.
Proof.
  intros l. unfold sortByMealTiming.
  assert (H : forall acc,
             Permutation
               (fold_left
                  (fun sorted x => insertSorted mealTimingCompare x sorted)
                  l acc)
               (acc ++ l)).
  { induction l as [| x rest IH]; intros acc; cbn [fold_left].
    - rewrite app_nil_r. apply Permutation_refl.
    - eapply perm_trans; [apply IH |].
      apply perm_trans with ((x :: acc) ++ rest).
      + apply Permutation_app_tail. apply insertSorted_permutation.
      + cbn [app]. apply Permutation_middle. }
  exact (H []).
Qed.

Lemma fillMeal_ingredients :
  forall (sorted : list IngredientSelection) (mealCalories current : num),
    map sel_ingredient (snd (fillMeal mealCalories sorted current))
    = map sel_ingredient sorted
    /\ Forall (fun e => In (dmi_ingredient e) (map sel_ingredient sorted))
         (fst (fillMeal mealCalories sorted current)).
Proof.
  induction sorted as [| selection rest IH]; intros mealCalories current.
  - split; [reflexivity | constructor].
  - cbn [fillMeal].
    destruct (current >=? mealCalories * 0.95); [split; [reflexivity | constructor] |].
    cbv zeta.
    destruct (Num.min 1 _ >? 0.1).
    + match goal with
      | |- context [fillMeal mealCalories rest ?c] =>
          destruct (IH mealCalories c) as [Hrest Hitems];
          destruct (fillMeal mealCalories rest c) as [items rest']
      end.
      cbn [fst snd map] in *. split; [now rewrite Hrest |].
      constructor; [now left |].
      apply Forall_impl with (2 := Hitems). intros e He. now right.
    + destruct (IH mealCalories current) as [Hrest Hitems].
      destruct (fillMeal mealCalories rest current) as [items rest'].
      cbn [fst snd map] in *. split; [now rewrite Hrest |].
      apply Forall_impl with (2 := Hitems). intros e He. now right.
Qed.

Lemma fillMeals_ingredients :
  forall (meals0 : list Meal) (targetCalories : num)
         (sorted : list IngredientSelection),
    map sel_ingredient (snd (fillMeals meals0 targetCalories sorted))
    = map sel_ingredient sorted
    /\ Forall
         (fun dm =>
            Forall (fun e => In (dmi_ingredient e) (map sel_ingredient sorted))
              (ingredients dm))
         (fst (fillMeals meals0 targetCalories sorted)).
Proof.
  induction meals0 as [| m rest IH]; intros tc sorted.
  - split; [reflexivity | constructor].
  - cbn [fillMeals].
    destruct (fillMeal_ingredients sorted ((tc * kcalPercentage m) / 100) 0)
      as [Hs Hitems].
    destruct (fillMeal _ sorted 0) as [items sorted'].
    destruct (IH tc sorted') as [Hs' Hmeals].
    destruct (fillMeals rest tc sorted') as [dietMeals sorted''].
    cbn [fst snd] in *. split; [congruence |].
    constructor; [exact Hitems |]. now rewrite <- Hs.
Qed.

Lemma leftovers_ingredients :
  forall sorted : list IngredientSelection,
    Forall (fun e => In (dmi_ingredient e) (map sel_ingredient sorted))
      (leftovers sorted).
Proof.
  intros sorted. unfold leftovers.
  apply Forall_flat_map, Forall_forall. intros s Hs. cbv zeta.
  destruct (_ >? _); constructor; [| constructor].
  cbn [dmi_ingredient]. now apply in_map.
Qed.

Lemma pushToMeal_serves :
  forall (catalog : list Ingredient) (dietMeals : list DietMeal) (index : nat)
         (items : list DietMealIngredient),
    Forall
      (fun dm => Forall (fun e => In (dmi_ingredient e) catalog) (ingredients dm))
      dietMeals ->
    Forall (fun e => In (dmi_ingredient e) catalog) items ->
    Forall
      (fun dm => Forall (fun e => In (dmi_ingredient e) catalog) (ingredients dm))
      (pushToMeal index items dietMeals).
Proof.
  intros catalog. induction dietMeals as [| dm rest IH]; intros index items Hd Hi.
  - destruct index; constructor.
  - inversion Hd as [| ? ? Hdm Hrest]; subst.
    destruct index as [| index]; cbn [pushToMeal]; constructor;
      try assumption.
    + cbn [ingredients]. apply Forall_app. now split.
    + now apply IH.
Qed.

(** The greedy distributor serves selected ingredients only. *)
Lemma distributeToMeals_serves :
  forall (selected : list IngredientSelection) (meals0 : list Meal)
         (targetCalories : num) (diet : Diet),
    distributeToMeals selected meals0 targetCalories = Ok diet ->
    servesOnly (map sel_ingredient selected) diet.
Proof.
  intros selected meals0 tc diet H.
  unfold distributeToMeals, distributeToMealsWith in H.
  destruct (fillMeals_ingredients meals0 tc (sortByMealTiming selected))
    as [Hs Hmeals].
  destruct (fillMeals meals0 tc (sortByMealTiming selected))
    as [dietMeals sorted'].
  destruct (largestMealIndex meals0) as [index | e]; [| discriminate].
  injection H as <-. unfold servesOnly. cbn [meals fst snd] in *.
  assert (Hperm : forall i,
             In i (map sel_ingredient (sortByMealTiming selected)) ->
             In i (map sel_ingredient selected)).
  { intros i. apply Permutation_in, Permutation_map,
      sortByMealTiming_permutation. }
  apply pushToMeal_serves.
  - apply Forall_impl with (2 := Hmeals). intros dm Hdm.
    apply Forall_impl with (2 := Hdm). intros e He. now apply Hperm.
  - pose proof (leftovers_ingredients sorted') as Hl. rewrite Hs in Hl.
    apply Forall_impl with (2 := Hl). intros e He. now apply Hperm.
Qed.

(** X11.  A diet that the greedy [getDiet] returns serves ingredients of the
    input catalog only. *)
Theorem greedy_diet_serves_catalog_only :
  forall (fuel : nat) (now : num) (input : GetDietInput) (diet : Diet),
    getDiet fuel now input = Some (Ok diet) ->
    servesOnly (input_ingredients input) diet.
Proof.
  intros fuel now input diet H. unfold getDiet in H.
  destruct (selectOptimalIngredients fuel _ _ _ _) as [selected |] eqn:Esel;
    [| discriminate].
  injection H as H.
  apply selectOptimalIngredients_names in Esel. destruct Esel as [_ Hcat].
  apply distributeToMeals_serves in H. unfold servesOnly in *.
  apply Forall_impl with (2 := H). intros dm Hdm.
  apply Forall_impl with (2 := Hdm). intros e He.
  apply in_map_iff in He. destruct He as (s & <- & Hs).
  rewrite Forall_forall in Hcat. now apply Hcat.
Qed.

Lemma greedy_diet_serves_catalog_only_witness :
  match getDiet 30 0
          (Scenario.person [Scenario.chicken; Scenario.oats; Scenario.spinach]
             [Scenario.vitaminC] Scenario.threeMeals) with
  | Some (Ok diet) =>
      servesOnly [Scenario.chicken; Scenario.oats; Scenario.spinach] diet
  | _ => False
  end.
Proof.
  destruct (getDiet 30 0
              (Scenario.person
                 [Scenario.chicken; Scenario.oats; Scenario.spinach]
                 [Scenario.vitaminC] Scenario.threeMeals))
    as [[diet | e] |] eqn:E.
  - exact (@greedy_diet_serves_catalog_only 30 0
             (Scenario.person
                [Scenario.chicken; Scenario.oats; Scenario.spinach]
                [Scenario.vitaminC] Scenario.threeMeals) diet E).
  - vm_compute in E. discriminate.
  - vm_compute in E. discriminate.
Defined.

(** ** LP selector *)

Lemma selectionOf_from_catalog :
  forall (solution : LP.Solution) (catalog : list Ingredient),
    Forall (fun s => In (sel_ingredient s) catalog)
      (LP.selectionOf solution catalog).
Proof.
  intros solution catalog. unfold LP.selectionOf.
  destruct (LP.feasible solution); [| constructor].
  apply Forall_flat_map, Forall_forall. intros [index ingredient] Hin.
  destruct (_ >? 1); constructor; [| constructor].
  cbn [sel_ingredient]. unfold LP.indexed in Hin.
  exact (in_combine_r _ _ _ _ Hin).
Qed.

Lemma pushFirst_from_catalog :
  forall (p : Ingredient -> bool) (amount : num) (catalog : list Ingredient)
         (selections : list IngredientSelection),
    Forall (fun s => In (sel_ingredient s) catalog) selections ->
    Forall (fun s => In (sel_ingredient s) catalog)
      (LP.pushFirst p amount catalog selections).
Proof.
  intros p amount catalog selections H. unfold LP.pushFirst.
  destruct (filter p catalog) as [| first rest] eqn:E; [exact H |].
  apply Forall_app. split; [exact H |].
  constructor; [| constructor]. cbn [sel_ingredient].
  assert (Hin : In first (filter p catalog)) by (rewrite E; now left).
  apply filter_In in Hin. apply Hin.
Qed.

Lemma fallbackSelections_from_catalog :
  forall catalog : list Ingredient,
    Forall (fun s => In (sel_ingredient s) catalog)
      (LP.fallbackSelections catalog).
Proof.
  intros catalog. unfold LP.fallbackSelections. cbv zeta.
  destruct (find _ catalog) as [m |] eqn:E.
  - apply Forall_app. split.
    + repeat apply pushFirst_from_catalog. constructor.
    + constructor; [| constructor]. cbn [sel_ingredient].
      apply find_some in E. apply E.
  - repeat apply pushFirst_from_catalog. constructor.
Qed.

Lemma LP_distributeToMeals_serves :
  forall (catalog : list Ingredient) (selected : list IngredientSelection)
         (meals0 : list Meal) (targetCalories : num),
    Forall (fun s => In (sel_ingredient s) catalog) selected ->
    servesOnly catalog (LP.distributeToMeals selected meals0 targetCalories).
Proof.
  intros catalog selected meals0 tc H. unfold servesOnly, LP.distributeToMeals.
  cbn [meals]. apply Forall_map, Forall_forall. intros m _.
  cbn [ingredients]. apply Forall_flat_map.
  apply Forall_impl with (2 := H). intros s Hs.
  unfold LP.mealEntry. cbv zeta.
  destruct (_ >=? 1); constructor; [exact Hs | constructor].
Qed.

(** X12.  Whatever the solving routine returns, the diet of the LP
    [getDiet] serves ingredients of the input catalog only, and has one
    entry per input meal, in the order of the input. *)
Theorem lp_diet_serves_catalog_only :
  forall (Solve : LP.Model -> LP.Solution) (input : GetDietInput),
    servesOnly (input_ingredients input) (LP.getDiet Solve input)
    /\ map meal (meals (LP.getDiet Solve input)) = input_meals input.
Proof.
  intros Solve input. unfold LP.getDiet. cbv zeta.
  destruct (_ <? 5)%nat.
  - unfold LP.createFallbackDiet. cbv zeta. split.
    + apply LP_distributeToMeals_serves, fallbackSelections_from_catalog.
    + apply LP_distributeToMeals_meals.
  - split.
    + apply LP_distributeToMeals_serves, selectionOf_from_catalog.
    + apply LP_distributeToMeals_meals.
Qed.

Lemma selectionOf_length :
  forall (solution : LP.Solution) (catalog : list Ingredient),
    (List.length (LP.selectionOf solution catalog) <= List.length catalog)%nat.
Proof.
  intros solution catalog. unfold LP.selectionOf.
  destruct (LP.feasible solution); [| cbn; lia].
  assert (H : forall l : list (nat * Ingredient),
             Nat.le
               (List.length
                (flat_map
                   (fun '(index, ingredient) =>
                      let amount :=
                        match LP.getKey (LP.varName index)
                                (LP.values solution) with
                        | Some v => or_zero v
                        | None => Fin 0
                        end in
                      if amount >? 1 then
                        [{| sel_ingredient := ingredient;
                            sel_amount := round amount |}]
                      else [])
                   l)) (List.length l)).
  { unfold Nat.le. cbv zeta.
    induction l as [| [index ingredient] rest IH]; cbn [flat_map List.length].
    - lia.
    - rewrite length_app. destruct (_ >? 1); cbn [List.length]; lia. }
  eapply Nat.le_trans; [apply H |].
  unfold LP.indexed. rewrite length_combine, length_seq. lia.
Qed.

(** X13.  With a catalog of fewer than 5 ingredients the LP [getDiet]
    returns the fallback diet whatever the solving routine returns, even
    for a feasible solution: the selection it reads from a solution has at
    most one entry per catalog ingredient. *)
Theorem small_catalog_always_falls_back :
  forall (Solve : LP.Model -> LP.Solution) (input : GetDietInput),
    (List.length (input_ingredients input) < 5)%nat ->
    LP.getDiet Solve input = LP.createFallbackDiet input.
Proof.
  intros Solve input Hlen. unfold LP.getDiet. cbv zeta.
  match goal with
  | |- context [LP.selectionOf ?sol ?cat] =>
      pose proof (selectionOf_length sol cat) as Hsel
  end.
  destruct (_ <? 5)%nat eqn:E; [reflexivity |].
  apply Nat.ltb_ge in E. lia.
Qed.

Lemma small_catalog_always_falls_back_witness :
  LP.getDiet
    (fun _ =>
       {| LP.feasible := true;
          LP.values := [("x0", Fin 150); ("x1", Fin 80); ("x2", Fin 5)] |})
    (Scenario.person [Scenario.chicken; Scenario.oats; Scenario.multivitamin]
       [Scenario.vitaminC] Scenario.threeMeals)
  = LP.createFallbackDiet
      (Scenario.person [Scenario.chicken; Scenario.oats; Scenario.multivitamin]
         [Scenario.vitaminC] Scenario.threeMeals).
Proof.
  apply (@small_catalog_always_falls_back
           (fun _ =>
              {| LP.feasible := true;
                 LP.values := [("x0", Fin 150); ("x1", Fin 80); ("x2", Fin 5)] |})
           (Scenario.person
              [Scenario.chicken; Scenario.oats; Scenario.multivitamin]
              [Scenario.vitaminC] Scenario.threeMeals)).
  cbn. lia.
Defined.

Lemma round_at_least_1 (x : num) : (x >=? 1) = true -> Fin 1 <= round x.
Proof.
  destruct x as [a | | |]; try discriminate; try reflexivity.
  intros H. unfold geb in H. apply leb_Fin in H.
  unfold round. apply leb_Fin.
  change 1%Q with (inject_Z 1). rewrite <- Zle_Qle.
  rewrite <- (Qfloor_half 1) at 1. apply Qfloor_resp_le.
  change (inject_Z 1) with 1%Q. lra.
Qed.

(** X14.  The LP meal distributor never serves less than 1 g: every entry
    of its diet is at least 1 g, whatever the selection and the meals (a
    share under 1 g is dropped instead). *)
Theorem lp_entries_at_least_1g :
  forall (selected : list IngredientSelection) (meals0 : list Meal)
         (targetCalories : num),
    Forall
      (fun dm => Forall (fun e => Fin 1 <= dmi_amount e) (ingredients dm))
      (meals (LP.distributeToMeals selected meals0 targetCalories)).
Proof.
  intros selected meals0 tc. unfold LP.distributeToMeals. cbn [meals].
  apply Forall_map, Forall_forall. intros m _. cbn [ingredients].
  apply Forall_flat_map, Forall_forall. intros s _.
  unfold LP.mealEntry. cbv zeta.
  match goal with
  | |- context [if ?c then _ else _] => destruct c eqn:E
  end; constructor; [| constructor].
  cbn [dmi_amount]. now apply round_at_least_1.
Qed.

(** ** The model handed to the solving routine *)

Lemma getKey_setKey_same :
  forall (V : Type) (k : string) (v : V) (o : LP.obj V),
    LP.getKey k (LP.setKey k v o) = Some v.
Proof.
  intros V k v o. induction o as [| [k' v'] rest IH]; cbn.
  - now rewrite String.eqb_refl.
  - destruct (String.eqb k' k) eqn:E; cbn.
    + now rewrite String.eqb_refl.
    + now rewrite E.
Qed.

Lemma getKey_setKey_other :
  forall (V : Type) (k0 k : string) (v : V) (o : LP.obj V),
    String.eqb k0 k = false ->
    LP.getKey k (LP.setKey k0 v o) = LP.getKey k o.
Proof.
  intros V k0 k v o Hne. induction o as [| [k' v'] rest IH]; cbn.
  - now rewrite Hne.
  - destruct (String.eqb k' k0) eqn:E; cbn.
    + apply String.eqb_eq in E. subst k'. now rewrite Hne.
    + destruct (String.eqb k' k); [reflexivity | exact IH].
Qed.

Lemma varName_inj : forall i j : nat, LP.varName i = LP.varName j -> i = j.
Proof.
  intros i j H. unfold LP.varName in H. cbn [append] in H.
  injection H as H.
  apply DecimalNat.Unsigned.to_uint_inj.
  apply (f_equal NilEmpty.uint_of_string) in H.
  rewrite !NilEmpty.usu in H. now injection H.
Qed.

Lemma varName_eqb :
  forall i j : nat, i <> j -> String.eqb (LP.varName j) (LP.varName i) = false.
Proof.
  intros i j Hne. apply String.eqb_neq. intros H. apply Hne.
  symmetry. now apply varName_inj.
Qed.

(** A key that is not of the form [n_...] is not touched by the nutrient
    coefficients of a variable. *)
Lemma nutrient_coefficients_keep :
  forall (k : string),
    (forall nm, String.eqb ("n_" ++ nm) k = false) ->
    forall (l : list IngredientNutrient) (variable : LP.obj num),
      LP.getKey k
        (fold_left
           (fun variable nutrientInfo =>
              if LP.isCritical (nutrient_name (in_nutrient nutrientInfo)) then
                LP.setKey
                  ("n_" ++ LP.safeName (nutrient_name (in_nutrient nutrientInfo)))
                  (in_amount nutrientInfo / 100) variable
              else variable)
           l variable)
      = LP.getKey k variable.
Proof.
  intros k Hk l. induction l as [| ni rest IH]; intros variable;
    cbn [fold_left]; [reflexivity |].
  rewrite IH. destruct (LP.isCritical _); [| reflexivity].
  apply getKey_setKey_other, Hk.
Qed.

Lemma nutrient_constraints_keep :
  forall (k : string),
    (forall nm, String.eqb ("n_" ++ nm) k = false) ->
    forall (l : list Nutrient) (cs : LP.obj LP.Bound),
      LP.getKey k
        (fold_left
           (fun cs nutrient =>
              if LP.isCritical (nutrient_name nutrient) then
                LP.setKey ("n_" ++ LP.safeName (nutrient_name nutrient))
                  {| LP.bound_min := Some (nrv nutrient * 0.5);
                     LP.bound_max := None |}
                  cs
              else cs)
           l cs)
      = LP.getKey k cs.
Proof.
  intros k Hk l. induction l as [| n rest IH]; intros cs;
    cbn [fold_left]; [reflexivity |].
  rewrite IH. destruct (LP.isCritical _); [| reflexivity].
  apply getKey_setKey_other, Hk.
Qed.

Lemma variableOf_no_variable_key :
  forall (ingredient : Ingredient) (j : nat),
    LP.getKey (LP.varName j) (LP.variableOf ingredient) = None.
Proof.
  intros ingredient j. unfold LP.variableOf. cbv zeta.
  rewrite nutrient_coefficients_keep; [reflexivity |].
  intros nm. reflexivity.
Qed.

Lemma variables_fold :
  forall (l : list Ingredient) (start : nat)
         (cs : LP.obj LP.Bound) (vs : LP.obj (LP.obj num)),
    let r :=
      fold_left
        (fun '(cs, vs) '(index, ingredient) =>
           let maxAmount : num :=
             if isSupplement ingredient then 10 else 300 in
           (LP.setKey (LP.varName index)
              {| LP.bound_min := None; LP.bound_max := Some maxAmount |} cs,
            LP.setKey (LP.varName index) (LP.variableOf ingredient) vs))
        (combine (seq start (List.length l)) l) (cs, vs) in
    (forall i ingredient,
        nth_error l i = Some ingredient ->
        LP.getKey (LP.varName (start + i)) (fst r)
        = Some {| LP.bound_min := None;
                  LP.bound_max :=
                    Some (if isSupplement ingredient then Fin 10 else Fin 300) |}
        /\ LP.getKey (LP.varName (start + i)) (snd r)
           = Some (LP.variableOf ingredient))
    /\ (forall k,
           (forall j, Nat.le start j -> String.eqb (LP.varName j) k = false) ->
           LP.getKey k (fst r) = LP.getKey k cs
           /\ LP.getKey k (snd r) = LP.getKey k vs).
Proof.
  cbv zeta.
  induction l as [| a rest IH]; intros start cs vs.
  - cbn. split; [intros [| i] ing H; discriminate | intros k _; now split].
  - cbn [List.length seq combine fold_left].
    match goal with
    | |- context [fold_left _ _ (?c1, ?v1)] =>
        destruct (IH (S start) c1 v1) as [IHa IHb]
    end.
    split.
    + intros [| i] ing H.
      * cbn in H. injection H as <-. rewrite Nat.add_0_r.
        destruct (IHb (LP.varName start)) as [Hc Hv].
        { intros j Hj. apply varName_eqb. unfold Nat.le in Hj. lia. }
        rewrite Hc, Hv, !getKey_setKey_same. now split.
      * cbn in H. replace (start + S i)%nat with (S start + i)%nat by lia.
        now apply IHa.
    + intros k Hk.
      destruct (IHb k) as [Hc Hv].
      { intros j Hj. apply Hk. unfold Nat.le in *. lia. }
      rewrite Hc, Hv.
      rewrite !getKey_setKey_other by (apply Hk; unfold Nat.le; lia).
      now split.
Qed.

(** X15.  In the model the LP [getDiet] builds, the upper limit of an
    ingredient (10 g for a supplement, 300 g otherwise) is a constraint
    under the name of the ingredient's own variable [x<index>], while no
    variable has a coefficient under a variable name; the cost, calorie and
    macro coefficients of a variable and the calorie constraint of the model
    are the same whatever nutrients the catalog lists. *)
Theorem lp_model_limits_and_coefficients :
  forall (input : GetDietInput) (targetCalories : num)
         (targetMacrosInGrams : MacroTracking)
         (index : nat) (ingredient : Ingredient),
    nth_error (input_ingredients input) index = Some ingredient ->
    let model := LP.buildModel input targetCalories targetMacrosInGrams in
    LP.getKey (LP.varName index) (LP.constraints model)
    = Some {| LP.bound_min := None;
              LP.bound_max :=
                Some (if isSupplement ingredient then Fin 10 else Fin 300) |}
    /\ LP.getKey (LP.varName index) (LP.variables model)
       = Some (LP.variableOf ingredient)
    /\ (forall j, LP.getKey (LP.varName j) (LP.variableOf ingredient) = None)
    /\ LP.getKey "totalCost" (LP.variableOf ingredient)
       = Some (if isSupplement ingredient then Fin 5 else Fin 1)
    /\ LP.getKey "calories" (LP.variableOf ingredient)
       = Some ((protein (macros ingredient) * 4
                + carbs (macros ingredient) * 4
                + fat (macros ingredient) * 9) / 100)
    /\ LP.getKey "protein" (LP.variableOf ingredient)
       = Some (protein (macros ingredient) / 100)
    /\ LP.getKey "carbs" (LP.variableOf ingredient)
       = Some (carbs (macros ingredient) / 100)
    /\ LP.getKey "fat" (LP.variableOf ingredient)
       = Some (fat (macros ingredient) / 100)
    /\ LP.getKey "calories" (LP.constraints model)
       = Some {| LP.bound_min := Some (targetCalories * 0.9);
                 LP.bound_max := Some (targetCalories * 1.1) |}.
Proof.
  intros input tc tm index ingredient Hnth model.
  assert (Hcoef : forall k v,
             (forall nm, String.eqb ("n_" ++ nm) k = false) ->
             LP.getKey k
               (LP.setKey "fat" (fat (macros ingredient) / 100)
                  (LP.setKey "carbs" (carbs (macros ingredient) / 100)
                     (LP.setKey "protein" (protein (macros ingredient) / 100)
                        (LP.setKey "calories"
                           ((protein (macros ingredient) * 4
                             + carbs (macros ingredient) * 4
                             + fat (macros ingredient) * 9) / 100)
                           (LP.setKey "totalCost"
                              (if isSupplement ingredient then Fin 5 else Fin 1)
                              []))))) = v ->
             LP.getKey k (LP.variableOf ingredient) = v).
  { intros k v Hk Hv. unfold LP.variableOf. cbv zeta.
    now rewrite nutrient_coefficients_keep. }
  subst model. unfold LP.buildModel. cbv zeta.
  match goal with
  | |- context [fold_left ?F (LP.indexed ?l) (?cs, ?vs)] =>
      pose proof (@variables_fold l 0 cs vs) as H;
      cbv zeta in H; unfold LP.indexed;
      set (r := fold_left F (combine (seq 0 (List.length l)) l) (cs, vs));
      change (fold_left _ (combine _ _) _) with r in H;
      clearbody r; destruct r as [cs' vs']
  end.
  cbn [fst snd] in H. destruct H as [Ha Hb].
  cbn [LP.constraints LP.variables].
  destruct (Ha index ingredient Hnth) as [Hc Hv]. cbn [Nat.add] in Hc, Hv.
  repeat split.
  - exact Hc.
  - exact Hv.
  - intros j. apply variableOf_no_variable_key.
  - apply Hcoef; [intros nm; reflexivity | reflexivity].
  - apply Hcoef; [intros nm; reflexivity | reflexivity].
  - apply Hcoef; [intros nm; reflexivity | reflexivity].
  - apply Hcoef; [intros nm; reflexivity | reflexivity].
  - apply Hcoef; [intros nm; reflexivity | reflexivity].
  - destruct (Hb "calories") as [Hk _]; [intros j _; reflexivity |].
    rewrite Hk. rewrite nutrient_constraints_keep; [reflexivity |].
    intros nm. reflexivity.
Qed.

Lemma lp_model_limits_and_coefficients_witness :
  LP.getKey "x2"
    (LP.constraints
       (LP.buildModel
          (Scenario.person
             [Scenario.chicken; Scenario.oats; Scenario.multivitamin]
             [Scenario.vitaminC; Scenario.vitaminD] Scenario.threeMeals)
          Scenario.targetCalories Scenario.targetMacros))
  = Some {| LP.bound_min := None; LP.bound_max := Some (Fin 10) |}.
Proof.
  exact (proj1
           (@lp_model_limits_and_coefficients
              (Scenario.person
                 [Scenario.chicken; Scenario.oats; Scenario.multivitamin]
                 [Scenario.vitaminC; Scenario.vitaminD] Scenario.threeMeals)
              Scenario.targetCalories Scenario.targetMacros
              2%nat Scenario.multivitamin eq_refl)).
Defined.

(** ** The data loader *)

Lemma find_snoc :
  forall (A : Type) (p : A -> bool) (l : list A) (a : A),
    find p (l ++ [a])
    = match find p l with
      | Some x => Some x
      | None => if p a then Some a else None
      end.
Proof.
  intros A p l a. induction l as [| x rest IH]; cbn [app find].
  - reflexivity.
  - destruct (p x); [reflexivity | exact IH].
Qed.

Lemma nutrientMap_fold :
  forall (nm : string) (l : list Nutrient) (m : LP.obj Nutrient),
    LP.getKey nm
      (fold_left
         (fun nutrientMap nutrient =>
            LP.setKey (nutrient_name nutrient) nutrient nutrientMap)
         l m)
    = match find (fun n => String.eqb (nutrient_name n) nm) (rev l) with
      | Some n => Some n
      | None => LP.getKey nm m
      end.
Proof.
  intros nm l. induction l as [| a rest IH]; intros m; cbn [fold_left rev find].
  - reflexivity.
  - rewrite IH, find_snoc.
    destruct (find _ (rev rest)); [reflexivity |].
    destruct (String.eqb (nutrient_name a) nm) eqn:E.
    + apply String.eqb_eq in E. subst nm. apply getKey_setKey_same.
    + now apply getKey_setKey_other.
Qed.

Lemma nutrientMap_lookup :
  forall (nm : string) (nutrients0 : list Nutrient),
    LP.getKey nm (Loader.nutrientMapOf nutrients0)
    = find (fun n => String.eqb (nutrient_name n) nm) (rev nutrients0).
Proof.
  intros nm l. unfold Loader.nutrientMapOf. rewrite nutrientMap_fold.
  now destruct (find _ (rev l)).
Qed.

(** X16.  [loadDataFromJson] hands the nutrients and the meals of the file
    on as they are, and keeps the name and the macros of every ingredient,
    in the order of the file.  A percentage of an ingredient becomes
    [percentage / 100 * nrv] of the LAST nutrient of the file with that
    name, and an entry under a name that no nutrient of the file has is
    dropped. *)
Theorem loader_resolves_names_to_last_nutrient :
  forall (data : Loader.JsonData),
    let loaded := Loader.loadDataFromJson data in
    Loader.data_nutrients loaded = Loader.json_nutrients data
    /\ Loader.data_meals loaded = Loader.json_meals data
    /\ map name (Loader.data_ingredients loaded)
       = map Loader.json_name (Loader.json_ingredients data)
    /\ map macros (Loader.data_ingredients loaded)
       = map Loader.json_macros (Loader.json_ingredients data)
    /\ map nutrients (Loader.data_ingredients loaded)
       = map
           (fun jsonIngredient =>
              flat_map
                (fun '(nutrientName, percentage) =>
                   match
                     find (fun n => String.eqb (nutrient_name n) nutrientName)
                       (rev (Loader.json_nutrients data))
                   with
                   | Some nutrient =>
                       [{| in_amount := (percentage / 100) * nrv nutrient;
                           in_nutrient := nutrient |}]
                   | None => []
                   end)
                (Loader.nutrientsPercentages jsonIngredient))
           (Loader.json_ingredients data).
Proof.
  intros data loaded. subst loaded. unfold Loader.loadDataFromJson.
  cbv zeta. cbn [Loader.data_nutrients Loader.data_meals Loader.data_ingredients].
  rewrite !map_map. cbn [Loader.transformIngredient name macros nutrients].
  repeat split.
  apply map_ext. intros j. unfold Loader.transformIngredient. cbn [nutrients].
  induction (Loader.nutrientsPercentages j) as [| [nm pct] rest IH];
    cbn [flat_map]; [reflexivity |].
  now rewrite IH, nutrientMap_lookup.
Qed.

Lemma listed_from_catalog :
  forall (nutrients0 : list Nutrient) (nm : string) (amount : num),
    Forall
      (fun n => In (in_nutrient n) nutrients0
                /\ nutrient_name (in_nutrient n) = nm
                /\ in_amount n = amount)
      (Loader.listed nutrients0 nm amount).
Proof.
  intros ns nm amount. unfold Loader.listed.
  destruct (find _ ns) as [n |] eqn:E; constructor; [| constructor].
  apply find_some in E. destruct E as [Hin Heq].
  apply String.eqb_eq in Heq. cbn. now repeat split.
Qed.

Lemma listed_of_absent :
  forall (nutrients0 : list Nutrient) (nm : string) (amount : num),
    ~ In nm (map nutrient_name nutrients0) ->
    Loader.listed nutrients0 nm amount = [].
Proof.
  intros ns nm amount Hno. unfold Loader.listed.
  destruct (find _ ns) as [n |] eqn:E; [| reflexivity].
  apply find_some in E. destruct E as [Hin Heq].
  apply String.eqb_eq in Heq. exfalso. apply Hno. subst nm.
  now apply in_map.
Qed.

(** X17.  Every ingredient [createSupplementIngredients] returns is a
    supplement for both selectors (its name contains [Supplement]), lists at
    least one nutrient, and lists nutrients of the given catalog only; the
    Vitamin D3 supplement is returned exactly when the catalog has a
    nutrient named [Vitamin D]. *)
Theorem supplements_are_recognised_and_grounded :
  forall (nutrients0 : list Nutrient),
    Forall
      (fun s =>
         isSupplement s = true
         /\ nutrients s <> []
         /\ Forall (fun n => In (in_nutrient n) nutrients0) (nutrients s))
      (Loader.createSupplementIngredients nutrients0)
    /\ (In "Vitamin D3 Supplement"
          (map name (Loader.createSupplementIngredients nutrients0))
        <-> In "Vitamin D" (map nutrient_name nutrients0)).
Proof.
  intros ns. split.
  - unfold Loader.createSupplementIngredients. cbv zeta.
    apply Forall_forall. intros s Hin. apply filter_In in Hin.
    destruct Hin as [Hin Hlen]. split; [| split].
    + destruct Hin as [<- | [<- | [<- | []]]]; reflexivity.
    + intros Hnil. rewrite Hnil in Hlen. discriminate.
    + assert (Hl : forall nm amount,
                 Forall (fun n => In (in_nutrient n) ns)
                   (Loader.listed ns nm amount)).
      { intros nm amount. eapply Forall_impl; [| apply listed_from_catalog].
        cbn. intros n H. exact (proj1 H). }
      destruct Hin as [<- | [<- | [<- | []]]]; cbn [nutrients];
        repeat (apply Forall_app; split); apply Hl.
  - unfold Loader.createSupplementIngredients. cbv zeta.
    split.
    + intros Hin. apply in_map_iff in Hin. destruct Hin as [s [Hname Hin]].
      apply filter_In in Hin. destruct Hin as [Hin Hlen].
      destruct Hin as [<- | [<- | [<- | []]]]; try discriminate Hname.
      cbn [nutrients] in Hlen.
      destruct (in_dec string_dec "Vitamin D" (map nutrient_name ns))
        as [Hyes | Hno]; [exact Hyes |].
      rewrite (@listed_of_absent ns _ (Fin 25) Hno) in Hlen. discriminate.
    + intros Hin. apply in_map_iff in Hin. destruct Hin as [n [Hname Hin]].
      apply in_map_iff.
      exists {| nutrients := Loader.listed ns "Vitamin D" 25;
                macros := {| protein := 0; carbs := 0.1; fat := 0 |};
                name := "Vitamin D3 Supplement" |}.
      split; [reflexivity |].
      apply filter_In. split; [right; right; left; reflexivity |].
      cbn [nutrients]. unfold Loader.listed.
      destruct (find _ ns) as [n' |] eqn:E; [reflexivity |].
      exfalso.
      pose proof (find_none _ _ E n Hin) as Hf. cbn in Hf.
      rewrite Hname in Hf. discriminate.
Qed.

(** ** The statistics of a diet *)

Lemma nonNegative_plus (x y : num) :
  nonNegative x -> nonNegative y -> nonNegative (x + y).
Proof.
  intros [a [-> Ha]] [b [-> Hb]]. eexists; split; [reflexivity |].
  rewrite Qred_correct. lra.
Qed.

Lemma item_totals_nonNegative :
  forall (l : list DietMealIngredient) (totals : num * num * num),
    Forall validItem l ->
    nonNegative (fst (fst totals)) /\ nonNegative (snd (fst totals))
    /\ nonNegative (snd totals) ->
    let totals' :=
      fold_left
        (fun '(totalProtein, totalCarbs, totalFat) item =>
           let factor := dmi_amount item / 100 in
           (totalProtein + protein (macros (dmi_ingredient item)) * factor,
            totalCarbs + carbs (macros (dmi_ingredient item)) * factor,
            totalFat + fat (macros (dmi_ingredient item)) * factor))
        l totals in
    nonNegative (fst (fst totals')) /\ nonNegative (snd (fst totals'))
    /\ nonNegative (snd totals').
Proof.
  cbv zeta. induction l as [| item rest IH]; intros [[x y] z] Hl H;
    cbn [fold_left]; [exact H |].
  inversion Hl as [| ? ? (Ha & Hp & Hc & Hf) Hrest]; subst.
  cbn [fst snd] in H. destruct H as (Hx & Hy & Hz).
  apply IH; [exact Hrest |]. cbn [fst snd].
  repeat split; apply nonNegative_plus; try assumption;
    apply nonNegative_mul; try assumption; now apply nonNegative_div_100.
Qed.

Lemma by_sign_zero (a : Q) (x y z : num) : (a == 0)%Q -> by_sign a x y z = y.
Proof. intros H. unfold by_sign. now rewrite (proj1 (Qeq_alt a 0) H). Qed.

Lemma percentages_of_totals (P C F : Q) :
  (0 <= P)%Q -> (0 <= C)%Q -> (0 <= F)%Q ->
  let totalCalories := Fin P * 4 + Fin C * 4 + Fin F * 9 in
  (totalCalories = Fin 0
   /\ ((Fin P * 4) / totalCalories) * 100 = NaN
   /\ ((Fin C * 4) / totalCalories) * 100 = NaN
   /\ ((Fin F * 9) / totalCalories) * 100 = NaN)
  \/ (positive totalCalories
      /\ ((Fin P * 4) / totalCalories) * 100
         + ((Fin C * 4) / totalCalories) * 100
         + ((Fin F * 9) / totalCalories) * 100 = Fin 100).
Proof.
  intros HP HC HF. cbv zeta.
  assert (HK : Fin P * 4 + Fin C * 4 + Fin F * 9
               = Fin (Qred (P * 4 + C * 4 + F * 9))).
  { unfold mul, add, fin. f_equal. apply Qred_complete.
    rewrite !Qred_correct. reflexivity. }
  rewrite HK.
  destruct (Qlt_le_dec 0 (P * 4 + C * 4 + F * 9)) as [Hpos | Hle].
  - right. split.
    + eexists; split; [reflexivity |]. now rewrite Qred_correct.
    + unfold mul at 2 4 6. unfold fin.
      rewrite !div_Fin_pos by (now rewrite Qred_correct).
      unfold mul, add, fin. f_equal.
      change 100%Q with (Qred 100). apply Qred_complete.
      rewrite !Qred_correct.
      change (Qred 100) with 100%Q. field. lra.
  - left.
    assert (HP0 : (P == 0)%Q) by lra.
    assert (HC0 : (C == 0)%Q) by lra.
    assert (HF0 : (F == 0)%Q) by lra.
    assert (HK0 : Qred (P * 4 + C * 4 + F * 9) = 0%Q).
    { change 0%Q with (Qred 0). apply Qred_complete. lra. }
    rewrite HK0. split; [reflexivity |].
    unfold mul at 2 4 6. unfold fin, div.
    change (Qeq_bool 0 0) with true. cbv iota.
    rewrite !by_sign_zero by (rewrite Qred_correct; lra).
    repeat split; reflexivity.
Qed.

(** X18.  For a diet whose entries have finite non-negative amounts and
    macros, [calculateTotalMacros] either finds 0 calories, and then each
    of its three percentages is NaN (so for a diet without entries), or
    finds positive calories, and then the three percentages sum to 100. *)
Theorem macro_percentages_sum_to_100_or_nan :
  forall (diet : Diet),
    Forall validItem (items diet) ->
    let totals := Stats.calculateTotalMacros diet in
    (Stats.total_calories totals = Fin 0
     /\ Stats.proteinPercentage totals = NaN
     /\ Stats.carbsPercentage totals = NaN
     /\ Stats.fatPercentage totals = NaN)
    \/ (positive (Stats.total_calories totals)
        /\ Stats.proteinPercentage totals + Stats.carbsPercentage totals
           + Stats.fatPercentage totals = Fin 100).
Proof.
  intros diet Hvalid totals. subst totals. unfold Stats.calculateTotalMacros.
  assert (H : forall (ms : list DietMeal) (t : num * num * num),
             Forall (fun dm => Forall validItem (ingredients dm)) ms ->
             nonNegative (fst (fst t)) /\ nonNegative (snd (fst t))
             /\ nonNegative (snd t) ->
             let t' :=
               fold_left
                 (fun totals meal0 =>
                    fold_left
                      (fun '(totalProtein, totalCarbs, totalFat) item =>
                         let factor := dmi_amount item / 100 in
                         (totalProtein
                          + protein (macros (dmi_ingredient item)) * factor,
                          totalCarbs
                          + carbs (macros (dmi_ingredient item)) * factor,
                          totalFat
                          + fat (macros (dmi_ingredient item)) * factor))
                      (ingredients meal0) totals)
                 ms t in
             nonNegative (fst (fst t')) /\ nonNegative (snd (fst t'))
             /\ nonNegative (snd t')).
  { cbv zeta. induction ms as [| dm rest IH]; intros t Hms Ht;
      cbn [fold_left]; [exact Ht |].
    inversion Hms as [| ? ? Hdm Hrest]; subst.
    apply IH; [exact Hrest |].
    exact (item_totals_nonNegative t Hdm Ht). }
  unfold items in Hvalid. apply Forall_flat_map in Hvalid.
  specialize (H (meals diet) (Fin 0, Fin 0, Fin 0) Hvalid).
  cbv zeta in H.
  destruct (fold_left _ (meals diet) _) as [[x y] z].
  cbn [fst snd] in H.
  destruct H as ([P [-> HP]] & [C [-> HC]] & [F [-> HF]]).
  - repeat split; eexists; (split; [reflexivity | apply Qle_refl]).
  - cbn [Stats.total_calories Stats.proteinPercentage Stats.carbsPercentage
           Stats.fatPercentage].
    exact (percentages_of_totals HP HC HF).
Qed.

Lemma macro_percentages_sum_to_100_or_nan_witness :
  let totals :=
    Stats.calculateTotalMacros
      {| meals :=
           [{| meal := {| meal_name := "Lunch"; kcalPercentage := 100 |};
               ingredients :=
                 [{| dmi_ingredient := Scenario.chicken; dmi_amount := 200 |};
                  {| dmi_ingredient := Scenario.oats; dmi_amount := 80 |}] |}] |}
  in
  (Stats.total_calories totals = Fin 0
   /\ Stats.proteinPercentage totals = NaN
   /\ Stats.carbsPercentage totals = NaN
   /\ Stats.fatPercentage totals = NaN)
  \/ (positive (Stats.total_calories totals)
      /\ Stats.proteinPercentage totals + Stats.carbsPercentage totals
         + Stats.fatPercentage totals = Fin 100).
Proof.
  apply (@macro_percentages_sum_to_100_or_nan
           {| meals :=
                [{| meal := {| meal_name := "Lunch"; kcalPercentage := 100 |};
                    ingredients :=
                      [{| dmi_ingredient := Scenario.chicken;
                          dmi_amount := 200 |};
                       {| dmi_ingredient := Scenario.oats;
                          dmi_amount := 80 |}] |}] |}).
  repeat constructor; eexists; (split; [reflexivity | vm_compute; discriminate]).
Defined.

(** ** From the file to the tracking *)

Lemma update_first_hits :
  forall (nm : string) (f : NutrientTracking -> NutrientTracking)
         (pre : list NutrientTracking) (t : NutrientTracking)
         (post : list NutrientTracking),
    (forall t0, In t0 pre -> tracks nm t0 = false) ->
    tracks nm t = true ->
    update_first (tracks nm) f (pre ++ t :: post) = pre ++ f t :: post.
Proof.
  intros nm f pre t post Hpre Ht.
  induction pre as [| x pre0 IH]; cbn [app update_first].
  - now rewrite Ht.
  - rewrite (Hpre x (or_introl eq_refl)). f_equal.
    apply IH. intros t0 Hin. apply Hpre. now right.
Qed.

Lemma find_unique_name :
  forall (l : list Nutrient) (N : Nutrient),
    NoDup (map nutrient_name l) -> In N l ->
    find (fun n => String.eqb (nutrient_name n) (nutrient_name N)) l = Some N.
Proof.
  induction l as [| a rest IH]; intros N Hnd Hin; [destruct Hin |].
  cbn [map] in Hnd. inversion Hnd as [| ? ? Hnotin Hrest]; subst.
  cbn [find]. destruct (String.eqb (nutrient_name a) (nutrient_name N)) eqn:E.
  - destruct Hin as [-> | Hin]; [reflexivity |].
    apply String.eqb_eq in E. exfalso. apply Hnotin. rewrite E.
    now apply in_map.
  - destruct Hin as [-> | Hin]; [now rewrite String.eqb_refl in E |].
    now apply IH.
Qed.

Lemma transformed_names :
  forall (nutrientMap : LP.obj Nutrient) (nutrients0 : list Nutrient)
         (entries : LP.obj num) (n : IngredientNutrient),
    (forall nm, LP.getKey nm nutrientMap
                = find (fun n => String.eqb (nutrient_name n) nm) nutrients0) ->
    In n
      (flat_map
         (fun '(nutrientName, percentage) =>
            match LP.getKey nutrientName nutrientMap with
            | Some nutrient =>
                [{| in_amount := (percentage / 100) * nrv nutrient;
                    in_nutrient := nutrient |}]
            | None => []
            end)
         entries) ->
    In (nutrient_name (in_nutrient n)) (map fst entries).
Proof.
  intros m ns entries n Hm Hin. apply in_flat_map in Hin.
  destruct Hin as [[nm pct] [Hentry Hn]].
  rewrite Hm in Hn. destruct (find _ ns) as [n' |] eqn:E; [| destruct Hn].
  destruct Hn as [<- | []]. cbn [in_nutrient].
  apply find_some in E. destruct E as [_ E]. apply String.eqb_eq in E.
  rewrite E. change nm with (fst (nm, pct)). now apply in_map.
Qed.

Lemma tracked_share (N : Nutrient) (p r a : Q) :
  nrv N = Fin r ->
  (0 < r)%Q ->
  addConsumed ((Fin p / 100) * nrv N * (Fin a / 100))
    {| nt_nutrient := N; consumed := 0; percentage := 0 |}
  = {| nt_nutrient := N;
       consumed := fin (p / 100 * r * (a / 100));
       percentage := fin (p * a / 100) |}.
Proof.
  intros Hn Hr. unfold addConsumed. cbn [nt_nutrient consumed]. cbv zeta.
  rewrite Hn. rewrite !div_Fin_pos by reflexivity.
  unfold mul, add, fin.
  rewrite div_Fin_pos by exact Hr.
  f_equal.
  - f_equal. apply Qred_complete. rewrite !Qred_correct. field.
  - unfold mul, fin. f_equal. apply Qred_complete. rewrite !Qred_correct.
    field. lra.
Qed.

(** On binary64 the tracked percentage is the rounded one: 28 percent of
    an NRV of 80, at 100 g, are tracked as 28.000000000000004 percent. *)
Example tracked_percentage_on_binary64 :
  PrimFloat.eqb (F64.trackedPercentage 28 80 100) 28%float = false
  /\ PrimFloat.eqb (F64.trackedPercentage 28 80 100) 0x1.c000000000001p+4%float
     = true.
Proof. split; reflexivity. Qed.

(** X19.  From the file to the tracking: when the nutrients of the file
    have distinct names, an ingredient that the file gives a percentage of
    the NRV of a nutrient (per 100 g) changes, when an amount of it is
    taken on the initial tracking, the entry of that nutrient into what
    [addConsumed] makes of the fresh entry and the share
    [(percentage / 100 * nrv) * (amount / 100)], computed in that order,
    whatever else the ingredient lists.  In exact arithmetic, for finite
    values and a positive NRV, that entry holds
    [p / 100 * r * (amount / 100)] consumed and [p * amount / 100] percent;
    the code computes the same expressions on binary64 and rounds each
    step, so its values can differ from these in the last digits. *)
Theorem loaded_percentage_reaches_tracking :
  forall (nutrients0 : list Nutrient) (jsonIngredient : Loader.JsonIngredient)
         (nutrient : Nutrient) (percentage0 amount : num)
         (macros0 : MacroTracking),
    NoDup (map nutrient_name nutrients0) ->
    NoDup (map fst (Loader.nutrientsPercentages jsonIngredient)) ->
    In nutrient nutrients0 ->
    In (nutrient_name nutrient, percentage0)
       (Loader.nutrientsPercentages jsonIngredient) ->
    let ingredient :=
      Loader.transformIngredient (Loader.nutrientMapOf nutrients0)
        jsonIngredient in
    let fresh :=
      {| nt_nutrient := nutrient; consumed := 0; percentage := 0 |} in
    let share := (percentage0 / 100) * nrv nutrient * (amount / 100) in
    In (addConsumed share fresh)
       (fst (updateTracking ingredient amount
               (initializeNutrientTracking nutrients0) macros0))
    /\ (forall p r a : Q,
          percentage0 = Fin p -> nrv nutrient = Fin r -> (0 < r)%Q ->
          amount = Fin a ->
          addConsumed share fresh
          = {| nt_nutrient := nutrient;
               consumed := fin (p / 100 * r * (a / 100));
               percentage := fin (p * a / 100) |}).
Proof.
  intros ns j N pct amount macros0 Hnd Hkeys HinN Hentry ingredient fresh share.
  subst share fresh.
  split; [| intros p r a -> Hnrv Hr ->; now apply tracked_share].
  subst ingredient. unfold updateTracking. cbv zeta. cbn [fst].
  unfold Loader.transformIngredient. cbn [nutrients].
  set (m := Loader.nutrientMapOf ns).
  assert (Hm : forall nm,
             LP.getKey nm m
             = find (fun n => String.eqb (nutrient_name n) nm) (rev ns)).
  { intros nm. apply nutrientMap_lookup. }
  assert (HmN : LP.getKey (nutrient_name N) m = Some N).
  { rewrite Hm. apply find_unique_name.
    - rewrite map_rev. now apply NoDup_rev.
    - now apply in_rev in HinN. }
  (* the entry of the nutrient in the file, and in the tracking *)
  destruct (in_split _ _ Hentry) as (e1 & e2 & He).
  rewrite He in Hkeys |- *.
  rewrite map_app in Hkeys. cbn [map fst] in Hkeys.
  pose proof (NoDup_remove_2 _ _ _ Hkeys) as Hfresh.
  destruct (in_split _ _ HinN) as (l1 & l2 & Hns).
  assert (Hnd' := Hnd). rewrite Hns, map_app in Hnd'. cbn [map] in Hnd'.
  pose proof (NoDup_remove_2 _ _ _ Hnd') as HfreshN.
  clearbody m.
  rewrite Hns. unfold initializeNutrientTracking.
  rewrite map_app. cbn [map].
  set (init := fun nutrient0 : Nutrient =>
                 {| nt_nutrient := nutrient0; consumed := 0;
                    percentage := 0 |}).
  set (t0 := {| nt_nutrient := N; consumed := 0; percentage := 0 |}).
  rewrite flat_map_app. cbn [flat_map]. rewrite HmN.
  rewrite !fold_left_app. cbn [fold_left app in_nutrient in_amount].
  assert (Hother : forall es n,
             (forall k, In k (map fst es) -> k <> nutrient_name N) ->
             In n
               (flat_map
                  (fun '(nutrientName, percentage) =>
                     match LP.getKey nutrientName m with
                     | Some nutrient =>
                         [{| in_amount := (percentage / 100) * nrv nutrient;
                             in_nutrient := nutrient |}]
                     | None => []
                     end)
                  es) ->
             forall t, nt_nutrient t = N ->
                       tracks (nutrient_name (in_nutrient n)) t = false).
  { intros es n Hes Hin t Ht. unfold tracks. rewrite Ht.
    apply String.eqb_neq. intros Heq.
    apply (Hes (nutrient_name (in_nutrient n))); [| now symmetry].
    exact (transformed_names m (rev ns) es n Hm Hin). }
  (* the entries before: the tracking entry is kept *)
  destruct (@updates_keep (amount / 100)
              (flat_map
                 (fun '(nutrientName, percentage) =>
                    match LP.getKey nutrientName m with
                    | Some nutrient =>
                        [{| in_amount := (percentage / 100) * nrv nutrient;
                            in_nutrient := nutrient |}]
                    | None => []
                    end)
                 e1)
              (map init l1) (map init l1) t0 (map init l2) eq_refl)
    as (pre1 & post1 & Heq1 & Hmap1).
  { intros n Hin. left. apply (Hother e1 n); [| exact Hin | reflexivity].
    intros k Hk Heq. apply Hfresh. apply in_or_app. left. now rewrite <- Heq. }
  rewrite Heq1.
  (* the entry itself: the tracking entry is updated *)
  rewrite update_first_hits.
  2:{ intros t Hin. unfold tracks. apply String.eqb_neq. intros Heq.
      apply HfreshN. apply in_or_app. left. rewrite <- Heq.
      apply (in_map nt_nutrient) in Hin. rewrite Hmap1, map_map in Hin.
      cbn [init nt_nutrient] in Hin. rewrite map_id in Hin.
      now apply in_map. }
  2:{ unfold tracks, t0. cbn [nt_nutrient]. apply String.eqb_refl. }
  (* the entries after: the updated entry is kept *)
  destruct (@updates_keep (amount / 100)
              (flat_map
                 (fun '(nutrientName, percentage) =>
                    match LP.getKey nutrientName m with
                    | Some nutrient =>
                        [{| in_amount := (percentage / 100) * nrv nutrient;
                            in_nutrient := nutrient |}]
                    | None => []
                    end)
                 e2)
              pre1 pre1
              (addConsumed ((pct / 100) * nrv N * (amount / 100)) t0)
              post1 eq_refl)
    as (pre2 & post2 & Heq2 & _).
  { intros n Hin. left. apply (Hother e2 n); [| exact Hin | reflexivity].
    intros k Hk Heq. apply Hfresh. apply in_or_app. right. now rewrite <- Heq. }
  rewrite Heq2. apply in_or_app. right. left. reflexivity.
Qed.

Lemma loaded_percentage_reaches_tracking_witness :
  let nutrients0 := [Scenario.vitaminC; Scenario.vitaminD] in
  let kale :=
    {| Loader.json_name := "Kale";
       Loader.json_macros := {| protein := 4.3; carbs := 8.8; fat := 0.9 |};
       Loader.nutrientsPercentages :=
         [("Vitamin K", Fin 200); ("Vitamin C", Fin 150)] |} in
  let fresh :=
    {| nt_nutrient := Scenario.vitaminC; consumed := 0; percentage := 0 |} in
  let share := (Fin 150 / 100) * nrv Scenario.vitaminC * (Fin 50 / 100) in
  In (addConsumed share fresh)
     (fst (updateTracking
             (Loader.transformIngredient (Loader.nutrientMapOf nutrients0) kale)
             (Fin 50) (initializeNutrientTracking nutrients0)
             {| protein := 0; carbs := 0; fat := 0 |}))
  /\ (forall p r a : Q,
        Fin 150 = Fin p -> nrv Scenario.vitaminC = Fin r -> (0 < r)%Q ->
        Fin 50 = Fin a ->
        addConsumed share fresh
        = {| nt_nutrient := Scenario.vitaminC;
             consumed := fin (p / 100 * r * (a / 100));
             percentage := fin (p * a / 100) |}).
Proof.
  intros nutrients0 kale fresh share.
  apply (@loaded_percentage_reaches_tracking nutrients0 kale
           Scenario.vitaminC (Fin 150) (Fin 50)
           {| protein := 0; carbs := 0; fat := 0 |}).
  - repeat constructor; cbn; intuition discriminate.
  - repeat constructor; cbn; intuition discriminate.
  - left. reflexivity.
  - right. left. reflexivity.
Defined.

(** ** Scores and limits of the greedy selector *)

Lemma le_0_plus (x y : num) : Fin 0 <= x -> Fin 0 <= y -> Fin 0 <= x + y.
Proof.
  unfold le.
  destruct x as [a | | |], y as [b | | |]; try discriminate; try reflexivity.
  rewrite !leb_Fin. intros Ha Hb. unfold add, fin. apply leb_Fin.
  rewrite Qred_correct. lra.
Qed.

Lemma gain_not_negative (current target ingredient : num) :
  (current <? target) && (ingredient >? current) = true ->
  Fin 0 <= (ingredient - current) * 2.
Proof.
  intros H. apply andb_prop in H. destruct H as [_ H]. unfold gtb in H.
  unfold le.
  destruct current as [c | | |], ingredient as [i | | |];
    try discriminate; try reflexivity.
  apply ltb_Fin in H. unfold sub, neg, add, mul, fin. apply leb_Fin.
  rewrite !Qred_correct. lra.
Qed.

(** X20.  [calculateMacroScore] is never negative and never NaN, whatever
    numbers the three macro records hold (NaN and the infinities
    included). *)
Theorem macro_score_not_negative :
  forall (ingredientMacros : Macros) (currentMacros targetMacros : MacroTracking),
    Fin 0 <= calculateMacroScore ingredientMacros currentMacros targetMacros.
Proof.
  intros im cm tm. unfold calculateMacroScore. cbv zeta.
  cbn [protein carbs fat].
  destruct (_ === 0); [reflexivity |].
  repeat match goal with
         | |- context [if ?c then _ else _] =>
             let E := fresh "E" in destruct c eqn:E
         end;
    repeat apply le_0_plus; try reflexivity;
    eapply gain_not_negative; eassumption.
Qed.

Lemma pushLimit_no_room (m target current : num) (limits : list num) :
  (target <=? current) = true ->
  pushLimit m target current limits = limits.
Proof.
  intros Hle. unfold pushLimit. cbv zeta.
  destruct (m >? 0) eqn:Hm; [| reflexivity].
  match goal with
  | |- context [if ?c then _ else _] => destruct c eqn:E
  end; [| reflexivity].
  exfalso. unfold gtb in *.
  destruct target as [t | | |], current as [c | | |], m as [q | | |];
    try discriminate;
    try (cbn in E; discriminate).
  - apply leb_Fin in Hle. apply ltb_Fin in Hm.
    unfold sub, neg, add, fin in E.
    rewrite div_Fin_pos in E by exact Hm.
    unfold mul, fin in E. apply ltb_Fin in E.
    rewrite !Qred_correct in E.
    assert (H : ((t + - c) / q <= 0)%Q).
    { apply Qle_shift_div_r; [exact Hm | lra]. }
    lra.
  - apply ltb_Fin in Hm. unfold sub, neg, add, div, by_sign in E.
    apply Qgt_alt in Hm. rewrite Hm in E. cbn in E. discriminate.
  - apply ltb_Fin in Hm. unfold sub, neg, add, div, by_sign in E.
    apply Qgt_alt in Hm. rewrite Hm in E. cbn in E. discriminate.
  - apply ltb_Fin in Hm. unfold sub, neg, add, div, by_sign in E.
    apply Qgt_alt in Hm. rewrite Hm in E. cbn in E. discriminate.
Qed.

(** X21.  The macro limit of an amount is always a positive number (never
    0, negative or NaN), whatever the three macro records hold; and when
    each macro target is already reached, it is the default of 500 g: macros
    over their target put no limit on a further amount. *)
Theorem macro_limit_positive_and_lifted_over_target :
  forall (ingredientMacros : Macros) (currentMacros targetMacros : MacroTracking),
    (calculateMacroLimitedAmount ingredientMacros currentMacros targetMacros
     >? 0) = true
    /\ ((protein targetMacros <=? protein currentMacros) = true ->
        (carbs targetMacros <=? carbs currentMacros) = true ->
        (fat targetMacros <=? fat currentMacros) = true ->
        calculateMacroLimitedAmount ingredientMacros currentMacros targetMacros
        = Fin 500).
Proof.
  intros im cm tm. split.
  - unfold calculateMacroLimitedAmount. cbv zeta.
    destruct (0 <? List.length _)%nat; [| reflexivity].
    assert (H : (min_list
                   (pushLimit (fat im) (fat tm) (fat cm)
                      (pushLimit (carbs im) (carbs tm) (carbs cm)
                         (pushLimit (protein im) (protein tm) (protein cm) [])))
                 >? 0) = true).
    { apply min_list_positive. repeat apply pushLimit_positive. constructor. }
    unfold gtb in *.
    destruct (min_list _) as [q | | |]; try discriminate; try reflexivity.
    apply ltb_Fin in H. unfold mul, fin. apply ltb_Fin.
    rewrite Qred_correct. lra.
  - intros Hp Hc Hf. unfold calculateMacroLimitedAmount. cbv zeta.
    now rewrite !pushLimit_no_room.
Qed.

(** X22.  The selection loop does not start when there is no nutrient to
    cover (the condition on the NRVs holds of an empty tracking) or when
    0 is not below 95 % of the calorie target (a target of 0, a negative
    one, NaN): the selection is then empty whatever the catalog offers,
    and the greedy [getDiet] of an input without nutrients returns every
    meal with an empty list. *)
Theorem selection_loop_does_not_start :
  forall (fuel : nat) (ingredients0 : list Ingredient)
         (nutrients0 : list Nutrient) (targetMacros : MacroTracking)
         (targetCalories : num),
    nutrients0 = [] \/ (Fin 0 <? targetCalories * 0.95) = false ->
    selectOptimalIngredients fuel ingredients0 nutrients0 targetMacros
      targetCalories = Some []
    /\ (forall (now : num) (input : GetDietInput),
           input_nutrients input = [] ->
           input_meals input <> [] ->
           getDiet fuel now input
           = Some (Ok {| meals :=
                           map (fun m => {| meal := m; ingredients := [] |})
                             (input_meals input) |})).
Proof.
  assert (Hsel : forall fuel ingredients0 nutrients0 tm tc,
             nutrients0 = [] \/ (Fin 0 <? tc * 0.95) = false ->
             selectOptimalIngredients fuel ingredients0 nutrients0 tm tc
             = Some []).
  { intros fuel ingredients0 nutrients0 tm tc H.
    unfold selectOptimalIngredients.
    assert (Hloop : selectionLoop fuel ingredients0 tm tc
                      (initialState nutrients0)
                    = Some (initialState nutrients0)).
    { assert (Hstep : selectionStep ingredients0 tm tc (initialState nutrients0)
                      = Done (initialState nutrients0)).
      { unfold selectionStep. cbn [initialState st_tracking st_calories].
        destruct H as [-> | H].
        - reflexivity.
        - rewrite H. now rewrite andb_false_r. }
      destruct fuel; cbn [selectionLoop]; now rewrite Hstep. }
    rewrite Hloop. f_equal.
    pose proof (optimizeMacroBalance_ingredients []
                  (st_macros (initialState nutrients0)) tm tc) as Hb.
    cbn [st_selected initialState] in *.
    destruct (balanced_selection _); [reflexivity | discriminate]. }
  intros fuel ingredients0 nutrients0 tm tc H. split; [now apply Hsel |].
  intros now input Hn Hmeals. unfold getDiet. rewrite Hn.
  rewrite Hsel by now left. f_equal.
  now apply distributeToMeals_nothing.
Qed.

Lemma selection_loop_does_not_start_witness :
  selectOptimalIngredients 0
    [Scenario.chicken; Scenario.oats; Scenario.spinach] []
    Scenario.targetMacros Scenario.targetCalories = Some [].
Proof.
  exact (proj1
           (@selection_loop_does_not_start 0
              [Scenario.chicken; Scenario.oats; Scenario.spinach] []
              Scenario.targetMacros Scenario.targetCalories
              (or_introl eq_refl))).
Defined.

(** ** The nutrient totals of a diet *)

Lemma setKey_keys_in :
  forall (V : Type) (k k' : string) (v : V) (o : LP.obj V),
    In k' (map fst (LP.setKey k v o)) <-> k' = k \/ In k' (map fst o).
Proof.
  intros V k k' v o. induction o as [| [k0 v0] rest IH]; cbn [LP.setKey].
  - cbn. intuition congruence.
  - destruct (String.eqb k0 k) eqn:E; cbn [map fst In].
    + apply String.eqb_eq in E. subst k0. intuition congruence.
    + rewrite IH. intuition congruence.
Qed.

Lemma setKey_keys_NoDup :
  forall (V : Type) (k : string) (v : V) (o : LP.obj V),
    NoDup (map fst o) -> NoDup (map fst (LP.setKey k v o)).
Proof.
  intros V k v o. induction o as [| [k0 v0] rest IH]; cbn [LP.setKey].
  - intros _. cbn. constructor; [intros [] | constructor].
  - intros Hnd. cbn [map fst] in Hnd.
    inversion Hnd as [| ? ? Hnotin Hrest]; subst.
    destruct (String.eqb k0 k) eqn:E; cbn [map fst].
    + apply String.eqb_eq in E. subst k0. now constructor.
    + constructor; [| now apply IH].
      rewrite setKey_keys_in. intros [-> | Hin]; [| contradiction].
      now rewrite String.eqb_refl in E.
Qed.

Lemma item_totals_keys :
  forall (factor : num) (l : list IngredientNutrient) (o : LP.obj num),
    let o' :=
      fold_left
        (fun nutrientTotals nutrientInfo =>
           let nm := nutrient_name (in_nutrient nutrientInfo) in
           LP.setKey nm
             (Stats.current nm nutrientTotals + in_amount nutrientInfo * factor)
             nutrientTotals)
        l o in
    (NoDup (map fst o) -> NoDup (map fst o'))
    /\ forall k,
         In k (map fst o')
         <-> In k (map fst o)
             \/ exists n, In n l /\ nutrient_name (in_nutrient n) = k.
Proof.
  intros factor. cbv zeta.
  induction l as [| n rest IH]; intros o; cbn [fold_left].
  - split; [auto |]. intros k. split; [now left |].
    intros [H | (n & [] & _)]. exact H.
  - destruct (IH (LP.setKey (nutrient_name (in_nutrient n))
                    (Stats.current (nutrient_name (in_nutrient n)) o
                     + in_amount n * factor) o)) as [IHa IHb].
    split.
    + intros Hnd. now apply IHa, setKey_keys_NoDup.
    + intros k. rewrite IHb, setKey_keys_in. split.
      * intros [[-> | H] | (n' & Hin & Hn')].
        -- right. exists n. split; [now left | reflexivity].
        -- now left.
        -- right. exists n'. split; [now right | exact Hn'].
      * intros [H | (n' & [<- | Hin] & Hn')].
        -- left. now right.
        -- left. left. now symmetry.
        -- right. now exists n'.
Qed.

Lemma meal_totals_keys :
  forall (l : list DietMealIngredient) (o : LP.obj num),
    let o' :=
      fold_left
        (fun nutrientTotals item =>
           let factor := dmi_amount item / 100 in
           fold_left
             (fun nutrientTotals nutrientInfo =>
                let nm := nutrient_name (in_nutrient nutrientInfo) in
                LP.setKey nm
                  (Stats.current nm nutrientTotals
                   + in_amount nutrientInfo * factor)
                  nutrientTotals)
             (nutrients (dmi_ingredient item)) nutrientTotals)
        l o in
    (NoDup (map fst o) -> NoDup (map fst o'))
    /\ forall k,
         In k (map fst o')
         <-> In k (map fst o)
             \/ exists item n,
                  In item l /\ In n (nutrients (dmi_ingredient item))
                  /\ nutrient_name (in_nutrient n) = k.
Proof.
  cbv zeta. induction l as [| item rest IH]; intros o; cbn [fold_left].
  - split; [auto |]. intros k. split; [now left |].
    intros [H | (item & n & [] & _)]. exact H.
  - pose proof (item_totals_keys (dmi_amount item / 100)
                  (nutrients (dmi_ingredient item)) o) as Hitem.
    cbv zeta in Hitem. destruct Hitem as [Ha Hb].
    match goal with
    | |- context [fold_left _ rest ?o1] => destruct (IH o1) as [IHa IHb]
    end.
    split.
    + intros Hnd. now apply IHa, Ha.
    + intros k. rewrite IHb, Hb. split.
      * intros [[H | (n & Hin & Hn)] | (item' & n & Hin & Hn)].
        -- now left.
        -- right. exists item, n. split; [now left | now split].
        -- right. exists item', n. split; [now right | exact Hn].
      * intros [H | (item' & n & [<- | Hin] & Hn & Hk)].
        -- left. now left.
        -- left. right. now exists n.
        -- right. now exists item', n.
Qed.

(** X23.  The nutrient totals of a diet have one key per nutrient name
    served: the keys are distinct, and a name is a key exactly when some
    entry of the diet holds an ingredient that lists a nutrient of that
    name (whatever its amount, and whether or not the optimizer tracks
    that nutrient). *)
Theorem nutrient_totals_keys_are_served_names :
  forall (diet : Diet),
    NoDup (map fst (Stats.calculateNutrientTotals diet))
    /\ forall k,
         In k (map fst (Stats.calculateNutrientTotals diet))
         <-> exists item n,
               In item (items diet)
               /\ In n (nutrients (dmi_ingredient item))
               /\ nutrient_name (in_nutrient n) = k.
Proof.
  intros diet. unfold Stats.calculateNutrientTotals, items.
  assert (H : forall (ms : list DietMeal) (o : LP.obj num),
             let o' :=
               fold_left
                 (fun nutrientTotals meal0 =>
                    fold_left
                      (fun nutrientTotals item =>
                         let factor := dmi_amount item / 100 in
                         fold_left
                           (fun nutrientTotals nutrientInfo =>
                              let nm :=
                                nutrient_name (in_nutrient nutrientInfo) in
                              LP.setKey nm
                                (Stats.current nm nutrientTotals
                                 + in_amount nutrientInfo * factor)
                                nutrientTotals)
                           (nutrients (dmi_ingredient item)) nutrientTotals)
                      (ingredients meal0) nutrientTotals)
                 ms o in
             (NoDup (map fst o) -> NoDup (map fst o'))
             /\ forall k,
                  In k (map fst o')
                  <-> In k (map fst o)
                      \/ exists item n,
                           In item (flat_map ingredients ms)
                           /\ In n (nutrients (dmi_ingredient item))
                           /\ nutrient_name (in_nutrient n) = k).
  { cbv zeta. induction ms as [| dm rest IH]; intros o; cbn [fold_left flat_map].
    - split; [auto |]. intros k. split; [now left |].
      intros [H | (item & n & [] & _)]. exact H.
    - pose proof (meal_totals_keys (ingredients dm) o) as Hmeal.
      cbv zeta in Hmeal. destruct Hmeal as [Ha Hb].
      match goal with
      | |- context [fold_left _ rest ?o1] => destruct (IH o1) as [IHa IHb]
      end.
      split.
      + intros Hnd. now apply IHa, Ha.
      + intros k. rewrite IHb, Hb. split.
        * intros [[H | (item & n & Hin & Hn)] | (item & n & Hin & Hn)].
          -- now left.
          -- right. exists item, n. split; [| exact Hn].
             apply in_or_app. now left.
          -- right. exists item, n. split; [| exact Hn].
             apply in_or_app. now right.
        * intros [H | (item & n & Hin & Hn)].
          -- left. now left.
          -- apply in_app_or in Hin. destruct Hin as [Hin | Hin].
             ++ left. right. now exists item, n.
             ++ right. now exists item, n. }
  specialize (H (meals diet) []). cbv zeta in H. destruct H as [Ha Hb].
  split.
  - apply Ha. constructor.
  - intros k. rewrite Hb. split.
    + intros [[] | H]. exact H.
    + intros H. now right.
Qed.

(** ** Supplements per meal *)









